(** * PeopleFinder: the geometric pedestrian classifier of peoplefinder.cpp

    A shallow embedding of the classifier and of the skeleton fitter.

    Conventions of the embedding.
    - A C++ [int] is a [Z].  The coordinates and indices handled here are
      pixel positions of a 128x64 image and positions in vectors of at most
      8192 entries; signed overflow (undefined in C++) is outside the model.
    - A [vector<T>] is a [list T] of the vector's size.  [v[i]] is [idx v i];
      an access outside the vector is undefined behaviour in C++ and is the
      fault [OutOfRange] here.
    - cv::Point has the fields [x] and [y]; the detectors store the row of a
      pixel in [x] and its column in [y].
    - A member function that reads or writes fields of the object takes the
      [PeopleFinder] record (or the one field it touches) and returns the
      updated one.
    - [while] loops run on fuel.  Every loop of a detector advances an index
      into a vector it reads, so the vector's size plus one is enough fuel;
      running dry is the separate fault [OutOfFuel], which the detectors and
      the flood fill are shown not to meet. *)

From Stdlib Require Import ZArith Lia Bool Sorted.
From stdpp Require Import base list strings.

Local Open Scope Z_scope.

(** ** Results of a computation *)

Inductive fault : Set :=
  | OutOfRange    (* an access outside a vector or a Mat *)
  | CvException   (* a cv::Exception travelling up the stack *)
  | OutOfFuel.    (* the loop bound of the model was too small *)

Inductive res (A : Type) : Type :=
  | Ok (a : A)
  | Fail (f : fault).

Arguments Ok {A} a.
Arguments Fail {A} f.

#[global] Instance res_ret : MRet res := fun A a => Ok a.
#[global] Instance res_bind : MBind res := fun A B k m =>
  match m with
  | Ok a => k a
  | Fail f => Fail f
  end.

#[global] Instance res_fmap : FMap res := fun A B f m =>
  match m with
  | Ok a => Ok (f a)
  | Fail e => Fail e
  end.

(** [try { m } catch (Exception e) { h }] *)
Definition try_catch {A} (m : res A) (h : res A) : res A :=
  match m with
  | Fail CvException => h
  | other => other
  end.

(** ** Loops *)

Fixpoint while_ {St : Type} (fuel : nat) (cond : St -> res bool)
    (body : St -> res St) (s : St) : res St :=
  match fuel with
  | O => Fail OutOfFuel
  | S n =>
      b ← cond s;
      if b : bool then s' ← body s; while_ n cond body s' else Ok s
  end.

(** [for (i = lo; i < lo + n; i++) body] for a bound known before the loop. *)
Fixpoint for_ {St : Type} (n : nat) (i : Z) (body : Z -> St -> res St)
    (s : St) : res St :=
  match n with
  | O => Ok s
  | S n' => s' ← body i s; for_ n' (i + 1) body s'
  end.

(** ** Machine integers

    The [int] of the source has 32 bits.  Where the source multiplies two
    differences of coordinates the result is an [int] before it is stored in
    a [double], and the compiled code wraps it around. *)
Definition wrap (z : Z) : Z := (z + 2147483648) mod 4294967296 - 2147483648.

Definition int_sub (a b : Z) : Z := wrap (a - b).
Definition int_mul (a b : Z) : Z := wrap (a * b).

(** ** Points and vectors *)

Record Point : Set := mkPoint { x : Z; y : Z }.

Definition Point_eqb (p q : Point) : bool :=
  (x p =? x q) && (y p =? y q).

Definition origin : Point := mkPoint 0 0.
Definition sentinel : Point := mkPoint 1000 1000.

(** [v[i]] *)
Definition idx {A} (v : list A) (i : Z) : res A :=
  if 0 <=? i then
    match v !! Z.to_nat i with
    | Some a => Ok a
    | None => Fail OutOfRange
    end
  else Fail OutOfRange.

(** [v[i] = a] *)
Definition idx_set {A} (v : list A) (i : Z) (a : A) : res (list A) :=
  if (0 <=? i) && (i <? Z.of_nat (length v)) then Ok (<[Z.to_nat i := a]> v)
  else Fail OutOfRange.

(** ** The classifier object *)

Record PeopleFinder : Type := mkPeopleFinder {
  min_range : list Point;
  max_range : list Point;
  training_path : string;
  bad_skel_flag : bool;
  verdicts : list string
}.

Definition set_ranges (self : PeopleFinder) (mn mx : list Point) : PeopleFinder :=
  mkPeopleFinder mn mx (training_path self) (bad_skel_flag self) (verdicts self).

Definition set_flag (self : PeopleFinder) (b : bool) : PeopleFinder :=
  mkPeopleFinder (min_range self) (max_range self) (training_path self) b
    (verdicts self).

(** PeopleFinder::PeopleFinder(min, max, path, bad) *)
Definition new_PeopleFinder (mn mx : list Point) (path : string) (bad : bool)
    : PeopleFinder :=
  mkPeopleFinder mn mx path bad [].

(** PeopleFinder::get_verdicts and PeopleFinder::get_bad_flag *)
Definition get_verdicts (self : PeopleFinder) : list string := verdicts self.
Definition get_bad_flag (self : PeopleFinder) : bool := bad_skel_flag self.

Definition set_verdicts (self : PeopleFinder) (v : list string) : PeopleFinder :=
  mkPeopleFinder (min_range self) (max_range self) (training_path self)
    (bad_skel_flag self) v.

(** PeopleFinder::init *)
Definition init (self : PeopleFinder) : res PeopleFinder :=
  '(mn, mx) ← for_ 11 0 (fun i '(mn, mx) =>
      mn' ← idx_set mn i (mkPoint 1000 1000);
      mx' ← idx_set mx i (mkPoint 0 0);
      Ok (mn', mx')) (min_range self, max_range self);
  Ok (set_ranges self mn mx).

(** PeopleFinder::is_within_bound *)
Definition is_within_bound (node : Point) (lower_x lower_y x_bound y_bound : Z)
    : bool :=
  (lower_x <=? x node) && (x node <? x_bound) &&
  (lower_y <=? y node) && (y node <? y_bound).

(** PeopleFinder::train_compare_ranges.  The four assignments of one
    iteration write single coordinates of [min_range[i]] and [max_range[i]]. *)
Definition widen_min (f m : Point) : Point :=
  let m := if x f <=? x m then mkPoint (x f) (y m) else m in
  if y f <=? y m then mkPoint (x m) (y f) else m.

Definition widen_max (f m : Point) : Point :=
  let m := if x m <=? x f then mkPoint (x f) (y m) else m in
  if y m <=? y f then mkPoint (x m) (y f) else m.

Definition train_compare_ranges (self : PeopleFinder) (feature_nodes : list Point)
    : res PeopleFinder :=
  '(mn, mx) ← for_ 11 0 (fun i '(mn, mx) =>
      f ← idx feature_nodes i;
      lo ← idx mn i;
      mn' ← idx_set mn i (widen_min f lo);
      hi ← idx mx i;
      mx' ← idx_set mx i (widen_max f hi);
      Ok (mn', mx')) (min_range self, max_range self);
  Ok (set_ranges self mn mx).

(** PeopleFinder::judge_features.  [feature_score] is the counting loop,
    [verdict_of] the threshold cascade after it. *)
Definition feature_score (self : PeopleFinder) (nodes : list Point) : res Z :=
  for_ 11 0 (fun i score =>
      n ← idx nodes i;
      lo ← idx (min_range self) i;
      hi ← idx (max_range self) i;
      Ok (if is_within_bound n (x lo) (y lo) (x hi) (y hi)
          then score + 1 else score)) 0.

Definition verdict_of (feature_score : Z) : string :=
  if 7 <=? feature_score then "Pedestrian"
  else if 3 <=? feature_score then "Something"
  else "Noise".

Definition judge_features (self : PeopleFinder) (nodes : list Point) : res string :=
  score ← feature_score self nodes;
  Ok (verdict_of score).

(** ** Images *)

(** cv::Vec3b, the three channels of a pixel in the order blue, green, red. *)
Record Vec3b : Set := mkVec3b { c0 : Z; c1 : Z; c2 : Z }.

Definition Vec3b_eqb (a b : Vec3b) : bool :=
  (c0 a =? c0 b) && (c1 a =? c1 b) && (c2 a =? c2 b).

(** [Vec3b(0, 0, 255)], the colour of the contour, and [Vec3b(64, 0, 0)], the
    colour the flood fill paints the inside of the shape with. *)
Definition outline_colour : Vec3b := mkVec3b 0 0 255.
Definition fill_colour : Vec3b := mkVec3b 64 0 0.

(** cv::Mat of Vec3b, stored row after row. *)
Record Mat : Set := mkMat { rows : Z; cols : Z; data : list Vec3b }.

Definition inside (img : Mat) (r c : Z) : bool :=
  (0 <=? r) && (r <? rows img) && (0 <=? c) && (c <? cols img).

(** [img.at<Vec3b>(r, c)]; release builds of OpenCV do not check the position. *)
Definition at_ (img : Mat) (r c : Z) : res Vec3b :=
  if inside img r c then idx (data img) (r * cols img + c)
  else Fail OutOfRange.

Definition Mat_set (img : Mat) (r c : Z) (v : Vec3b) : Mat :=
  mkMat (rows img) (cols img) (<[Z.to_nat (r * cols img + c) := v]> (data img)).

(** cv::floodFill(img, seedPoint, newVal) with its default arguments: no
    tolerance and 4-connectivity.  It repaints with [newVal] the connected
    component of the seed among the pixels that have the seed's colour.  A
    cv::Point names a pixel by (column, row).  OpenCV raises an error for a
    seed outside the image.  The state of the loop is the image and the stack
    of pixels still to visit. *)
Definition flood_cond (s : Mat * list (Z * Z)) : res bool :=
  Ok (match s.2 with [] => false | _ => true end).

Definition flood_body (old newVal : Vec3b) (s : Mat * list (Z * Z))
    : res (Mat * list (Z * Z)) :=
  match s.2 with
  | [] => Ok s
  | (r, c) :: rest =>
      if inside s.1 r c then
        v ← at_ s.1 r c;
        if Vec3b_eqb v old then
          Ok (Mat_set s.1 r c newVal,
              (r + 1, c) :: (r - 1, c) :: (r, c + 1) :: (r, c - 1) :: rest)
        else Ok (s.1, rest)
      else Ok (s.1, rest)
  end.

Definition flood_fuel (img : Mat) : nat := 4 * length (data img) + 2.

Definition floodFill (img : Mat) (seedPoint : Point) (newVal : Vec3b) : res Mat :=
  if inside img (y seedPoint) (x seedPoint) then
    old ← at_ img (y seedPoint) (x seedPoint);
    if Vec3b_eqb old newVal then Ok img
    else
      s ← while_ (flood_fuel img) flood_cond (flood_body old newVal)
            (img, [(y seedPoint, x seedPoint)]);
      Ok s.1
  else Fail CvException.

(** PeopleFinder::highlight_pixels *)
Definition highlight_pixels (contoursonly : Mat)
    (shape_pixels outline_pixels : list Point) : res (list Point * list Point) :=
  '(sp, op, _, _) ←
    for_ (Z.to_nat (rows contoursonly)) 0 (fun i st =>
      for_ (Z.to_nat (cols contoursonly)) 0 (fun j '(sp, op, k, m) =>
        v ← at_ contoursonly i j;
        '(sp, k) ← (if Vec3b_eqb v fill_colour
                    then sp' ← idx_set sp k (mkPoint i j); Ok (sp', k + 1)
                    else Ok (sp, k));
        v ← at_ contoursonly i j;
        '(op, m) ← (if Vec3b_eqb v outline_colour
                    then op' ← idx_set op m (mkPoint i j); Ok (op', m + 1)
                    else Ok (op, m));
        Ok (sp, op, k, m)) st)
      (shape_pixels, outline_pixels, 0, 0);
  Ok (sp, op).

(** ** Landmark detectors

    Each detector receives [shape_pixels], the interior pixels in row-major
    order followed by (0,0) entries.  An [int *] out-parameter is an extra
    argument holding the value the caller's variable has at the call and an
    extra component of the result. *)

Definition is_origin (p : Point) : bool := Point_eqb p origin.

Definition vec_fuel {A} (v : list A) : nat := S (length v).

(** PeopleFinder::find_head_feature.  Loop state: [i], [headnode],
    [*index_head]. *)
Definition head_cond (shape_pixels : list Point) (threshold : Z)
    (s : Z * Point * Z) : res bool :=
  let '(i, headnode, _) := s in
  p ← idx shape_pixels i;
  Ok (negb (is_origin p) && (x p <? x headnode + threshold)).

Definition head_body (shape_pixels : list Point) (s : Z * Point * Z)
    : res (Z * Point * Z) :=
  let '(i, headnode, index_head) := s in
  p ← idx shape_pixels i;
  if x p <? x headnode
  then Ok (i + 1, mkPoint (x p) (y p), i)
  else Ok (i + 1, headnode, index_head).

Definition find_head_feature (shape_pixels : list Point) (threshold : Z)
    (index_head : Z) : res (Point * Z) :=
  '(_, headnode, index_head) ←
    while_ (vec_fuel shape_pixels) (head_cond shape_pixels threshold)
      (head_body shape_pixels) (0, mkPoint 1000 1000, index_head);
  Ok (mkPoint (x headnode + threshold) (y headnode), index_head).

(** The loop that skips the pixels above a row: [while (shape_pixels[i].x <
    bound && shape_pixels[i] != Point(0,0)) i++]. *)
Definition skip_cond (shape_pixels : list Point) (bound : Z) (i : Z) : res bool :=
  p ← idx shape_pixels i;
  Ok ((x p <? bound) && negb (is_origin p)).

Definition skip_body (i : Z) : res Z := Ok (i + 1).

(** PeopleFinder::find_torso_feature *)
Record torso_state : Set := mkTorso {
  t_i : Z;
  t_current_row : Point;
  t_current_dist : Z;
  t_shortest_dist : Z;
  t_best_fit_node : Point;
  t_index_torso : Z
}.

Definition torso_cond (shape_pixels : list Point) (lower_bound_x : Z)
    (s : torso_state) : res bool :=
  p ← idx shape_pixels (t_i s);
  Ok (negb (is_origin p) && (x p <? lower_bound_x)).

Definition torso_body (shape_pixels : list Point) (s : torso_state)
    : res torso_state :=
  let i := t_i s + 1 in
  p ← idx shape_pixels i;
  if x p =? x (t_current_row s) then
    Ok (mkTorso i (t_current_row s) (t_current_dist s + 1) (t_shortest_dist s)
          (t_best_fit_node s) (t_index_torso s))
  else if t_current_dist s <? t_shortest_dist s then
    q ← idx shape_pixels (i - 1);
    Ok (mkTorso i p 0 (t_current_dist s) q (i - 1))
  else
    Ok (mkTorso i p 0 (t_shortest_dist s) (t_best_fit_node s) (t_index_torso s)).

Definition find_torso_feature (shape_pixels : list Point) (threshold : Z)
    (head_feature : Point) (index_head : Z) (index_torso : Z)
    : res (Point * Z) :=
  let lower_bound_x := if 48 <? x head_feature then x head_feature + 1 else 48 in
  _ ← idx shape_pixels 0;
  i ← while_ (vec_fuel shape_pixels)
        (skip_cond shape_pixels (x head_feature + threshold)) skip_body
        index_head;
  p ← idx shape_pixels i;
  s ← while_ (vec_fuel shape_pixels) (torso_cond shape_pixels lower_bound_x)
        (torso_body shape_pixels) (mkTorso i p 0 1000 p index_torso);
  Ok (mkPoint (x (t_best_fit_node s) + threshold)
              (y (t_best_fit_node s) - t_shortest_dist s ÷ 2),
      t_index_torso s).

(** The run-tracking loop shared, statement for statement, by
    find_waist_feature and set_shoulder_positions: the expected next pixel is
    [current_row] moved one column to the right. *)
Record run_state : Set := mkRun {
  r_i : Z;
  r_current_row : Point;
  r_current_dist : Z;
  r_largest_dist : Z;
  r_best_fit_node : Point;
  r_index : Z
}.

Definition run_cond (shape_pixels : list Point) (lower_bound_x : Z)
    (s : run_state) : res bool :=
  p ← idx shape_pixels (r_i s);
  Ok (negb (is_origin p) && (x p <? lower_bound_x)).

Definition run_body (shape_pixels : list Point) (s : run_state) : res run_state :=
  let i := r_i s + 1 in
  let current_row := mkPoint (x (r_current_row s)) (y (r_current_row s) + 1) in
  p ← idx shape_pixels i;
  if Point_eqb p current_row then
    Ok (mkRun i current_row (r_current_dist s + 1) (r_largest_dist s)
          (r_best_fit_node s) (r_index s))
  else if r_largest_dist s <? r_current_dist s then
    q ← idx shape_pixels (i - 1);
    Ok (mkRun i p 0 (r_current_dist s) q (i - 1))
  else
    Ok (mkRun i p 0 (r_largest_dist s) (r_best_fit_node s) (r_index s)).

(** PeopleFinder::find_waist_feature.  The third component of the result is
    [bad_skel_flag].  The [catch] block raises the flag and leaves the locals
    as they are at the throw; no statement of the [try] block throws a
    cv::Exception, and [start] stands for those locals. *)
Definition waist_skip_cond (shape_pixels : list Point) (bound : Z) (i : Z)
    : res bool :=
  p ← idx shape_pixels i;
  Ok ((x p <? bound) && negb (is_origin p)).

Definition waist_skip_body (shape_pixels : list Point) (bound : Z) (i : Z)
    : res Z :=
  p ← idx shape_pixels i;
  if 8 <=? bound - x p then Ok (i + 100 + 1) else Ok (i + 1).

Definition find_waist_feature (shape_pixels : list Point) (threshold : Z)
    (torso_feature : Point) (index_torso : Z) (index_waist : Z)
    (bad_skel_flag : bool) : res (Point * Z * bool) :=
  let lower_bound_x := 80 in
  p0 ← idx shape_pixels 0;
  let start := mkRun index_torso p0 0 0 (mkPoint 1000 1000) index_waist in
  '(s, bad_skel_flag) ←
    try_catch
      (let upper_bound_x :=
         if 64 <? x torso_feature then x torso_feature + 1 else 64 in
       i ← while_ (vec_fuel shape_pixels)
             (waist_skip_cond shape_pixels (upper_bound_x + threshold))
             (waist_skip_body shape_pixels (upper_bound_x + threshold))
             index_torso;
       p ← idx shape_pixels i;
       s ← while_ (vec_fuel shape_pixels) (run_cond shape_pixels lower_bound_x)
             (run_body shape_pixels) (mkRun i p 0 0 p index_waist);
       Ok (s, bad_skel_flag))
      (Ok (start, true));
  Ok (mkPoint (x (r_best_fit_node s) - threshold)
              (y (r_best_fit_node s) - r_largest_dist s ÷ 2),
      r_index s, bad_skel_flag).

(** PeopleFinder::find_foot_feature.  [distx] and [disty] are products of
    two [int]s stored in a [double]; their sum is exact.  The source compares
    [sqrt(distx + disty)] with the shortest distance so far, which starts at
    10000.  The square root of a negative sum is a NaN, which is less than
    nothing.  On the sums that are not negative the square root is strictly
    increasing and exact enough to separate any two of them, so the
    comparison is the comparison of the sums, and 10000 is the root of
    100000000.  Loop state: [i], the square of [shortest_corner_dist],
    [best_fit_node]. *)
Definition foot_cond (shape_pixels : list Point) (s : Z * Z * Point) : res bool :=
  let '(i, _, _) := s in
  p ← idx shape_pixels i;
  Ok (negb (is_origin p)).

Definition foot_body (shape_pixels : list Point) (corner : Point)
    (s : Z * Z * Point) : res (Z * Z * Point) :=
  let '(i, shortest_sq, best_fit_node) := s in
  let i := i + 1 in
  p ← idx shape_pixels i;
  let distx := int_mul (int_sub (x corner) (x p)) (int_sub (x corner) (x p)) in
  let disty := int_mul (int_sub (y corner) (y p)) (int_sub (y corner) (y p)) in
  if (0 <=? distx + disty) && (distx + disty <? shortest_sq)
  then Ok (i, distx + disty, p)
  else Ok (i, shortest_sq, best_fit_node).

Definition find_foot_feature (shape_pixels : list Point) (threshold : Z)
    (waist_feature corner : Point) (index_waist : Z) : res Point :=
  let upper_bound_x :=
    if 70 <? x waist_feature then x waist_feature + 1 else 70 in
  i ← while_ (vec_fuel shape_pixels)
        (skip_cond shape_pixels (upper_bound_x + threshold)) skip_body
        index_waist;
  '(_, _, best_fit_node) ←
    while_ (vec_fuel shape_pixels) (foot_cond shape_pixels)
      (foot_body shape_pixels corner) (i, 100000000, mkPoint 1000 1000);
  Ok best_fit_node.

(** PeopleFinder::set_shoulder_positions.  The result is [*left_shoulder],
    [*right_shoulder], [*arm_width] and [*index_shoulders]. *)
Definition shoulder_skip_cond (shape_pixels : list Point) (upper_bound_x : Z)
    (i : Z) : res bool :=
  p ← idx shape_pixels i;
  Ok (x p <? upper_bound_x).

Definition set_shoulder_positions (shape_pixels : list Point) (threshold : Z)
    (torso_feature : Point) (index_torso : Z) (index_shoulders : Z)
    : res (Point * Point * Z * Z) :=
  let upper_bound_x := x torso_feature in
  let lower_bound_x := x torso_feature + threshold in
  _ ← idx shape_pixels 0;
  i ← while_ (vec_fuel shape_pixels)
        (shoulder_skip_cond shape_pixels upper_bound_x) skip_body index_torso;
  p ← idx shape_pixels i;
  s ← while_ (vec_fuel shape_pixels) (run_cond shape_pixels lower_bound_x)
        (run_body shape_pixels) (mkRun i p 0 0 p index_shoulders);
  let largest_dist := r_largest_dist s in
  let best_fit_node := r_best_fit_node s in
  let arm_width := if largest_dist ÷ 10 =? 0 then 1 else largest_dist ÷ 10 in
  Ok (mkPoint (x best_fit_node) (y best_fit_node - largest_dist + arm_width),
      mkPoint (x best_fit_node) (y best_fit_node - arm_width),
      arm_width, r_index s).

(** PeopleFinder::find_closest_pixel.  As in find_foot_feature the doubles
    compared are square roots of sums of two [int] products, a negative sum
    gives a NaN, and on the other sums the comparison is the comparison of
    the sums; [best_dist] starts at 1000, the root of 1000000.
    [best_fit_node] starts as [Point()], that is (0,0).  Loop state: [n], the
    square of [best_dist], [best_fit_node], and whether the [break] was
    taken. *)
Definition closest_cond (shape_pixels : list Point) (x_bound : Z)
    (s : Z * Z * Point * bool) : res bool :=
  let '(n, _, _, broke) := s in
  if broke : bool then Ok false
  else
    p ← idx shape_pixels n;
    Ok (negb (is_origin p) && (x p <=? x_bound)).

Definition closest_body (shape_pixels : list Point) (goal_node : Point)
    (s : Z * Z * Point * bool) : res (Z * Z * Point * bool) :=
  let '(n, best_sq, best_fit_node, _) := s in
  let n := n + 1 in
  p ← idx shape_pixels n;
  if Point_eqb p goal_node then Ok (n, best_sq, p, true)
  else
    let distx :=
      int_mul (int_sub (x goal_node) (x p)) (int_sub (x goal_node) (x p)) in
    let disty :=
      int_mul (int_sub (y goal_node) (y p)) (int_sub (y goal_node) (y p)) in
    if (0 <=? distx + disty) && (distx + disty <=? best_sq)
    then Ok (n, distx + disty, p, false)
    else Ok (n, best_sq, best_fit_node, false).

Definition find_closest_pixel (shape_pixels : list Point) (goal_node : Point)
    (x_bound : Z) (n : Z) : res Point :=
  let n := n + 200 in
  '(_, _, best_fit_node, _) ←
    while_ (vec_fuel shape_pixels) (closest_cond shape_pixels x_bound)
      (closest_body shape_pixels goal_node) (n, 1000000, mkPoint 0 0, false);
  Ok best_fit_node.

(** ** The skeleton fitter *)

(** The calls create_skeleton makes, in the order it makes them. *)
Inductive call : Set :=
  | CallFloodFill | CallHighlightPixels
  | CallHead | CallTorso | CallWaist | CallHalfway | CallFoot
  | CallShoulders | CallElbow | CallHand | CallDraw.

Definition is_detector (c : call) : bool :=
  match c with
  | CallFloodFill | CallHighlightPixels | CallHalfway | CallDraw => false
  | _ => true
  end.

Record fit : Type := mkFit {
  f_nodes : list Point;        (* the returned vector *)
  f_self : PeopleFinder;       (* the object after the call *)
  f_image : Mat;               (* *contoursonly after the call *)
  f_calls : list call
}.

(** The first statement of create_skeleton:
    if the pixel [at<Vec3b>(64, 32)] differs from [Vec3b(0, 0, 255)], then
    floodFill the image from [Point(32, 64)] with [Scalar(64, 0, 0)].
    The result is the image after the statement and the call it made. *)
Definition flood_from_seed (contoursonly : Mat) : res (Mat * list call) :=
  seed ← at_ contoursonly 64 32;
  if negb (Vec3b_eqb seed outline_colour)
  then img ← floodFill contoursonly (mkPoint 32 64) fill_colour;
       Ok (img, [CallFloodFill])
  else Ok (contoursonly, []).

(** The condition of the second statement:
    [contoursonly->at<Vec3b>(0, 0) != Vec3b(64, 0, 0)
     && contoursonly->at<Vec3b>(64, 32) != Vec3b(0, 0, 255)] *)
Definition silhouette_valid (contoursonly : Mat) : res bool :=
  corner ← at_ contoursonly 0 0;
  if negb (Vec3b_eqb corner fill_colour)
  then seed ← at_ contoursonly 64 32; Ok (negb (Vec3b_eqb seed outline_colour))
  else Ok false.

(** train_compare_ranges called on one skeleton after the other, as the loop
    of train does with the skeletons it keeps. *)
Fixpoint train_all (self : PeopleFinder) (skeletons : list (list Point))
    : res PeopleFinder :=
  match skeletons with
  | [] => Ok self
  | feature_nodes :: rest =>
      self' ← train_compare_ranges self feature_nodes; train_all self' rest
  end.

Section Fitter.

(** The elbow and hand detectors and the drawing work on doubles ([sqrt],
    [atan2], [cos], [sin]) and on OpenCV's drawing primitives.  They stay
    abstract: a function of its arguments that returns its result and
    whether its [catch] block raised [bad_skel_flag]. *)
Variable double : Type.
Variable sqrt : Z -> double.
Variable find_elbow_feature :
  list Point -> Point -> Point -> Point -> Z -> double -> Point -> Z ->
  res (Point * bool).
Variable find_hand_feature :
  list Point -> list Point -> Point -> Point -> Z -> double -> Point ->
  Mat -> Z -> res (Point * bool).
Variable draw_skeleton : Mat -> list Point -> res (Mat * bool).

(** PeopleFinder::calc_halfway_torso_dist.  [distx] and [disty] are
    products of two [int]s stored in a [double]. *)
Definition calc_halfway_torso_dist (torso_feature waist_feature : Point)
    : Point * double :=
  let halfway_dist_x := (x waist_feature - x torso_feature) ÷ 2 in
  let halfway_dist_y := (y waist_feature - y torso_feature) ÷ 2 in
  let halfway_node := mkPoint (x torso_feature + halfway_dist_x)
                              (y torso_feature + halfway_dist_y) in
  let distx := int_mul (int_sub (x halfway_node) (x torso_feature))
                       (int_sub (x halfway_node) (x torso_feature)) in
  let disty := int_mul (int_sub (y halfway_node) (y torso_feature))
                       (int_sub (y halfway_node) (y torso_feature)) in
  (halfway_node, sqrt (distx + disty)).

(** PeopleFinder::create_skeleton.  [nodes], [shape_pixels] and
    [outline_pixels] are built by [vector<Point>(n)], whose entries are
    [Point()], that is (0,0). *)
Definition create_skeleton (self : PeopleFinder) (contoursonly : Mat)
    : res fit :=
  let nodes := replicate 11 (mkPoint 0 0) in
  let shape_pixels := replicate (Z.to_nat 8192) (mkPoint 0 0) in
  let outline_pixels := replicate (Z.to_nat 4096) (mkPoint 0 0) in
  '(img, log) ← flood_from_seed contoursonly;
  valid ← silhouette_valid img;
  if valid : bool then
    '(shape_pixels, outline_pixels) ←
      highlight_pixels img shape_pixels outline_pixels;
    '(n0, index_head) ← find_head_feature shape_pixels 5 0;
    let nodes := <[0%nat := n0]> nodes in
    '(n1, index_torso) ← find_torso_feature shape_pixels 5 n0 index_head 0;
    let nodes := <[1%nat := n1]> nodes in
    let log := log ++ [CallHighlightPixels; CallHead; CallTorso] in
    if is_within_bound n1 0 0 (rows img) (cols img) then
      '(n2, index_waist, flag) ←
        find_waist_feature shape_pixels 5 n1 index_torso 0
          (bad_skel_flag self);
      let nodes := <[2%nat := n2]> nodes in
      let '(halfway_node, halfway_dist) := calc_halfway_torso_dist n1 n2 in
      n3 ← find_foot_feature shape_pixels 5 n2 (mkPoint 127 1) index_waist;
      let nodes := <[3%nat := n3]> nodes in
      n4 ← find_foot_feature shape_pixels 5 n2 (mkPoint 127 63) index_waist;
      let nodes := <[4%nat := n4]> nodes in
      '(n5, n6, arm_width, index_shoulders) ←
        set_shoulder_positions shape_pixels 5 n1 index_torso 0;
      let nodes := <[6%nat := n6]> (<[5%nat := n5]> nodes) in
      '(n7, r7) ← find_elbow_feature shape_pixels n1 n2 n5 arm_width
                    halfway_dist halfway_node index_shoulders;
      let nodes := <[7%nat := n7]> nodes in
      '(n8, r8) ← find_hand_feature shape_pixels outline_pixels n2 n7
                    arm_width halfway_dist halfway_node img index_shoulders;
      let nodes := <[8%nat := n8]> nodes in
      '(n9, r9) ← find_elbow_feature shape_pixels n1 n2 n6 arm_width
                    halfway_dist halfway_node index_shoulders;
      let nodes := <[9%nat := n9]> nodes in
      '(n10, r10) ← find_hand_feature shape_pixels outline_pixels n2 n9
                      arm_width halfway_dist halfway_node img index_shoulders;
      let nodes := <[10%nat := n10]> nodes in
      '(img, r) ← draw_skeleton img nodes;
      Ok (mkFit nodes
            (set_flag self (flag || r7 || r8 || r9 || r10 || r))
            img
            (log ++ [CallWaist; CallHalfway; CallFoot; CallFoot;
                     CallShoulders; CallElbow; CallHand; CallElbow;
                     CallHand; CallDraw]))
    else
      Ok (mkFit nodes (set_flag self true) img log)
  else
    Ok (mkFit nodes (set_flag self true) img log).

(** ** Training *)

(** BlobDetector::highlight_contours(&images[i], &images[i], &contoursonly)
    belongs to the contour extractor.  It may change the detector, the image
    it is given and [contoursonly]. *)
Variable BlobDetector : Type.
Variable highlight_contours :
  BlobDetector -> Mat -> Mat -> BlobDetector * Mat * Mat.

Record train_state : Type := mkTrain {
  tr_i : Z;
  tr_self : PeopleFinder;
  tr_images : list Mat;
  tr_contoursonly : Mat;
  tr_bd : BlobDetector
}.

(** [!images[i].rows == 0] is [(!images[i].rows) == 0]: the image has rows. *)
Definition train_cond (s : train_state) : res bool :=
  img ← idx (tr_images s) (tr_i s);
  Ok (negb (rows img =? 0)).

Definition train_body (s : train_state) : res train_state :=
  img ← idx (tr_images s) (tr_i s);
  let '(bd, img, contoursonly) :=
    highlight_contours (tr_bd s) img (tr_contoursonly s) in
  images ← idx_set (tr_images s) (tr_i s) img;
  out ← create_skeleton (tr_self s) contoursonly;
  let feature_nodes := f_nodes out in
  let i := tr_i s + 1 in
  self ← (if negb (bad_skel_flag (f_self out))
          then train_compare_ranges (f_self out) feature_nodes
          else Ok (f_self out));
  Ok (mkTrain i (set_flag self false) images (f_image out) bd).

(** PeopleFinder::train.  [images] is the vector load_dataset_files
    returns, [contoursonly] the empty Mat the local variable starts as. *)
Definition train (self : PeopleFinder) (images : list Mat)
    (contoursonly : Mat) (bd : BlobDetector) : res PeopleFinder :=
  self ← init self;
  s ← while_ (vec_fuel images) train_cond train_body
        (mkTrain 0 self images contoursonly bd);
  Ok (tr_self s).

(** ** Testing *)

(** PeopleFinder::test.  [create_skeleton(&shapes_ref[i])] works on the
    entry of the caller's vector, which it may repaint.  Loop state: [i], the
    object, the vector of shapes. *)
Definition test_cond (s : Z * PeopleFinder * list Mat) : res bool :=
  let '(i, _, shapes) := s in
  img ← idx shapes i;
  Ok (negb (rows img =? 0)).

Definition test_body (s : Z * PeopleFinder * list Mat)
    : res (Z * PeopleFinder * list Mat) :=
  let '(i, self, shapes) := s in
  img ← idx shapes i;
  out ← create_skeleton self img;
  shapes ← idx_set shapes i (f_image out);
  let skeleton := f_nodes out in
  let self := f_self out in
  verdict ← judge_features self skeleton;
  v ← idx_set (verdicts self) i verdict;
  Ok (i + 1, set_verdicts self v, shapes).

Definition test (self : PeopleFinder) (shapes : list Mat)
    : res (PeopleFinder * list Mat) :=
  let self := set_verdicts self (replicate 20 EmptyString) in
  '(_, self, shapes) ←
    while_ (vec_fuel shapes) test_cond test_body (0, self, shapes);
  Ok (self, shapes).

(** ** What the loops of the drivers keep *)

(** What holds of the state of the loop of test before the shape [i]: the
    shapes below [i] were fitted and judged, the others are untouched. *)
Definition test_inv (self : PeopleFinder) (shapes : list Mat)
    (s : Z * PeopleFinder * list Mat) : Prop :=
  let '(i, selfi, shapesi) := s in
  0 <= i /\
  min_range selfi = min_range self /\ max_range selfi = max_range self /\
  training_path selfi = training_path self /\
  length (verdicts selfi) = 20%nat /\
  (bad_skel_flag self = true -> bad_skel_flag selfi = true) /\
  length shapesi = length shapes /\
  (forall j : nat, Z.of_nat j < i ->
     exists img out verdict,
       shapes !! j = Some img /\ rows img <> 0 /\
       create_skeleton self img = Ok out /\
       judge_features self (f_nodes out) = Ok verdict /\
       verdicts selfi !! j = Some verdict /\
       shapesi !! j = Some (f_image out)) /\
  (forall j : nat, i <= Z.of_nat j ->
     ((j < 20)%nat -> verdicts selfi !! j = Some EmptyString) /\
     shapesi !! j = shapes !! j).

(** The skeletons train keeps of a vector of images: those of the images
    before the first without rows whose fit returns with the flag down.  The
    fit of the first image is made with the flag [flag], those of the later
    images with the flag down; create_skeleton reads nothing else of the
    object, for which [self0] stands.  The contour image is handed from one
    fit to the next, and so is the detector. *)
Fixpoint kept_skeletons (self0 : PeopleFinder) (flag : bool)
    (images : list Mat) (contoursonly : Mat) (bd : BlobDetector)
    : res (list (list Point)) :=
  match images with
  | [] => Fail OutOfRange
  | img :: rest =>
      if rows img =? 0 then Ok []
      else
        let '(bd, _, contoursonly) := highlight_contours bd img contoursonly in
        out ← create_skeleton (set_flag self0 flag) contoursonly;
        kept ← kept_skeletons self0 false rest (f_image out) bd;
        Ok (if bad_skel_flag (f_self out) then kept
            else f_nodes out :: kept)
  end.

End Fitter.

Arguments mkTrain {BlobDetector} _ _ _ _ _.
Arguments tr_i {BlobDetector} _.
Arguments tr_self {BlobDetector} _.
Arguments tr_images {BlobDetector} _.
Arguments tr_contoursonly {BlobDetector} _.
Arguments tr_bd {BlobDetector} _.
Arguments train_cond {BlobDetector} _.

(** ** Vocabulary of the statements *)

(** [contains(landmark, i)]: the landmark lies in the box of index [i]. *)
Definition contains (self : PeopleFinder) (landmark : Point) (i : nat) : bool :=
  match min_range self !! i, max_range self !! i with
  | Some lo, Some hi => is_within_bound landmark (x lo) (y lo) (x hi) (y hi)
  | _, _ => false
  end.

Definition landmark_contained (self : PeopleFinder) (nodes : list Point)
    (i : nat) : bool :=
  match nodes !! i with
  | Some n => contains self n i
  | None => false
  end.

(** The number of indices [i] in 0..10 whose landmark is contained in box [i]. *)
Definition contained_count (self : PeopleFinder) (nodes : list Point) : Z :=
  Z.of_nat (length (List.filter (landmark_contained self nodes) (seq 0 11))).

(** A landmark strictly inside the box of its index, in both coordinates. *)
Definition strictly_inside (f lo hi : Point) : Prop :=
  x lo < x f < x hi /\ y lo < y f < y hi.

(** ** Vocabulary of the proofs about cv::floodFill *)

(** The data of a Mat has one entry per pixel. *)
Definition Mat_wf (img : Mat) : Prop :=
  0 <= rows img /\ 0 <= cols img /\
  Z.of_nat (length (data img)) = rows img * cols img.

Definition count_colour (old : Vec3b) (l : list Vec3b) : nat :=
  length (List.filter (fun v => Vec3b_eqb v old) l).

Definition flood_measure (old : Vec3b) (s : Mat * list (Z * Z)) : nat :=
  (4 * count_colour old (data s.1) + length s.2)%nat.

Definition flood_inv (img0 : Mat) (newVal : Vec3b) (seed : Z * Z)
    (s : Mat * list (Z * Z)) : Prop :=
  rows s.1 = rows img0 /\ cols s.1 = cols img0 /\
  length (data s.1) = length (data img0) /\
  (forall k v, data s.1 !! k = Some v -> v = newVal \/ data img0 !! k = Some v) /\
  (s = (img0, [seed]) \/
   data s.1 !! Z.to_nat (seed.1 * cols img0 + seed.2) = Some newVal).


(** ** Vocabulary of the proofs about find_torso_feature *)

(** A row of the silhouette: its number and the columns of its interior
    pixels, from left to right. *)
Definition row_pixels (row : Z * list Z) : list Point :=
  map (mkPoint row.1) row.2.







(** ** Sample silhouettes, pixel lists and range models *)

Definition black : Vec3b := mkVec3b 0 0 0.

(** An image given by the colour of each pixel. *)
Definition paint (rows cols : Z) (colour : Z -> Z -> Vec3b) : Mat :=
  mkMat rows cols
    (flat_map (fun r => map (fun c => colour r c) (seqZ 0 cols)) (seqZ 0 rows)).

(** A vector of [n] points that starts with [pixels] and goes on with (0,0). *)
Definition pad (n : Z) (pixels : list Point) : list Point :=
  pixels ++ replicate (Z.to_nat n - length pixels) (mkPoint 0 0).

(** Every pixel is a contour pixel. *)
Definition all_outline : Mat := paint 65 33 (fun _ _ => outline_colour).

(** A closed contour around the pixels of column 32 from row [top] to row 64.
    [column_image] is the silhouette as the contour extractor hands it over,
    [column_flooded] the image after the flood from (64,32),
    [column_pixels] and [column_outline] the vectors highlight_pixels fills. *)
Definition column_colour (inner : Vec3b) (top r c : Z) : Vec3b :=
  if (c =? 32) && (top <=? r) && (r <=? 64) then inner
  else if (31 <=? c) && (c <=? 33) && (top - 1 <=? r) && (r <=? 65)
       then outline_colour
       else black.

Definition column_image (top : Z) : Mat := paint 66 34 (column_colour black top).

Definition column_flooded (top : Z) : Mat :=
  paint 66 34 (column_colour fill_colour top).

Definition column_pixels (top : Z) : list Point :=
  pad 8192 (map (fun r => mkPoint r 32) (seqZ top (65 - top))).

Definition column_outline (top : Z) : list Point :=
  pad 4096
    ([mkPoint (top - 1) 31; mkPoint (top - 1) 32; mkPoint (top - 1) 33]
     ++ flat_map (fun r => [mkPoint r 31; mkPoint r 33]) (seqZ top (65 - top))
     ++ [mkPoint 65 31; mkPoint 65 32; mkPoint 65 33]).

(** The vector of a silhouette without interior pixels. *)
Definition no_pixels : list Point := pad 8192 [].

(** Rows 11, 12 and 13 below a head pixel in row 1: five, two and three
    consecutive pixels. *)
Definition stair_band : list (Z * list Z) :=
  [(11, [4; 5; 6; 7; 8]); (12, [5; 6]); (13, [5; 6; 7])].

Definition stair_pixels : list Point :=
  [mkPoint 1 5; mkPoint 1 6] ++ flat_map row_pixels stair_band
  ++ pad 16 [].

(** A silhouette with a raised arm.  Rows 1 to 11 span the columns 20 to 35,
    row 12 has the arm pixel of column 20 and, after a gap, the neck pixels
    of columns 30 to 33, rows 13 to 64 span the columns 30 to 35.  Every other
    pixel of the image is a contour pixel. *)
Definition arm_band : list (Z * list Z) :=
  map (fun r => (r, seqZ 20 16)) (seqZ 1 11)
  ++ [(12, [20; 30; 31; 32; 33])]
  ++ map (fun r => (r, seqZ 30 6)) (seqZ 13 52).




Definition arm_pixels : list Point := pad 8192 (flat_map row_pixels arm_band).



(** Range models: the one init leaves, boxes [0,1) x [0,1), boxes
    [0,100) x [0,100), and boxes whose two corners are the point (5,5). *)
Definition boxes (lo hi : Point) : PeopleFinder :=
  new_PeopleFinder (replicate 11 lo) (replicate 11 hi) "" false.

Definition untrained : PeopleFinder := boxes (mkPoint 1000 1000) (mkPoint 0 0).
Definition unit_boxes : PeopleFinder := boxes (mkPoint 0 0) (mkPoint 1 1).
Definition wide_boxes : PeopleFinder := boxes (mkPoint 0 0) (mkPoint 100 100).
Definition point_boxes : PeopleFinder := boxes (mkPoint 5 5) (mkPoint 5 5).

(** A skeleton with eight landmarks at (50,50) and three at (1000,1000). *)
Definition sample_skeleton : list Point :=
  replicate 8 (mkPoint 50 50) ++ replicate 3 (mkPoint 1000 1000).

(** Instances of the abstract part of the fitter for closed statements.  The
    first three fail whenever they are called: a run that returns with them
    has not called them.  The other three find nothing and raise no flag. *)
Definition unreached_elbow
  : list Point -> Point -> Point -> Point -> Z -> unit -> Point -> Z ->
    res (Point * bool) := fun _ _ _ _ _ _ _ _ => Fail CvException.

Definition unreached_hand
  : list Point -> list Point -> Point -> Point -> Z -> unit -> Point -> Mat ->
    Z -> res (Point * bool) := fun _ _ _ _ _ _ _ _ _ => Fail CvException.

Definition unreached_draw : Mat -> list Point -> res (Mat * bool) :=
  fun _ _ => Fail CvException.

Definition blind_elbow
  : list Point -> Point -> Point -> Point -> Z -> unit -> Point -> Z ->
    res (Point * bool) := fun _ _ _ _ _ _ _ _ => Ok (mkPoint 1000 1000, false).

Definition blind_hand
  : list Point -> list Point -> Point -> Point -> Z -> unit -> Point -> Mat ->
    Z -> res (Point * bool) := fun _ _ _ _ _ _ _ _ _ => Ok (mkPoint 0 0, false).

Definition blind_draw : Mat -> list Point -> res (Mat * bool) :=
  fun img _ => Ok (img, false).

(** A contour extractor that hands the image over as it is. *)
Definition plain_contours (bd : unit) (img contoursonly : Mat)
    : unit * Mat * Mat := (bd, img, img).

(** The vector load_dataset_files returns for one training image. *)
Definition one_image : list Mat := [column_image 30; mkMat 0 0 []].

(** ** Vocabulary of the statements about the range model *)

(** The coordinate-wise minimum and maximum of two points. *)
Definition point_min (p q : Point) : Point :=
  mkPoint (Z.min (x p) (x q)) (Z.min (y p) (y q)).

Definition point_max (p q : Point) : Point :=
  mkPoint (Z.max (x p) (x q)) (Z.max (y p) (y q)).

(** [p] is at most [q] in both coordinates. *)
Definition point_le (p q : Point) : Prop := x p <= x q /\ y p <= y q.

(** The state of the loop of train_compare_ranges after the indices below [i]:
    those boxes are widened, the others are as before. *)
Definition widened_below (feature_nodes mn0 mx0 : list Point) (i : Z)
    (s : list Point * list Point) : Prop :=
  length s.1 = length mn0 /\ length s.2 = length mx0 /\
  forall j : nat,
    (Z.of_nat j < i -> forall f lo hi,
       feature_nodes !! j = Some f -> mn0 !! j = Some lo ->
       mx0 !! j = Some hi ->
       s.1 !! j = Some (point_min f lo) /\ s.2 !! j = Some (point_max f hi)) /\
    (i <= Z.of_nat j -> s.1 !! j = mn0 !! j /\ s.2 !! j = mx0 !! j).

(** The state of the loop of init after the indices below [i]. *)
Definition reset_below (mn0 mx0 : list Point) (i : Z)
    (s : list Point * list Point) : Prop :=
  length s.1 = length mn0 /\ length s.2 = length mx0 /\
  forall j : nat,
    (Z.of_nat j < i ->
       s.1 !! j = Some (mkPoint 1000 1000) /\ s.2 !! j = Some (mkPoint 0 0)) /\
    (i <= Z.of_nat j -> s.1 !! j = mn0 !! j /\ s.2 !! j = mx0 !! j).

(** ** Vocabulary of the statements about the pixel lists *)

(** The square of the distance of two pixels. *)
Definition dist_sq (p q : Point) : Z :=
  (x p - x q) * (x p - x q) + (y p - y q) * (y p - y q).

(** Two pixels at most 46340 apart in each coordinate: the square of the
    difference is an [int]. *)
Definition near (p q : Point) : Prop :=
  Z.abs (x p - x q) <= 46340 /\ Z.abs (y p - y q) <= 46340.

(** The pixels of colour [colour] among the columns [cs] of row [r], and in
    the whole image, row after row. *)
Definition cells_of (img : Mat) (colour : Vec3b) (r : Z) (cs : list Z)
    : list Point :=
  flat_map (fun c =>
    match at_ img r c with
    | Ok v => if Vec3b_eqb v colour then [mkPoint r c] else []
    | Fail _ => []
    end) cs.

Definition pixels_of (img : Mat) (colour : Vec3b) : list Point :=
  flat_map (fun r => cells_of img colour r (seqZ 0 (cols img)))
    (seqZ 0 (rows img)).

(** The first entries of [v] overwritten by [l]. *)
Definition overwrite (l v : list Point) : list Point := l ++ drop (length l) v.

(** The pixel of colour [colour] at one position, if there is one, and the
    pixels of that colour in the [n] rows from row [r] on. *)
Definition cell_of (img : Mat) (colour : Vec3b) (r c : Z) : list Point :=
  match at_ img r c with
  | Ok v => if Vec3b_eqb v colour then [mkPoint r c] else []
  | Fail _ => []
  end.

Definition rows_of (img : Mat) (colour : Vec3b) (r : Z) (n : nat)
    : list Point :=
  flat_map (fun r => cells_of img colour r (seqZ 0 (cols img)))
    (seqZ r (Z.of_nat n)).

(** What the loop of cv::floodFill keeps besides [flood_inv]: the size, and
    the pixels that do not have the colour [old] of the seed. *)
Definition flood_keeps (img0 : Mat) (old : Vec3b) (s : Mat * list (Z * Z))
    : Prop :=
  rows s.1 = rows img0 /\ cols s.1 = cols img0 /\
  forall k v, data img0 !! k = Some v -> v <> old -> data s.1 !! k = Some v.

(** What holds of the state of the loop of find_head_feature on a list whose
    first pixel is the highest: from the first turn on the head is that
    pixel. *)
Definition head_inv (p0 : Point) (e : nat) (index_head0 : Z)
    (s : Z * Point * Z) : Prop :=
  let '(i, headnode, index_head) := s in
  (i = 0 /\ headnode = mkPoint 1000 1000 /\ index_head = index_head0) \/
  (1 <= i <= Z.of_nat e /\ headnode = p0 /\ index_head = 0).

(** ** Vocabulary of the statements about the nearest pixel *)

(** One step of the scan of find_foot_feature on the state (square of the
    shortest distance, best pixel), and the scan of a list. *)
Definition closer (corner : Point) (s : Z * Point) (p : Point) : Z * Point :=
  if dist_sq corner p <? s.1 then (dist_sq corner p, p) else s.

Definition foot_scan (corner : Point) (l : list Point) (s : Z * Point)
    : Z * Point :=
  fold_left (closer corner) l s.


(** ** Vocabulary of the statements about runs *)

(** The [len + 1] entries of [shape_pixels] that end at index [last] are
    consecutive pixels of one row, the last of them [p]. *)
Definition is_run (shape_pixels : list Point) (last len : Z) (p : Point)
    : Prop :=
  forall k, 0 <= k <= len ->
    idx shape_pixels (last - k) = Ok (mkPoint (x p) (y p - k)).

(** What the run-tracking loop keeps: the run it is in, and the run it
    recorded if it recorded one. *)
Definition run_inv (shape_pixels : list Point) (i0 : Z) (b0 : Point)
    (index0 : Z) (s : run_state) : Prop :=
  0 <= r_current_dist s /\ 0 <= r_largest_dist s /\
  i0 <= r_i s - r_current_dist s /\
  is_run shape_pixels (r_i s) (r_current_dist s) (r_current_row s) /\
  ((r_largest_dist s = 0 /\ r_best_fit_node s = b0 /\ r_index s = index0) \/
   (0 < r_largest_dist s /\ i0 <= r_index s - r_largest_dist s /\
    is_run shape_pixels (r_index s) (r_largest_dist s) (r_best_fit_node s))).

(** The [len + 1] entries of [shape_pixels] that end at index [last] are
    pixels of row [r]. *)
Definition is_row (shape_pixels : list Point) (last len r : Z) : Prop :=
  forall k, 0 <= k <= len ->
    exists c, idx shape_pixels (last - k) = Ok (mkPoint r c).

(** What the loop of find_torso_feature keeps: the row it is in, and the row
    it recorded if it recorded one. *)
Definition torso_inv (shape_pixels : list Point) (i0 : Z) (p0 : Point)
    (index0 : Z) (s : torso_state) : Prop :=
  0 <= t_current_dist s /\
  i0 <= t_i s - t_current_dist s /\
  is_row shape_pixels (t_i s) (t_current_dist s) (x (t_current_row s)) /\
  t_shortest_dist s <= 1000 /\
  ((t_shortest_dist s = 1000 /\ t_best_fit_node s = p0 /\
    t_index_torso s = index0) \/
   (0 <= t_shortest_dist s < 1000 /\
    i0 <= t_index_torso s - t_shortest_dist s /\
    idx shape_pixels (t_index_torso s) = Ok (t_best_fit_node s) /\
    is_row shape_pixels (t_index_torso s) (t_shortest_dist s)
      (x (t_best_fit_node s)))).

(** ** Vocabulary of the statements about the seed fill *)

(** Two positions next to each other in a row or in a column. *)
Definition adjacent (p q : Z * Z) : Prop :=
  q = (p.1 + 1, p.2) \/ q = (p.1 - 1, p.2) \/
  q = (p.1, p.2 + 1) \/ q = (p.1, p.2 - 1).

(** The positions joined to [seed] by a path of adjacent pixels of colour
    [old]. *)
Inductive connected (img : Mat) (old : Vec3b) (seed : Z * Z) : Z * Z -> Prop :=
  | connected_seed :
      at_ img seed.1 seed.2 = Ok old -> connected img old seed seed
  | connected_step (p q : Z * Z) :
      connected img old seed p -> adjacent p q ->
      at_ img q.1 q.2 = Ok old -> connected img old seed q.

(** What the loop of cv::floodFill keeps: a pixel is as it was or was of the
    colour [old], is painted and is connected to the seed; the positions
    still to visit that are of colour [old] are connected to the seed; the
    neighbours of colour [old] of a painted pixel are painted or still to
    visit, and so is the seed. *)
Definition flood_conn (img0 : Mat) (old newVal : Vec3b) (seed : Z * Z)
    (s : Mat * list (Z * Z)) : Prop :=
  rows s.1 = rows img0 /\ cols s.1 = cols img0 /\
  length (data s.1) = length (data img0) /\
  (forall r c v, at_ img0 r c = Ok v ->
     at_ s.1 r c = Ok v \/
     (v = old /\ at_ s.1 r c = Ok newVal /\ connected img0 old seed (r, c))) /\
  (forall q, In q s.2 -> at_ img0 q.1 q.2 = Ok old ->
     connected img0 old seed q) /\
  (forall p q, at_ img0 p.1 p.2 = Ok old -> at_ s.1 p.1 p.2 = Ok newVal ->
     adjacent p q -> at_ img0 q.1 q.2 = Ok old ->
     at_ s.1 q.1 q.2 = Ok newVal \/ In q s.2) /\
  (at_ s.1 seed.1 seed.2 = Ok newVal \/ In seed s.2).

(** ** Sample data of the further properties *)

(** A skeleton of eleven landmarks at (20,70), one at (150,150) and one at
    (120,120). *)
Definition low_skeleton : list Point := replicate 11 (mkPoint 20 70).
Definition far_skeleton : list Point := replicate 11 (mkPoint 150 150).
Definition mid_skeleton : list Point := replicate 11 (mkPoint 120 120).

(** The range models train_compare_ranges makes of the model init leaves and
    the sample skeleton, and of that one and the skeleton of (20,70). *)
Definition sample_boxes : PeopleFinder :=
  new_PeopleFinder sample_skeleton sample_skeleton "" false.

Definition both_boxes : PeopleFinder :=
  new_PeopleFinder
    (replicate 8 (mkPoint 20 50) ++ replicate 3 (mkPoint 20 70))
    (replicate 8 (mkPoint 50 70) ++ replicate 3 (mkPoint 1000 1000)) "" false.

(** The skeleton create_skeleton fits to the column silhouette with the
    blind elbow and hand detectors, what it returns, and the range model
    train makes of it. *)
Definition column_skeleton : list Point :=
  [mkPoint 35 32; mkPoint 45 32; mkPoint (-5) 0; mkPoint 1000 1000;
   mkPoint 1000 1000; mkPoint 45 33; mkPoint 45 31; mkPoint 1000 1000;
   mkPoint 0 0; mkPoint 1000 1000; mkPoint 0 0].

Definition column_calls : list call :=
  [CallFloodFill; CallHighlightPixels; CallHead; CallTorso; CallWaist;
   CallHalfway; CallFoot; CallFoot; CallShoulders; CallElbow; CallHand;
   CallElbow; CallHand; CallDraw].

Definition column_fit (self : PeopleFinder) : fit :=
  mkFit column_skeleton self (column_flooded 30) column_calls.

Definition column_boxes : PeopleFinder :=
  new_PeopleFinder column_skeleton (<[2%nat := mkPoint 0 0]> column_skeleton)
    "" false.

(** A vector without training images. *)
Definition no_image : list Mat := [mkMat 0 0 []].

(** Pixels of the rows 74 to 120 before a (0,0): one above the bound 75 of
    the foot detector for a waist in row 60, one on it, three below it. *)
Definition leg_pixels : list Point :=
  [mkPoint 74 10; mkPoint 75 10; mkPoint 80 3; mkPoint 100 2; mkPoint 120 5;
   mkPoint 0 0].


(** A run of three pixels in row 70, a pixel of row 75 and a (0,0). *)
Definition run_pixels : list Point :=
  [mkPoint 70 10; mkPoint 70 11; mkPoint 70 12; mkPoint 75 3; mkPoint 0 0].

(** Two pixel lists with a pixel 65536 rows from the corner (127,1) and from
    the goal (3,4): the product of that difference with itself is 2^32. *)
Definition wide_leg_pixels : list Point :=
  [mkPoint 75 10; mkPoint 100 2; mkPoint 65663 1; mkPoint 0 0].

Definition wide_far_pixels : list Point :=
  replicate 200 (mkPoint 1 1)
  ++ [mkPoint 2 2; mkPoint 5 4; mkPoint 65539 4; mkPoint 0 0].

(* ------------------------------------------------------------------------ *)
(** * Theorems *)

(** ** The result monad and the loops *)

Lemma bind_Ok {A B} (m : res A) (k : A -> res B) (b : B) :
  m ≫= k = Ok b <-> exists a, m = Ok a /\ k a = Ok b.
Proof.
  destruct m as [a|f]; simpl; split.
  - intros H. exists a. auto.
  - intros (a' & Ha & Hk). congruence.
  - discriminate.
  - intros (a' & Ha & _). discriminate.
Qed.

Lemma bind_avoids {A B} (f : fault) (m : res A) (k : A -> res B) :
  m <> Fail f -> (forall a, k a <> Fail f) -> m ≫= k <> Fail f.
Proof.
  destruct m as [a|f']; intros Hm Hk; simpl; [apply Hk|].
  intros [= ->]. apply Hm. reflexivity.
Qed.

Lemma bind_Ok_l {A B} (m : res A) (k : A -> res B) (a : A) :
  m = Ok a -> m ≫= k = k a.
Proof. intros ->. reflexivity. Qed.

Lemma idx_Ok {A} (v : list A) (i : Z) (a : A) :
  idx v i = Ok a <-> 0 <= i /\ v !! Z.to_nat i = Some a.
Proof.
  unfold idx. destruct (Z.leb_spec 0 i) as [Hi|Hi].
  - destruct (v !! Z.to_nat i) as [a'|]; split.
    + intros [= ->]. auto.
    + intros [_ [= ->]]. reflexivity.
    + discriminate.
    + intros [_ ?]. discriminate.
  - split; [discriminate | lia].
Qed.

Lemma idx_of_nat {A} (v : list A) (k : nat) (a : A) :
  v !! k = Some a -> idx v (Z.of_nat k) = Ok a.
Proof.
  intros H. apply idx_Ok. rewrite Nat2Z.id. split; [lia | exact H].
Qed.

Lemma idx_lt {A} (v : list A) (i : Z) (a : A) :
  idx v i = Ok a -> 0 <= i < Z.of_nat (length v).
Proof.
  intros [Hi H]%idx_Ok. apply lookup_lt_Some in H. lia.
Qed.

Lemma idx_fault {A} (v : list A) (i : Z) (f : fault) :
  idx v i = Fail f -> f = OutOfRange.
Proof.
  unfold idx. destruct (0 <=? i); [destruct (v !! Z.to_nat i)|]; congruence.
Qed.

Lemma idx_set_of_nat {A} (v : list A) (k : nat) (a : A) :
  (k < length v)%nat -> idx_set v (Z.of_nat k) a = Ok (<[k := a]> v).
Proof.
  intros H. unfold idx_set.
  replace (0 <=? Z.of_nat k) with true by (symmetry; apply Z.leb_le; lia).
  replace (Z.of_nat k <? Z.of_nat (length v)) with true
    by (symmetry; apply Z.ltb_lt; lia).
  simpl. rewrite Nat2Z.id. reflexivity.
Qed.

Lemma while_step {St} (fuel : nat) (cond : St -> res bool) (body : St -> res St)
    (s : St) :
  while_ (S fuel) cond body s =
  (b ← cond s; if b : bool then s' ← body s; while_ fuel cond body s' else Ok s).
Proof. reflexivity. Qed.

(** The invariant rule: what the loop keeps holds at its exit, where the
    condition is false. *)
Lemma while_inv {St} (P : St -> Prop) (cond : St -> res bool)
    (body : St -> res St) :
  (forall s s', P s -> cond s = Ok true -> body s = Ok s' -> P s') ->
  forall fuel s s', P s -> while_ fuel cond body s = Ok s' ->
  P s' /\ cond s' = Ok false.
Proof.
  intros Hstep. induction fuel as [|n IH]; intros s s' HP Hrun.
  - discriminate.
  - rewrite while_step in Hrun. apply bind_Ok in Hrun as (b & Hc & Hrun).
    destruct b.
    + apply bind_Ok in Hrun as (s1 & Hb & Hrun). eauto.
    + injection Hrun as <-. auto.
Qed.

(** More fuel does not change a result. *)
Lemma while_fuel_mono {St} (cond : St -> res bool) (body : St -> res St) :
  forall n m s r, (n <= m)%nat -> while_ n cond body s = Ok r ->
  while_ m cond body s = Ok r.
Proof.
  induction n as [|n IH]; intros m s r Hle Hrun; [discriminate|].
  destruct m as [|m]; [lia|].
  rewrite while_step in *.
  destruct (cond s) as [[|]|f]; simpl in *; try assumption; try discriminate.
  destruct (body s) as [s1|f]; simpl in *; [|discriminate].
  apply IH; [lia | exact Hrun].
Qed.

(** A loop whose condition and body do not run dry and whose body lowers a
    measure does not run dry on fuel above the measure. *)
Lemma while_enough_fuel {St} (mu : St -> nat) (cond : St -> res bool)
    (body : St -> res St) :
  (forall s, cond s <> Fail OutOfFuel) ->
  (forall s, body s <> Fail OutOfFuel) ->
  (forall s s', cond s = Ok true -> body s = Ok s' -> (mu s' < mu s)%nat) ->
  forall fuel s, (mu s < fuel)%nat -> while_ fuel cond body s <> Fail OutOfFuel.
Proof.
  intros Hc Hb Hmu. induction fuel as [|n IH]; intros s Hlt; [lia|].
  rewrite while_step. specialize (Hc s). specialize (Hb s).
  destruct (cond s) as [[|]|f] eqn:Ec; simpl.
  - destruct (body s) as [s1|f] eqn:Eb; simpl; [|congruence].
    apply IH. specialize (Hmu s s1 Ec Eb). lia.
  - discriminate.
  - congruence.
Qed.

(** A loop of vector accesses throws no cv::Exception. *)
Lemma while_no_exception {St} (cond : St -> res bool) (body : St -> res St) :
  (forall s, cond s <> Fail CvException) ->
  (forall s, body s <> Fail CvException) ->
  forall fuel s, while_ fuel cond body s <> Fail CvException.
Proof.
  intros Hc Hb. induction fuel as [|n IH]; intros s; [discriminate|].
  rewrite while_step. specialize (Hc s). specialize (Hb s).
  destruct (cond s) as [[|]|f]; simpl.
  - destruct (body s) as [s1|f]; simpl; [apply IH | congruence].
  - discriminate.
  - congruence.
Qed.

Lemma for_inv {St} (P : Z -> St -> Prop) (body : Z -> St -> res St) :
  (forall i s s', P i s -> body i s = Ok s' -> P (i + 1) s') ->
  forall n i s s', P i s -> for_ n i body s = Ok s' -> P (i + Z.of_nat n) s'.
Proof.
  intros Hstep. induction n as [|n IH]; intros i s s' HP Hrun.
  - injection Hrun as <-. replace (i + Z.of_nat 0) with i by lia. exact HP.
  - simpl in Hrun. apply bind_Ok in Hrun as (s1 & Hb & Hrun).
    replace (i + Z.of_nat (S n)) with (i + 1 + Z.of_nat n) by lia. eauto.
Qed.

(** ** The range model and the classifier *)

Lemma is_within_bound_spec (node : Point) (lower_x lower_y x_bound y_bound : Z) :
  is_within_bound node lower_x lower_y x_bound y_bound = true <->
  lower_x <= x node < x_bound /\ lower_y <= y node < y_bound.
Proof.
  unfold is_within_bound. rewrite !andb_true_iff, !Z.leb_le, !Z.ltb_lt. lia.
Qed.

Lemma verdict_of_cases (score : Z) :
  (verdict_of score = "Pedestrian" <-> 7 <= score) /\
  (verdict_of score = "Something" <-> 3 <= score < 7) /\
  (verdict_of score = "Noise" <-> score < 3).
Proof.
  unfold verdict_of.
  destruct (Z.leb_spec 7 score); [|destruct (Z.leb_spec 3 score)];
    repeat split; intros; try lia; try reflexivity; discriminate.
Qed.

Lemma feature_score_loop (self : PeopleFinder) (nodes : list Point) :
  (11 <= length nodes)%nat ->
  (11 <= length (min_range self))%nat ->
  (11 <= length (max_range self))%nat ->
  forall (n k : nat) (acc : Z), (k + n <= 11)%nat ->
  for_ n (Z.of_nat k) (fun i score =>
      n ← idx nodes i;
      lo ← idx (min_range self) i;
      hi ← idx (max_range self) i;
      Ok (if is_within_bound n (x lo) (y lo) (x hi) (y hi)
          then score + 1 else score)) acc
  = Ok (acc + Z.of_nat (length (List.filter (landmark_contained self nodes)
                                  (seq k n)))).
Proof.
  intros Hn Hlo Hhi. induction n as [|n IH]; intros k acc Hk.
  - simpl. f_equal. lia.
  - destruct (lookup_lt_is_Some_2 nodes k) as [p Hp]; [lia|].
    destruct (lookup_lt_is_Some_2 (min_range self) k) as [lo Hl]; [lia|].
    destruct (lookup_lt_is_Some_2 (max_range self) k) as [hi Hh]; [lia|].
    cbn [for_ seq List.filter].
    rewrite (idx_of_nat _ _ _ Hp), (idx_of_nat _ _ _ Hl), (idx_of_nat _ _ _ Hh).
    simpl mbind.
    replace (Z.of_nat k + 1) with (Z.of_nat (S k)) by lia.
    rewrite IH by lia.
    unfold landmark_contained at 2, contains. rewrite Hp, Hl, Hh.
    destruct (is_within_bound p (x lo) (y lo) (x hi) (y hi)); simpl length;
      f_equal; lia.
Qed.

Lemma feature_score_count (self : PeopleFinder) (nodes : list Point) :
  (11 <= length nodes)%nat ->
  (11 <= length (min_range self))%nat ->
  (11 <= length (max_range self))%nat ->
  feature_score self nodes = Ok (contained_count self nodes).
Proof.
  intros Hn Hlo Hhi. unfold feature_score, contained_count.
  change 0 with (Z.of_nat 0) at 1.
  rewrite (feature_score_loop self nodes Hn Hlo Hhi 11 0 0) by lia.
  reflexivity.
Qed.

(** C5.  For a skeleton and a range model of 11 entries each, the score that
    judge_features computes is the number of indices 0..10 whose landmark is
    contained in the box of that index, and the verdict is "Pedestrian" iff
    the score is at least 7, "Something" iff it is at least 3 and below 7,
    "Noise" iff it is below 3. *)
Theorem C5_score_and_verdict (self : PeopleFinder) (nodes : list Point) :
  (11 <= length nodes)%nat ->
  (11 <= length (min_range self))%nat ->
  (11 <= length (max_range self))%nat ->
  let score := contained_count self nodes in
  feature_score self nodes = Ok score /\
  exists verdict,
    judge_features self nodes = Ok verdict /\
    (verdict = "Pedestrian" <-> 7 <= score) /\
    (verdict = "Something" <-> 3 <= score < 7) /\
    (verdict = "Noise" <-> score < 3).
Proof.
  intros Hn Hlo Hhi score.
  pose proof (feature_score_count self nodes Hn Hlo Hhi) as Hs.
  split; [exact Hs|].
  exists (verdict_of score). split.
  - unfold judge_features. rewrite Hs. reflexivity.
  - apply verdict_of_cases.
Qed.

Lemma filter_all_false {A} (f : A -> bool) (l : list A) :
  (forall a, In a l -> f a = false) -> List.filter f l = [].
Proof.
  induction l as [|a l IH]; intros H; [reflexivity|].
  simpl. rewrite (H a) by (left; reflexivity).
  apply IH. intros b Hb. apply H. right. exact Hb.
Qed.

(** A range model whose two corners agree at every index contains no
    landmark and scores every skeleton 0. *)
Lemma point_boxes_score_nothing (self : PeopleFinder) :
  (11 <= length (min_range self))%nat ->
  (11 <= length (max_range self))%nat ->
  (forall i, (i < 11)%nat -> min_range self !! i = max_range self !! i) ->
  forall nodes : list Point, (11 <= length nodes)%nat ->
    (forall i landmark, (i < 11)%nat -> contains self landmark i = false) /\
    feature_score self nodes = Ok 0 /\
    judge_features self nodes = Ok "Noise".
Proof.
  intros Hlo Hhi Heq.
  assert (Hnone : forall i landmark, (i < 11)%nat ->
            contains self landmark i = false).
  { intros i p Hi. unfold contains. rewrite (Heq i Hi).
    destruct (max_range self !! i) as [hi|]; [|reflexivity].
    apply not_true_is_false. rewrite is_within_bound_spec. lia. }
  intros nodes Hn. split; [exact Hnone|].
  assert (Hs : feature_score self nodes = Ok 0).
  { rewrite (feature_score_count self nodes Hn Hlo Hhi).
    unfold contained_count. rewrite filter_all_false; [reflexivity|].
    intros i Hi%in_seq. unfold landmark_contained.
    destruct (nodes !! i); [apply Hnone; lia | reflexivity]. }
  split; [exact Hs|]. unfold judge_features. rewrite Hs. reflexivity.
Qed.

Lemma widen_min_inside (f lo : Point) :
  x lo < x f -> y lo < y f -> widen_min f lo = lo.
Proof.
  intros Hx Hy. unfold widen_min.
  destruct (Z.leb_spec (x f) (x lo)); [lia|].
  destruct (Z.leb_spec (y f) (y lo)); [lia|]. reflexivity.
Qed.

Lemma widen_max_inside (f hi : Point) :
  x f < x hi -> y f < y hi -> widen_max f hi = hi.
Proof.
  intros Hx Hy. unfold widen_max.
  destruct (Z.leb_spec (x hi) (x f)); [lia|].
  destruct (Z.leb_spec (y hi) (y f)); [lia|]. reflexivity.
Qed.

Lemma train_compare_loop (feature_nodes mn mx : list Point) :
  (forall i f lo hi, (i < 11)%nat ->
     feature_nodes !! i = Some f -> mn !! i = Some lo -> mx !! i = Some hi ->
     strictly_inside f lo hi) ->
  (11 <= length feature_nodes)%nat ->
  (11 <= length mn)%nat -> (11 <= length mx)%nat ->
  forall n k : nat, (k + n <= 11)%nat ->
  for_ n (Z.of_nat k) (fun i '(mn, mx) =>
      f ← idx feature_nodes i;
      lo ← idx mn i;
      mn' ← idx_set mn i (widen_min f lo);
      hi ← idx mx i;
      mx' ← idx_set mx i (widen_max f hi);
      Ok (mn', mx')) (mn, mx)
  = Ok (mn, mx).
Proof.
  intros Hin Hf Hlo Hhi. induction n as [|n IH]; intros k Hk; [reflexivity|].
  destruct (lookup_lt_is_Some_2 feature_nodes k) as [f Ef]; [lia|].
  destruct (lookup_lt_is_Some_2 mn k) as [lo El]; [lia|].
  destruct (lookup_lt_is_Some_2 mx k) as [hi Eh]; [lia|].
  destruct (Hin k f lo hi ltac:(lia) Ef El Eh) as [Hx Hy].
  cbn [for_].
  rewrite (idx_of_nat _ _ _ Ef), (idx_of_nat _ _ _ El). simpl mbind.
  rewrite widen_min_inside by lia. rewrite idx_set_of_nat by lia.
  simpl mbind. rewrite (idx_of_nat _ _ _ Eh). simpl mbind.
  rewrite widen_max_inside by lia. rewrite idx_set_of_nat by lia.
  simpl mbind. rewrite !list_insert_id by assumption.
  replace (Z.of_nat k + 1) with (Z.of_nat (S k)) by lia. apply IH. lia.
Qed.

(** C8.  A skeleton whose every landmark lies strictly inside the current
    box of its index, in both coordinates, leaves min_range and max_range as
    they are: train_compare_ranges returns the object unchanged. *)
Theorem C8_interior_skeleton_keeps_ranges (self : PeopleFinder)
    (feature_nodes : list Point) :
  (11 <= length feature_nodes)%nat ->
  (11 <= length (min_range self))%nat ->
  (11 <= length (max_range self))%nat ->
  (forall i f lo hi, (i < 11)%nat ->
     feature_nodes !! i = Some f ->
     min_range self !! i = Some lo -> max_range self !! i = Some hi ->
     strictly_inside f lo hi) ->
  train_compare_ranges self feature_nodes = Ok self.
Proof.
  intros Hf Hlo Hhi Hin. unfold train_compare_ranges.
  change 0 with (Z.of_nat 0).
  rewrite (train_compare_loop _ _ _ Hin Hf Hlo Hhi 11 0) by lia.
  destruct self; reflexivity.
Qed.

(** ** Images and the flood fill *)

(** Total correctness of a loop: an invariant under which the condition and
    the body are defined and the body lowers a measure. *)
Lemma while_total {St} (P : St -> Prop) (mu : St -> nat)
    (cond : St -> res bool) (body : St -> res St) :
  (forall s, P s -> exists b, cond s = Ok b) ->
  (forall s, P s -> cond s = Ok true ->
     exists s', body s = Ok s' /\ P s' /\ (mu s' < mu s)%nat) ->
  forall fuel s, P s -> (mu s < fuel)%nat ->
  exists s', while_ fuel cond body s = Ok s' /\ P s' /\ cond s' = Ok false.
Proof.
  intros Hc Hb. induction fuel as [|n IH]; intros s HP Hlt; [lia|].
  rewrite while_step. destruct (Hc s HP) as [[|] Ec]; rewrite Ec; simpl.
  - destruct (Hb s HP Ec) as (s1 & Eb & HP1 & Hmu). rewrite Eb. simpl.
    apply IH; [exact HP1 | lia].
  - exists s. auto.
Qed.

Lemma Vec3b_eqb_eq (a b : Vec3b) : Vec3b_eqb a b = true <-> a = b.
Proof.
  unfold Vec3b_eqb. rewrite !andb_true_iff, !Z.eqb_eq.
  destruct a, b; simpl. split.
  - intros [[-> ->] ->]. reflexivity.
  - intros [= -> -> ->]. auto.
Qed.

Lemma Vec3b_eqb_refl (a : Vec3b) : Vec3b_eqb a a = true.
Proof. apply Vec3b_eqb_eq. reflexivity. Qed.

Lemma inside_index (img : Mat) (r c : Z) :
  Mat_wf img -> inside img r c = true ->
  0 <= r * cols img + c < Z.of_nat (length (data img)).
Proof.
  intros (Hr & Hc & Hlen). unfold inside.
  rewrite !andb_true_iff, !Z.leb_le, !Z.ltb_lt. intros H. rewrite Hlen. nia.
Qed.

Lemma at_inside (img : Mat) (r c : Z) :
  Mat_wf img -> inside img r c = true -> exists v, at_ img r c = Ok v.
Proof.
  intros Hwf Hin. unfold at_. rewrite Hin.
  destruct (inside_index img r c Hwf Hin) as [H0 Hlt].
  destruct (lookup_lt_is_Some_2 (data img) (Z.to_nat (r * cols img + c)))
    as [v Hv]; [lia|].
  exists v. apply idx_Ok. auto.
Qed.

Lemma at_Ok (img : Mat) (r c : Z) (v : Vec3b) :
  at_ img r c = Ok v <->
  inside img r c = true /\ 0 <= r * cols img + c /\
  data img !! Z.to_nat (r * cols img + c) = Some v.
Proof.
  unfold at_. destruct (inside img r c).
  - rewrite idx_Ok. tauto.
  - split; [discriminate | intros [? _]; discriminate].
Qed.

Lemma count_colour_le (old : Vec3b) (l : list Vec3b) :
  (count_colour old l <= length l)%nat.
Proof.
  unfold count_colour. induction l as [|a l IH]; simpl; [lia|].
  destruct (Vec3b_eqb a old); simpl; lia.
Qed.

Lemma count_colour_insert (old newVal v : Vec3b) :
  Vec3b_eqb v old = true -> Vec3b_eqb newVal old = false ->
  forall (l : list Vec3b) (k : nat), l !! k = Some v ->
  S (count_colour old (<[k := newVal]> l)) = count_colour old l.
Proof.
  intros Hv Hn. unfold count_colour.
  induction l as [|a l IH]; intros k Hk; [discriminate|].
  destruct k as [|k]; simpl in *.
  - injection Hk as ->. rewrite Hv, Hn. reflexivity.
  - destruct (Vec3b_eqb a old); simpl; rewrite <- (IH k Hk); reflexivity.
Qed.

Section Flood.
Variables (img0 : Mat) (old newVal : Vec3b) (seed : Z * Z).
Hypothesis Hwf : Mat_wf img0.
Hypothesis Hseed_in : inside img0 seed.1 seed.2 = true.
Hypothesis Hseed_old : at_ img0 seed.1 seed.2 = Ok old.
Hypothesis Hnew : Vec3b_eqb newVal old = false.

Lemma flood_body_step (s : Mat * list (Z * Z)) :
  flood_inv img0 newVal seed s -> flood_cond s = Ok true ->
  exists s', flood_body old newVal s = Ok s' /\ flood_inv img0 newVal seed s' /\
             (flood_measure old s' < flood_measure old s)%nat.
Proof.
  destruct s as [img wl]. intros (Hr & Hc & Hl & Hp & Hs) Hcond.
  simpl in Hr, Hc, Hl, Hp.
  assert (Hwf' : Mat_wf img).
  { destruct Hwf as (? & ? & ?). unfold Mat_wf. rewrite Hr, Hc, Hl. auto. }
  destruct wl as [|[r c] rest]; [discriminate|].
  unfold flood_body, flood_measure. cbn [fst snd].
  destruct (inside img r c) eqn:Hin.
  - destruct (at_inside img r c Hwf' Hin) as [v Hv]. rewrite Hv. simpl mbind.
    apply at_Ok in Hv as (_ & H0 & Hv).
    destruct (Vec3b_eqb v old) eqn:Ev.
    + eexists. split; [reflexivity|]. split.
      * unfold flood_inv. cbn [fst snd Mat_set rows cols data].
        rewrite length_insert. repeat split; try assumption.
        -- intros k w Hk. rewrite list_lookup_insert in Hk.
           destruct (decide _) as [[-> _]|_].
           ++ injection Hk as <-. auto.
           ++ auto.
        -- right. destruct Hs as [[= E1 E2 E3]|Hs].
           ++ rewrite <- E2, <- Hc. cbn [fst snd].
              rewrite list_lookup_insert_eq; [reflexivity|].
              apply lookup_lt_Some in Hv. exact Hv.
           ++ rewrite Hc. rewrite list_lookup_insert.
              destruct (decide _); [reflexivity | exact Hs].
      * cbn [fst snd Mat_set data].
        pose proof (count_colour_insert old newVal v Ev Hnew _ _ Hv) as Hcnt.
        simpl length. lia.
    + eexists. split; [reflexivity|]. split.
      * unfold flood_inv. cbn [fst snd]. repeat split; try assumption.
        right. destruct Hs as [[= E1 E2 E3]|Hs]; [|exact Hs].
        exfalso. pose proof Hseed_old as Ho. rewrite <- E2 in Ho.
        apply at_Ok in Ho as (_ & _ & Ho). cbn [fst snd] in Ho.
        rewrite <- E1 in Ho. rewrite Hv in Ho. injection Ho as ->.
        rewrite Vec3b_eqb_refl in Ev. discriminate.
      * cbn [fst snd]. simpl length. lia.
  - eexists. split; [reflexivity|]. split.
    + unfold flood_inv. cbn [fst snd]. repeat split; try assumption.
      right. destruct Hs as [[= E1 E2 E3]|Hs]; [|exact Hs].
      exfalso. pose proof Hseed_in as Hi. rewrite <- E2, <- E1 in Hi.
      cbn [fst snd] in Hi. congruence.
    + cbn [fst snd]. simpl length. lia.
Qed.

Lemma flood_loop_total :
  exists s, while_ (flood_fuel img0) flood_cond (flood_body old newVal)
              (img0, [seed]) = Ok s /\
            flood_inv img0 newVal seed s /\ s.2 = [].
Proof.
  destruct (while_total (flood_inv img0 newVal seed) (flood_measure old)
              flood_cond (flood_body old newVal)) with
    (fuel := flood_fuel img0) (s := (img0, [seed])) as (s & Hrun & Hinv & Hc).
  - intros s _. eexists. reflexivity.
  - apply flood_body_step.
  - unfold flood_inv. cbn [fst snd]. repeat split; auto.
  - unfold flood_measure, flood_fuel. cbn [fst snd].
    pose proof (count_colour_le old (data img0)). simpl length. lia.
  - exists s. split; [exact Hrun|]. split; [exact Hinv|].
    unfold flood_cond in Hc. destruct s.2; [reflexivity | discriminate].
Qed.

End Flood.

(** cv::floodFill returns, keeps the size of the image, paints the seed and
    changes a pixel only to the new colour. *)
Lemma floodFill_spec (img : Mat) (seedPoint : Point) (newVal : Vec3b) :
  Mat_wf img -> inside img (y seedPoint) (x seedPoint) = true ->
  exists img',
    floodFill img seedPoint newVal = Ok img' /\
    Mat_wf img' /\ rows img' = rows img /\ cols img' = cols img /\
    at_ img' (y seedPoint) (x seedPoint) = Ok newVal /\
    (forall r c v, at_ img' r c = Ok v -> v = newVal \/ at_ img r c = Ok v).
Proof.
  intros Hwf Hin. unfold floodFill. rewrite Hin.
  destruct (at_inside img _ _ Hwf Hin) as [old Hold]. rewrite Hold. simpl mbind.
  destruct (Vec3b_eqb old newVal) eqn:E.
  - apply Vec3b_eqb_eq in E as ->. exists img. repeat split; auto; apply Hwf.
  - assert (Hnew : Vec3b_eqb newVal old = false).
    { apply not_true_is_false. intros ->%Vec3b_eqb_eq.
      rewrite Vec3b_eqb_refl in E. discriminate. }
    destruct (flood_loop_total img old newVal (y seedPoint, x seedPoint)
                Hwf Hin Hold Hnew) as ([img' wl] & Hrun & Hinv & Hwl).
    rewrite Hrun. simpl mbind. cbn [fst].
    destruct Hinv as (Hr & Hc & Hl & Hp & Hs). cbn [fst snd] in *.
    assert (Hwf' : Mat_wf img').
    { destruct Hwf as (? & ? & ?). unfold Mat_wf. rewrite Hr, Hc, Hl. auto. }
    exists img'. repeat split; try assumption; try apply Hwf'.
    + destruct Hs as [Hs|Hs]; [subst wl; discriminate|].
      apply at_Ok. unfold inside in *. rewrite Hr, Hc.
      split; [exact Hin|]. split; [|exact Hs].
      apply (inside_index img _ _ Hwf Hin).
    + intros r c v (Hi & H0 & Hv)%at_Ok.
      destruct (Hp _ _ Hv) as [->|Hv0]; [left; reflexivity|].
      right. apply at_Ok. unfold inside in *. rewrite Hr, Hc in Hi.
      rewrite Hc in H0, Hv0. auto.
Qed.

(** ** The skeleton fitter *)

Lemma idx_set_Ok {A} (v v' : list A) (i : Z) (a : A) :
  idx_set v i a = Ok v' <->
  0 <= i < Z.of_nat (length v) /\ v' = <[Z.to_nat i := a]> v.
Proof.
  unfold idx_set.
  destruct (Z.leb_spec 0 i), (Z.ltb_spec i (Z.of_nat (length v))); simpl;
    split; try discriminate; try (intros [? _]; lia).
  - intros [= <-]. split; [lia | reflexivity].
  - intros [_ ->]. reflexivity.
Qed.

(** init gives every box the empty extent min = (1000,1000), max = (0,0). *)
Lemma init_ranges (self0 self : PeopleFinder) :
  init self0 = Ok self ->
  forall i, (i < 11)%nat ->
  min_range self !! i = Some (mkPoint 1000 1000) /\
  max_range self !! i = Some (mkPoint 0 0).
Proof.
  unfold init. intros H. apply bind_Ok in H as ([mn mx] & Hloop & [= <-]).
  cbn [min_range max_range set_ranges].
  pose (P := fun (i : Z) (s : list Point * list Point) =>
    forall j, (Z.of_nat j < i) ->
      s.1 !! j = Some (mkPoint 1000 1000) /\ s.2 !! j = Some (mkPoint 0 0)).
  assert (HP : P (0 + Z.of_nat 11) (mn, mx)).
  { eapply (for_inv P); [|  |exact Hloop].
    - intros i [a b] [a' b'] Hi Hb.
      apply bind_Ok in Hb as (a1 & Ha%idx_set_Ok & Hb).
      apply bind_Ok in Hb as (b1 & Hb'%idx_set_Ok & [= <- <-]).
      destruct Ha as [Hia ->], Hb' as [Hib ->].
      intros j Hj. cbn [fst snd]. rewrite !list_lookup_insert.
      destruct (decide (Z.to_nat i = j)) as [<-|Hne].
      + rewrite !decide_True by (split; [reflexivity | lia]). auto.
      + rewrite !decide_False by (intros [? _]; contradiction).
        apply (Hi j). lia.
    - intros j Hj. lia. }
  intros i Hi. apply (HP i). lia.
Qed.

Lemma init_contains_nothing (self0 self : PeopleFinder) (landmark : Point) :
  init self0 = Ok self -> x landmark < 1000 \/ y landmark < 1000 ->
  forall i, (i < 11)%nat -> contains self landmark i = false.
Proof.
  intros Hinit Hp i Hi. unfold contains.
  destruct (init_ranges _ _ Hinit i Hi) as [-> ->].
  apply not_true_is_false. rewrite is_within_bound_spec. simpl. lia.
Qed.

Lemma widen_min_first (f : Point) :
  x f <= 1000 -> y f <= 1000 -> widen_min f (mkPoint 1000 1000) = f.
Proof.
  intros Hx Hy. unfold widen_min. simpl.
  destruct (Z.leb_spec (x f) 1000); [|lia]. simpl.
  destruct (Z.leb_spec (y f) 1000); [|lia]. destruct f; reflexivity.
Qed.

Lemma widen_max_first (f : Point) :
  0 <= x f -> 0 <= y f -> widen_max f (mkPoint 0 0) = f.
Proof.
  intros Hx Hy. unfold widen_max. simpl.
  destruct (Z.leb_spec 0 (x f)); [|lia]. simpl.
  destruct (Z.leb_spec 0 (y f)); [|lia]. destruct f; reflexivity.
Qed.

(** Training on a single skeleton whose coordinates lie in 0..1000, after
    init: both corners of every box are the landmark of its index. *)
Lemma single_skeleton_point_boxes (self0 self1 self2 : PeopleFinder)
    (feature_nodes : list Point) :
  init self0 = Ok self1 ->
  train_compare_ranges self1 feature_nodes = Ok self2 ->
  Forall (fun f => 0 <= x f <= 1000 /\ 0 <= y f <= 1000) feature_nodes ->
  forall i, (i < 11)%nat ->
  min_range self2 !! i = feature_nodes !! i /\
  max_range self2 !! i = feature_nodes !! i.
Proof.
  intros Hinit Htrain Hnodes.
  pose proof (init_ranges _ _ Hinit) as Hfresh.
  unfold train_compare_ranges in Htrain.
  apply bind_Ok in Htrain as ([mn mx] & Hloop & [= <-]).
  cbn [min_range max_range set_ranges].
  pose (P := fun (i : Z) (s : list Point * list Point) =>
    (forall j, Z.of_nat j < i ->
       s.1 !! j = feature_nodes !! j /\ s.2 !! j = feature_nodes !! j) /\
    (forall j, i <= Z.of_nat j < 11 ->
       s.1 !! j = Some (mkPoint 1000 1000) /\ s.2 !! j = Some (mkPoint 0 0))).
  assert (HP : P (0 + Z.of_nat 11) (mn, mx)).
  { eapply (for_inv (fun i s => i <= 11 -> P i s)); [| |exact Hloop|lia].
    - intros i [a b] [a' b'] Hi Hb Hle.
      apply bind_Ok in Hb as (f & Hf & Hb).
      apply bind_Ok in Hb as (lo & Hlo & Hb).
      apply bind_Ok in Hb as (a1 & Ha%idx_set_Ok & Hb).
      apply bind_Ok in Hb as (hi & Hhi & Hb).
      apply bind_Ok in Hb as (b1 & Hb'%idx_set_Ok & [= <- <-]).
      destruct Ha as [Hia ->], Hb' as [Hib ->].
      apply idx_Ok in Hf as [Hi0 Hf], Hlo as [_ Hlo], Hhi as [_ Hhi].
      destruct (Hi ltac:(lia)) as [Hdone Hleft].
      destruct (Hleft (Z.to_nat i) ltac:(lia)) as [Elo Ehi].
      cbn [fst snd] in *.
      rewrite Hlo in Elo. injection Elo as ->.
      rewrite Hhi in Ehi. injection Ehi as ->.
      rewrite Forall_forall in Hnodes.
      destruct (Hnodes f ltac:(eapply list_elem_of_lookup_2; exact Hf))
        as [Hx Hy].
      rewrite widen_min_first, widen_max_first by lia.
      split; intros j Hj; cbn [fst snd]; rewrite !list_lookup_insert.
      + destruct (decide (Z.to_nat i = j)) as [<-|Hne].
        * rewrite !decide_True by (split; [reflexivity | lia]).
          rewrite Hf. auto.
        * rewrite !decide_False by (intros [? _]; contradiction).
          apply Hdone. lia.
      + rewrite !decide_False by (intros [? _]; lia). apply Hleft. lia.
    - intros _. split; intros j Hj; cbn [fst snd]; [lia|].
      apply Hfresh. lia. }
  intros i Hi. apply HP. lia.
Qed.

(** C6.  is_within_bound is closed at the lower bound and strict at the
    upper bound.  So a range model whose minimum and maximum agree at every
    index contains no landmark and judge_features answers "Noise" for every
    skeleton; such is the model init and one call of train_compare_ranges
    leave, for a training skeleton with coordinates from 0 to 1000. *)
Theorem C6_half_open_boxes :
  (forall node lower_x lower_y x_bound y_bound,
     is_within_bound node lower_x lower_y x_bound y_bound = true <->
     lower_x <= x node < x_bound /\ lower_y <= y node < y_bound) /\
  (forall self : PeopleFinder,
     (11 <= length (min_range self))%nat ->
     (11 <= length (max_range self))%nat ->
     (forall i, (i < 11)%nat -> min_range self !! i = max_range self !! i) ->
     forall nodes : list Point, (11 <= length nodes)%nat ->
       (forall i landmark, (i < 11)%nat -> contains self landmark i = false) /\
       feature_score self nodes = Ok 0 /\
       judge_features self nodes = Ok "Noise") /\
  (forall (self0 self1 self2 : PeopleFinder) (feature_nodes : list Point),
     init self0 = Ok self1 ->
     train_compare_ranges self1 feature_nodes = Ok self2 ->
     Forall (fun f => 0 <= x f <= 1000 /\ 0 <= y f <= 1000) feature_nodes ->
     forall nodes : list Point, (11 <= length nodes)%nat ->
       judge_features self2 nodes = Ok "Noise").
Proof.
  split; [apply is_within_bound_spec|]. split; [apply point_boxes_score_nothing|].
  intros self0 self1 self2 feature_nodes Hinit Htrain Hnodes nodes Hn.
  pose proof (single_skeleton_point_boxes _ _ _ _ Hinit Htrain Hnodes) as Heq.
  assert (Hlen : (11 <= length feature_nodes)%nat).
  { unfold train_compare_ranges in Htrain.
    apply bind_Ok in Htrain as ([mn mx] & Hloop & _).
    destruct (Nat.le_gt_cases 11 (length feature_nodes)) as [H|H]; [exact H|].
    exfalso.
    apply (for_inv (fun i (_ : list Point * list Point) =>
                      i <= Z.of_nat (length feature_nodes))) in Hloop; [lia| |lia].
    intros i [a b] s' _ Hb. apply bind_Ok in Hb as (f & Hf%idx_lt & _). lia. }
  assert (Hsome : forall i, (i < 11)%nat -> is_Some (feature_nodes !! i)).
  { intros i Hi. apply lookup_lt_is_Some_2. lia. }
  apply (point_boxes_score_nothing self2); [| | |exact Hn].
  - destruct (Heq 10%nat ltac:(lia)) as [H _].
    destruct (Hsome 10%nat ltac:(lia)) as [f Hf]. rewrite Hf in H.
    apply lookup_lt_Some in H. lia.
  - destruct (Heq 10%nat ltac:(lia)) as [_ H].
    destruct (Hsome 10%nat ltac:(lia)) as [f Hf]. rewrite Hf in H.
    apply lookup_lt_Some in H. lia.
  - intros i Hi. destruct (Heq i Hi) as [-> ->]. reflexivity.
Qed.

Lemma flood_from_seed_log (img img1 : Mat) (log : list call) :
  flood_from_seed img = Ok (img1, log) -> log = [] \/ log = [CallFloodFill].
Proof.
  unfold flood_from_seed. intros H. apply bind_Ok in H as (seed & _ & H).
  destruct (negb _).
  - apply bind_Ok in H as (i & _ & [= _ <-]). auto.
  - injection H as _ <-. auto.
Qed.

(** The seed statement returns on every image that has the pixel (64,32);
    the flood runs iff that pixel is not a contour pixel, and leaves it with
    the fill colour. *)
Lemma flood_from_seed_spec (img : Mat) :
  Mat_wf img -> inside img 64 32 = true ->
  exists seed img1 log,
    at_ img 64 32 = Ok seed /\
    flood_from_seed img = Ok (img1, log) /\
    Mat_wf img1 /\ rows img1 = rows img /\ cols img1 = cols img /\
    (seed = outline_colour -> img1 = img /\ log = []) /\
    (seed <> outline_colour ->
       floodFill img (mkPoint 32 64) fill_colour = Ok img1 /\
       log = [CallFloodFill] /\ at_ img1 64 32 = Ok fill_colour).
Proof.
  intros Hwf Hin. destruct (at_inside img 64 32 Hwf Hin) as [seed Hseed].
  unfold flood_from_seed. rewrite Hseed. simpl mbind.
  destruct (Vec3b_eqb seed outline_colour) eqn:E; simpl negb.
  - apply Vec3b_eqb_eq in E. exists seed, img, [].
    split; [reflexivity|]. split; [reflexivity|]. split; [exact Hwf|].
    split; [reflexivity|]. split; [reflexivity|]. split; [auto|].
    intros Hne. contradiction.
  - destruct (floodFill_spec img (mkPoint 32 64) fill_colour Hwf Hin)
      as (img1 & Hf & Hwf1 & Hr & Hc & Hs & _).
    rewrite Hf. simpl mbind. exists seed, img1, [CallFloodFill].
    split; [reflexivity|]. split; [reflexivity|]. split; [exact Hwf1|].
    split; [exact Hr|]. split; [exact Hc|]. split.
    + intros ->. rewrite Vec3b_eqb_refl in E. discriminate.
    + intros _. auto.
Qed.

Lemma silhouette_valid_spec (img : Mat) :
  Mat_wf img -> inside img 64 32 = true ->
  exists corner seed,
    at_ img 0 0 = Ok corner /\ at_ img 64 32 = Ok seed /\
    silhouette_valid img =
      Ok (negb (Vec3b_eqb corner fill_colour)
          && negb (Vec3b_eqb seed outline_colour)).
Proof.
  intros Hwf Hin.
  assert (Hin0 : inside img 0 0 = true).
  { unfold inside in *. rewrite !andb_true_iff, ?Z.leb_le, ?Z.ltb_lt in *. lia. }
  destruct (at_inside img 0 0 Hwf Hin0) as [corner Hc].
  destruct (at_inside img 64 32 Hwf Hin) as [seed Hs].
  exists corner, seed. split; [exact Hc|]. split; [exact Hs|].
  unfold silhouette_valid. rewrite Hc. simpl mbind.
  destruct (negb (Vec3b_eqb corner fill_colour)); [|reflexivity].
  rewrite Hs. reflexivity.
Qed.

Lemma find_waist_feature_flag (shape_pixels : list Point) (threshold : Z)
    (torso_feature : Point) (index_torso index_waist : Z) (flag flag' : bool)
    (waist : Point) (index_waist' : Z) :
  find_waist_feature shape_pixels threshold torso_feature index_torso
    index_waist flag = Ok (waist, index_waist', flag') ->
  flag' = flag \/ flag' = true.
Proof.
  unfold find_waist_feature. intros H.
  apply bind_Ok in H as (p0 & _ & H).
  apply bind_Ok in H as ([s b] & Htry & [= _ _ <-]).
  unfold try_catch in Htry.
  match type of Htry with
  | match ?m with _ => _ end = _ => destruct m as [[s1 b1]|f] eqn:Em
  end.
  - injection Htry as _ <-.
    apply bind_Ok in Em as (i & _ & Em).
    apply bind_Ok in Em as (p & _ & Em).
    apply bind_Ok in Em as (s2 & _ & [= _ <-]). auto.
  - destruct f; try discriminate. injection Htry as _ <-. auto.
Qed.

Section FitterFacts.

Context {double : Type} (sqrt : Z -> double).
Context (find_elbow_feature :
  list Point -> Point -> Point -> Point -> Z -> double -> Point -> Z ->
  res (Point * bool)).
Context (find_hand_feature :
  list Point -> list Point -> Point -> Point -> Z -> double -> Point ->
  Mat -> Z -> res (Point * bool)).
Context (draw_skeleton : Mat -> list Point -> res (Mat * bool)).

Local Abbreviation fitter :=
  (create_skeleton double sqrt find_elbow_feature find_hand_feature
     draw_skeleton).

(** The rejecting branch. *)
Lemma create_skeleton_invalid (self : PeopleFinder) (img img1 : Mat)
    (log : list call) :
  flood_from_seed img = Ok (img1, log) ->
  silhouette_valid img1 = Ok false ->
  fitter self img =
    Ok (mkFit (replicate 11 (mkPoint 0 0)) (set_flag self true) img1 log).
Proof.
  intros Hf Hv. unfold create_skeleton. rewrite Hf. simpl mbind.
  rewrite Hv. reflexivity.
Qed.

(** The accepting branch up to the torso guard. *)
Lemma create_skeleton_valid (self : PeopleFinder) (img img1 : Mat)
    (log : list call) (out : fit) :
  flood_from_seed img = Ok (img1, log) ->
  silhouette_valid img1 = Ok true ->
  fitter self img = Ok out ->
  exists shape_pixels outline_pixels n0 index_head n1 index_torso later,
    highlight_pixels img1 (replicate (Z.to_nat 8192) (mkPoint 0 0))
      (replicate (Z.to_nat 4096) (mkPoint 0 0))
    = Ok (shape_pixels, outline_pixels) /\
    find_head_feature shape_pixels 5 0 = Ok (n0, index_head) /\
    find_torso_feature shape_pixels 5 n0 index_head 0 = Ok (n1, index_torso) /\
    f_nodes out !! 0%nat = Some n0 /\ f_nodes out !! 1%nat = Some n1 /\
    f_calls out = log ++ [CallHighlightPixels; CallHead; CallTorso] ++ later /\
    min_range (f_self out) = min_range self /\
    max_range (f_self out) = max_range self /\
    (bad_skel_flag self = true -> bad_skel_flag (f_self out) = true) /\
    (is_within_bound n1 0 0 (rows img1) (cols img1) = false ->
       later = [] /\ bad_skel_flag (f_self out) = true).
Proof.
  intros Hf Hv. unfold create_skeleton. rewrite Hf. simpl mbind.
  rewrite Hv. simpl mbind. intros H.
  apply bind_Ok in H as ([sp op] & Hhp & H).
  apply bind_Ok in H as ([n0 ih] & Hhead & H).
  apply bind_Ok in H as ([n1 it] & Htorso & H).
  exists sp, op, n0, ih, n1, it.
  destruct (is_within_bound n1 0 0 (rows img1) (cols img1)) eqn:Eg.
  - apply bind_Ok in H as ([[n2 iw] flag] & Hw & H).
    destruct (calc_halfway_torso_dist double sqrt n1 n2) as [hn hd].
    apply bind_Ok in H as (n3 & _ & H).
    apply bind_Ok in H as (n4 & _ & H).
    apply bind_Ok in H as ([[[n5 n6] aw] ish] & _ & H).
    apply bind_Ok in H as ([n7 r7] & _ & H).
    apply bind_Ok in H as ([n8 r8] & _ & H).
    apply bind_Ok in H as ([n9 r9] & _ & H).
    apply bind_Ok in H as ([n10 r10] & _ & H).
    apply bind_Ok in H as ([img2 r] & _ & [= <-]).
    eexists. cbn [f_nodes f_calls f_self set_flag min_range max_range
                  bad_skel_flag].
    repeat (split; [first [eassumption | reflexivity]|]).
    split; [rewrite <- app_assoc; reflexivity|].
    split; [reflexivity|]. split; [reflexivity|]. split; [|discriminate].
    intros Hflag. apply find_waist_feature_flag in Hw as [->| ->];
      [rewrite Hflag|]; reflexivity.
  - injection H as <-. exists [].
    cbn [f_nodes f_calls f_self set_flag min_range max_range bad_skel_flag].
    repeat (split; [first [eassumption | reflexivity]|]). auto.
Qed.

Lemma create_skeleton_self (self : PeopleFinder) (img : Mat) (out : fit) :
  fitter self img = Ok out ->
  min_range (f_self out) = min_range self /\
  max_range (f_self out) = max_range self /\
  (bad_skel_flag self = true -> bad_skel_flag (f_self out) = true).
Proof.
  intros H. pose proof H as H'. unfold create_skeleton in H'.
  apply bind_Ok in H' as ([img1 log] & Hf & H').
  apply bind_Ok in H' as (valid & Hv & _). destruct valid.
  - destruct (create_skeleton_valid self img img1 log out Hf Hv H)
      as (? & ? & ? & ? & ? & ? & ? & _ & _ & _ & _ & _ & _ & Hmn & Hmx & Hfl & _).
    auto.
  - rewrite (create_skeleton_invalid self img img1 log Hf Hv) in H.
    injection H as <-. cbn. auto.
Qed.

(** C1 (amended).  When the validity check fails, create_skeleton runs no
    detector, raises the failure flag and returns the vector it started
    with, whose 11 landmarks are (0,0), the value [vector<Point>(11)] gives
    them, not (1000,1000).  judge_features scores that skeleton 0 and answers
    "Noise" for every range model none of whose boxes contains (0,0), and so
    for the model init leaves. *)
Theorem C1_invalid_silhouette_default_skeleton (self : PeopleFinder)
    (img img1 : Mat) (log : list call) :
  flood_from_seed img = Ok (img1, log) ->
  silhouette_valid img1 = Ok false ->
  exists out,
    fitter self img = Ok out /\
    existsb is_detector (f_calls out) = false /\
    bad_skel_flag (f_self out) = true /\
    f_nodes out = replicate 11 (mkPoint 0 0) /\
    (forall model,
       (11 <= length (min_range model))%nat ->
       (11 <= length (max_range model))%nat ->
       (forall i, (i < 11)%nat -> contains model (mkPoint 0 0) i = false) ->
       feature_score model (f_nodes out) = Ok 0 /\
       judge_features model (f_nodes out) = Ok "Noise") /\
    (forall model0 model, init model0 = Ok model ->
       feature_score model (f_nodes out) = Ok 0 /\
       judge_features model (f_nodes out) = Ok "Noise").
Proof.
  intros Hf Hv. eexists. split; [apply (create_skeleton_invalid _ _ _ _ Hf Hv)|].
  cbn [f_calls f_self f_nodes set_flag bad_skel_flag].
  split; [destruct (flood_from_seed_log _ _ _ Hf) as [-> | ->]; reflexivity|].
  split; [reflexivity|]. split; [reflexivity|].
  assert (Hnoise : forall model,
    (11 <= length (min_range model))%nat ->
    (11 <= length (max_range model))%nat ->
    (forall i, (i < 11)%nat -> contains model (mkPoint 0 0) i = false) ->
    feature_score model (replicate 11 (mkPoint 0 0)) = Ok 0 /\
    judge_features model (replicate 11 (mkPoint 0 0)) = Ok "Noise").
  { intros model Hlo Hhi Hnone.
    assert (Hs : feature_score model (replicate 11 (mkPoint 0 0)) = Ok 0).
    { rewrite feature_score_count; [|rewrite length_replicate; lia|lia|lia].
      unfold contained_count. rewrite filter_all_false; [reflexivity|].
      intros i Hi%in_seq. unfold landmark_contained.
      rewrite lookup_replicate_2 by lia. apply Hnone. lia. }
    split; [exact Hs|]. unfold judge_features. rewrite Hs. reflexivity. }
  split; [exact Hnoise|].
  intros model0 model Hinit. apply Hnoise.
  - destruct (init_ranges _ _ Hinit 10%nat ltac:(lia)) as [H%lookup_lt_Some _].
    lia.
  - destruct (init_ranges _ _ Hinit 10%nat ltac:(lia)) as [_ H%lookup_lt_Some].
    lia.
  - apply (init_contains_nothing _ _ _ Hinit). simpl. lia.
Qed.

(** C2 (amended).  On every image that has a pixel (64,32), the seed
    statement runs the flood fill exactly when that pixel is not a contour
    pixel.  The fitter rejects the silhouette exactly when, after that
    statement, the pixel (0,0) has the fill colour or the seed pixel does not
    (it is then still the contour pixel it was).  A rejection returns with the
    flag raised and the untouched vector; a run that is not rejected calls
    the head and torso detectors. *)
Theorem C2_flood_and_rejection (self : PeopleFinder) (img : Mat) :
  Mat_wf img -> 64 < rows img -> 32 < cols img ->
  exists seed img1 log corner seed1,
    at_ img 64 32 = Ok seed /\
    flood_from_seed img = Ok (img1, log) /\
    (In CallFloodFill log <-> seed <> outline_colour) /\
    at_ img1 0 0 = Ok corner /\
    at_ img1 64 32 = Ok seed1 /\
    (seed1 <> fill_colour <-> seed1 = outline_colour) /\
    (silhouette_valid img1 = Ok false <->
       corner = fill_colour \/ seed1 <> fill_colour) /\
    (silhouette_valid img1 = Ok true <->
       ~ (corner = fill_colour \/ seed1 <> fill_colour)) /\
    (silhouette_valid img1 = Ok false ->
       fitter self img =
         Ok (mkFit (replicate 11 (mkPoint 0 0)) (set_flag self true) img1 log)) /\
    (forall out, fitter self img = Ok out ->
       (existsb is_detector (f_calls out) = false <->
          silhouette_valid img1 = Ok false) /\
       (silhouette_valid img1 = Ok false ->
          bad_skel_flag (f_self out) = true /\
          f_nodes out = replicate 11 (mkPoint 0 0))).
Proof.
  intros Hwf Hr Hc.
  assert (Hin : inside img 64 32 = true).
  { unfold inside. rewrite !andb_true_iff, !Z.leb_le, !Z.ltb_lt. lia. }
  destruct (flood_from_seed_spec img Hwf Hin)
    as (seed & img1 & log & Hseed & Hf & Hwf1 & Hr1 & Hc1 & Hout & Hnot).
  assert (Hin1 : inside img1 64 32 = true).
  { unfold inside in *. rewrite Hr1, Hc1. exact Hin. }
  destruct (silhouette_valid_spec img1 Hwf1 Hin1)
    as (corner & seed1 & Hcorner & Hseed1 & Hvalid).
  exists seed, img1, log, corner, seed1.
  assert (Hseed1_cases :
    (seed = outline_colour /\ seed1 = outline_colour) \/
    (seed <> outline_colour /\ seed1 = fill_colour)).
  { destruct (Vec3b_eqb seed outline_colour) eqn:E.
    - apply Vec3b_eqb_eq in E. left. split; [exact E|].
      destruct (Hout E) as [-> _]. congruence.
    - right. assert (Hne : seed <> outline_colour).
      { intros ->. rewrite Vec3b_eqb_refl in E. discriminate. }
      split; [exact Hne|]. destruct (Hnot Hne) as (_ & _ & H). congruence. }
  assert (Hlog : In CallFloodFill log <-> seed <> outline_colour).
  { split.
    - intros Hi Heq. destruct (Hout Heq) as [_ ->]. destruct Hi.
    - intros Hne. destruct (Hnot Hne) as (_ & -> & _). left. reflexivity. }
  assert (Hfill : seed1 <> fill_colour <-> seed1 = outline_colour).
  { destruct Hseed1_cases as [[_ ->]|[_ ->]]; split; intros H;
      try discriminate; try reflexivity; try contradiction. }
  assert (Hrej : silhouette_valid img1 = Ok false <->
                 corner = fill_colour \/ seed1 <> fill_colour).
  { rewrite Hvalid, Hfill. split.
    - intros [= H]. apply andb_false_iff in H as [H|H];
        apply negb_false_iff, Vec3b_eqb_eq in H; auto.
    - intros [-> | ->]; rewrite Vec3b_eqb_refl; simpl;
        [reflexivity | rewrite andb_false_r; reflexivity]. }
  assert (Hacc : silhouette_valid img1 = Ok true <->
                 ~ (corner = fill_colour \/ seed1 <> fill_colour)).
  { rewrite <- Hrej, Hvalid.
    destruct (negb (Vec3b_eqb corner fill_colour)
              && negb (Vec3b_eqb seed1 outline_colour));
      split; intros H; try reflexivity; try discriminate; try congruence. }
  repeat (split; [assumption|]).
  split; [apply create_skeleton_invalid; exact Hf|].
  intros out Hfit.
  destruct (silhouette_valid img1) as [[|]|f] eqn:Ev; [| |discriminate].
  - destruct (create_skeleton_valid self img img1 log out Hf Ev Hfit)
      as (sp & op & n0 & ih & n1 & it & later & _ & _ & _ & _ & _ & Hcalls & _).
    split; [|discriminate]. split; [|discriminate].
    rewrite Hcalls, existsb_app. simpl. rewrite orb_true_r. discriminate.
  - rewrite (create_skeleton_invalid self img img1 log Hf Ev) in Hfit.
    injection Hfit as <-. cbn [f_calls f_self f_nodes set_flag bad_skel_flag].
    split; [|auto]. split; [reflexivity|]. intros _.
    destruct (flood_from_seed_log _ _ _ Hf) as [-> | ->]; reflexivity.
Qed.

(** C9.  If the torso landmark fails is_within_bound against
    [0, rows) x [0, cols), create_skeleton raises the failure flag and calls
    no detector after the torso detector: the head and torso entries are the
    only entries of the skeleton written, and landmarks 2 to 10 keep the
    value (0,0) the vector started with. *)
Theorem C9_torso_guard_stops_fitter (self : PeopleFinder) (img img1 : Mat)
    (log : list call) (shape_pixels outline_pixels : list Point)
    (n0 n1 : Point) (index_head index_torso : Z) :
  flood_from_seed img = Ok (img1, log) ->
  silhouette_valid img1 = Ok true ->
  highlight_pixels img1 (replicate (Z.to_nat 8192) (mkPoint 0 0))
    (replicate (Z.to_nat 4096) (mkPoint 0 0))
  = Ok (shape_pixels, outline_pixels) ->
  find_head_feature shape_pixels 5 0 = Ok (n0, index_head) ->
  find_torso_feature shape_pixels 5 n0 index_head 0 = Ok (n1, index_torso) ->
  is_within_bound n1 0 0 (rows img1) (cols img1) = false ->
  exists out,
    fitter self img = Ok out /\
    bad_skel_flag (f_self out) = true /\
    List.filter is_detector (f_calls out) = [CallHead; CallTorso] /\
    f_nodes out = [n0; n1] ++ replicate 9 (mkPoint 0 0) /\
    length (f_nodes out) = 11%nat /\
    f_nodes out !! 0%nat = Some n0 /\
    f_nodes out !! 1%nat = Some n1 /\
    (forall i, (2 <= i < 11)%nat -> f_nodes out !! i = Some (mkPoint 0 0)).
Proof.
  intros Hf Hv Hhp Hhead Htorso Hguard.
  eexists. split.
  - unfold create_skeleton.
    apply bind_Ok. exists (img1, log). split; [exact Hf|]. cbv beta iota.
    apply bind_Ok. exists true. split; [exact Hv|]. cbv beta iota.
    apply bind_Ok. eexists. split; [exact Hhp|]. cbv beta iota.
    apply bind_Ok. eexists. split; [exact Hhead|]. cbv beta iota.
    apply bind_Ok. eexists. split; [exact Htorso|]. cbv beta iota zeta.
    rewrite Hguard. reflexivity.
  - cbn [f_calls f_self f_nodes set_flag bad_skel_flag].
    split; [reflexivity|]. split.
    { destruct (flood_from_seed_log _ _ _ Hf) as [-> | ->]; reflexivity. }
    split; [reflexivity|].
    split; [reflexivity|]. split; [reflexivity|]. split; [reflexivity|].
    intros i Hi.
    do 2 (destruct i as [|i]; [lia|]).
    do 9 (destruct i as [|i]; [reflexivity|]). lia.
Qed.

Section Training.

Context {BlobDetector : Type}.
Context (highlight_contours :
  BlobDetector -> Mat -> Mat -> BlobDetector * Mat * Mat).

Local Abbreviation trainer_cond := (@train_cond BlobDetector).
Local Abbreviation trainer_body :=
  (train_body double sqrt find_elbow_feature find_hand_feature draw_skeleton
     BlobDetector highlight_contours).
Local Abbreviation trainer :=
  (train double sqrt find_elbow_feature find_hand_feature draw_skeleton
     BlobDetector highlight_contours).

(** One iteration of the training loop entered with the flag raised: the
    fitted skeleton is dropped whatever the fit did. *)
Lemma train_body_flag_raised (s s' : train_state BlobDetector) :
  bad_skel_flag (tr_self s) = true ->
  trainer_body s = Ok s' ->
  min_range (tr_self s') = min_range (tr_self s) /\
  max_range (tr_self s') = max_range (tr_self s) /\
  bad_skel_flag (tr_self s') = false /\
  tr_i s' = tr_i s + 1.
Proof.
  intros Hflag H. unfold train_body in H.
  apply bind_Ok in H as (img & _ & H).
  destruct (highlight_contours _ _ _) as [[bd img'] c].
  apply bind_Ok in H as (images & _ & H).
  apply bind_Ok in H as (out & Hfit & H).
  destruct (create_skeleton_self _ _ _ Hfit) as (Hmn & Hmx & Hfl).
  rewrite (Hfl Hflag) in H. simpl in H. injection H as <-.
  cbn [tr_self tr_i set_flag min_range max_range bad_skel_flag]. auto.
Qed.

(** C10.  A PeopleFinder constructed with bad_skel_flag true and trained on a
    vector whose first image has rows: the first iteration of the loop of
    train leaves min_range and max_range as init set them, whatever
    create_skeleton returned for that image, and only then clears the flag;
    train goes on from there with the second image. *)
Theorem C10_first_training_image_discarded (mn mx : list Point) (path : string)
    (images : list Mat) (contoursonly : Mat) (bd : BlobDetector)
    (self1 : PeopleFinder) (s1 : train_state BlobDetector) :
  init (new_PeopleFinder mn mx path true) = Ok self1 ->
  trainer_cond (mkTrain 0 self1 images contoursonly bd) = Ok true ->
  trainer_body (mkTrain 0 self1 images contoursonly bd) = Ok s1 ->
  bad_skel_flag self1 = true /\
  (forall i, (i < 11)%nat ->
     min_range (tr_self s1) !! i = Some (mkPoint 1000 1000) /\
     max_range (tr_self s1) !! i = Some (mkPoint 0 0)) /\
  min_range (tr_self s1) = min_range self1 /\
  max_range (tr_self s1) = max_range self1 /\
  bad_skel_flag (tr_self s1) = false /\
  tr_i s1 = 1 /\
  trainer (new_PeopleFinder mn mx path true) images contoursonly bd =
    (s ← while_ (length images) trainer_cond trainer_body s1; Ok (tr_self s)).
Proof.
  intros Hinit Hcond Hbody.
  assert (Hflag : bad_skel_flag self1 = true).
  { unfold init in Hinit. apply bind_Ok in Hinit as ([a b] & _ & [= <-]).
    reflexivity. }
  destruct (train_body_flag_raised (mkTrain 0 self1 images contoursonly bd) s1
              Hflag Hbody) as (Hmn & Hmx & Hfl & Hi).
  cbn [tr_self tr_i] in Hmn, Hmx, Hi.
  split; [exact Hflag|]. split.
  { intros i Hlt. rewrite Hmn, Hmx. apply (init_ranges _ _ Hinit i Hlt). }
  repeat (split; [assumption|]).
  unfold train. rewrite (bind_Ok_l _ _ _ Hinit). unfold vec_fuel.
  rewrite while_step, (bind_Ok_l _ _ _ Hcond), (bind_Ok_l _ _ _ Hbody).
  reflexivity.
Qed.

End Training.

End FitterFacts.

(** ** The torso detector *)

Lemma drop_cons_inv {A} (l : list A) (n : nat) (a : A) (t : list A) :
  drop n l = a :: t -> l !! n = Some a /\ drop (S n) l = t.
Proof.
  revert n. induction l as [|b l IH]; intros n H.
  - rewrite drop_nil in H. discriminate.
  - destruct n as [|n]; simpl in *.
    + injection H as -> ->. rewrite drop_0. auto.
    + apply IH. exact H.
Qed.

Lemma idx_drop {A} (l : list A) (n : nat) (a : A) (t : list A) :
  drop n l = a :: t -> idx l (Z.of_nat n) = Ok a.
Proof. intros [H _]%drop_cons_inv. apply idx_of_nat. exact H. Qed.

Lemma while_true_step {St} (fuel : nat) (cond : St -> res bool)
    (body : St -> res St) (s s' : St) :
  cond s = Ok true -> body s = Ok s' ->
  while_ (S fuel) cond body s = while_ fuel cond body s'.
Proof.
  intros Hc Hb. rewrite while_step, (bind_Ok_l _ _ _ Hc), (bind_Ok_l _ _ _ Hb).
  reflexivity.
Qed.

Lemma while_false_step {St} (fuel : nat) (cond : St -> res bool)
    (body : St -> res St) (s : St) :
  cond s = Ok false -> while_ (S fuel) cond body s = Ok s.
Proof. intros Hc. rewrite while_step, (bind_Ok_l _ _ _ Hc). reflexivity. Qed.


Section TorsoScan.

Variable shape_pixels : list Point.
Variable lower_bound_x : Z.

(** The skipping loop walks over [k] pixels above the bound. *)
Lemma skip_loop_run (bound : Z) (k : list Point) :
  forall (n fuel : nat) (tail : list Point),
  drop n shape_pixels = k ++ tail ->
  Forall (fun p => x p < bound /\ is_origin p = false) k ->
  while_ (length k + fuel) (skip_cond shape_pixels bound) skip_body (Z.of_nat n)
  = while_ fuel (skip_cond shape_pixels bound) skip_body
      (Z.of_nat (n + length k)).
Proof.
  induction k as [|p k IH]; intros n fuel tail Hd Hk.
  - simpl. rewrite Nat.add_0_r. reflexivity.
  - simpl app in Hd. destruct (drop_cons_inv _ _ _ _ Hd) as [Hp Hd'].
    apply Forall_cons in Hk as [[Hx Ho] Hk].
    simpl length. rewrite Nat.add_succ_l.
    rewrite (while_true_step _ _ _ _ (Z.of_nat (S n))).
    + rewrite (IH (S n) fuel tail Hd' Hk). f_equal. f_equal. lia.
    + unfold skip_cond. rewrite (idx_of_nat _ _ _ Hp). simpl mbind.
      rewrite Ho. destruct (Z.ltb_spec (x p) bound); [reflexivity | lia].
    + unfold skip_body. f_equal. lia.
Qed.




End TorsoScan.









(** ** Seed indices and the failure flag in the detectors *)

Lemma is_origin_origin : is_origin origin = true.
Proof. reflexivity. Qed.

Lemma while_exits_at_once {St A} (v : list A) (cond : St -> res bool)
    (body : St -> res St) (s : St) :
  cond s = Ok false -> while_ (vec_fuel v) cond body s = Ok s.
Proof. apply while_false_step. Qed.

Lemma skip_loop_index (shape_pixels : list Point) (bound seed : Z) (fuel : nat)
    (i : Z) :
  while_ fuel (skip_cond shape_pixels bound) skip_body seed = Ok i -> seed <= i.
Proof.
  intros H.
  apply (while_inv (fun i => seed <= i)) in H as [H _]; [exact H| |lia].
  intros s s' Hs _ [= <-]. lia.
Qed.

Lemma waist_skip_loop_index (shape_pixels : list Point) (bound seed : Z)
    (fuel : nat) (i : Z) :
  while_ fuel (waist_skip_cond shape_pixels bound)
    (waist_skip_body shape_pixels bound) seed = Ok i -> seed <= i.
Proof.
  intros H.
  apply (while_inv (fun i => seed <= i)) in H as [H _]; [exact H| |lia].
  intros s s' Hs _ Hb. unfold waist_skip_body in Hb.
  apply bind_Ok in Hb as (p & _ & Hb).
  destruct (8 <=? bound - x p); injection Hb as <-; lia.
Qed.

Lemma shoulder_skip_loop_index (shape_pixels : list Point) (bound seed : Z)
    (fuel : nat) (i : Z) :
  while_ fuel (shoulder_skip_cond shape_pixels bound) skip_body seed = Ok i ->
  seed <= i.
Proof.
  intros H.
  apply (while_inv (fun i => seed <= i)) in H as [H _]; [exact H| |lia].
  intros s s' Hs _ [= <-]. lia.
Qed.

(** The scans write [i - 1] into the output index after [i++]. *)
Lemma torso_loop_index (shape_pixels : list Point) (lower_bound_x seed out0 : Z)
    (fuel : nat) (s0 s : torso_state) :
  while_ fuel (torso_cond shape_pixels lower_bound_x)
    (torso_body shape_pixels) s0 = Ok s ->
  seed <= t_i s0 -> t_index_torso s0 = out0 ->
  t_index_torso s = out0 \/ seed <= t_index_torso s.
Proof.
  intros H Hi Ho.
  apply (while_inv (fun s => seed <= t_i s /\
                             (t_index_torso s = out0 \/ seed <= t_index_torso s)))
    in H as [[_ H] _]; [exact H| |auto].
  intros a b [Ha Hix] _ Hb. unfold torso_body in Hb.
  apply bind_Ok in Hb as (p & _ & Hb).
  destruct (x p =? x (t_current_row a)).
  - injection Hb as <-. simpl. split; [lia | exact Hix].
  - destruct (t_current_dist a <? t_shortest_dist a).
    + apply bind_Ok in Hb as (q & _ & [= <-]). simpl. split; [lia | right; lia].
    + injection Hb as <-. simpl. split; [lia | exact Hix].
Qed.

Lemma run_loop_index (shape_pixels : list Point) (lower_bound_x seed out0 : Z)
    (fuel : nat) (s0 s : run_state) :
  while_ fuel (run_cond shape_pixels lower_bound_x) (run_body shape_pixels) s0
  = Ok s ->
  seed <= r_i s0 -> r_index s0 = out0 ->
  r_index s = out0 \/ seed <= r_index s.
Proof.
  intros H Hi Ho.
  apply (while_inv (fun s => seed <= r_i s /\
                             (r_index s = out0 \/ seed <= r_index s)))
    in H as [[_ H] _]; [exact H| |auto].
  intros a b [Ha Hix] _ Hb. unfold run_body in Hb.
  apply bind_Ok in Hb as (p & _ & Hb).
  destruct (Point_eqb p _).
  - injection Hb as <-. simpl. split; [lia | exact Hix].
  - destruct (r_largest_dist a <? r_current_dist a).
    + apply bind_Ok in Hb as (q & _ & [= <-]). simpl. split; [lia | right; lia].
    + injection Hb as <-. simpl. split; [lia | exact Hix].
Qed.

(** The [try] block of find_waist_feature, as a computation of its own. *)
Lemma waist_try_no_exception (shape_pixels : list Point) (bound : Z)
    (lower_bound_x index_torso index_waist : Z) (flag : bool) :
  (i ← while_ (vec_fuel shape_pixels) (waist_skip_cond shape_pixels bound)
         (waist_skip_body shape_pixels bound) index_torso;
   p ← idx shape_pixels i;
   s ← while_ (vec_fuel shape_pixels) (run_cond shape_pixels lower_bound_x)
         (run_body shape_pixels) (mkRun i p 0 0 p index_waist);
   Ok (s, flag)) <> Fail CvException.
Proof.
  assert (Hidx : forall (i : Z), idx shape_pixels i <> Fail CvException).
  { intros i E. apply idx_fault in E. discriminate. }
  pose proof (fun A B => @bind_avoids A B CvException) as Hbind.
  apply Hbind.
  - apply while_no_exception.
    + intros i. unfold waist_skip_cond. apply Hbind; [apply Hidx | discriminate].
    + intros i. unfold waist_skip_body. apply Hbind; [apply Hidx|].
      intros p. destruct (8 <=? bound - x p); discriminate.
  - intros i. apply Hbind; [apply Hidx|]. intros p. apply Hbind; [|discriminate].
    apply while_no_exception.
    + intros s. unfold run_cond. apply Hbind; [apply Hidx | discriminate].
    + intros s. unfold run_body. apply Hbind; [apply Hidx|]. intros q.
      destruct (Point_eqb q _); [discriminate|].
      destruct (_ <? _); [|discriminate].
      apply Hbind; [apply Hidx | discriminate].
Qed.

(** find_waist_feature never takes its [catch] block: the flag it returns is
    the flag it received. *)
Lemma find_waist_feature_keeps_flag (shape_pixels : list Point) (threshold : Z)
    (torso_feature : Point) (index_torso index_waist : Z) (flag flag' : bool)
    (waist : Point) (index_waist' : Z) :
  find_waist_feature shape_pixels threshold torso_feature index_torso
    index_waist flag = Ok (waist, index_waist', flag') ->
  flag' = flag.
Proof.
  unfold find_waist_feature. intros H.
  apply bind_Ok in H as (p0 & _ & H).
  apply bind_Ok in H as ([s b] & Htry & [= _ _ <-]).
  unfold try_catch in Htry.
  match type of Htry with
  | match ?m with _ => _ end = _ =>
      pose proof (waist_try_no_exception shape_pixels
        ((if 64 <? x torso_feature then x torso_feature + 1 else 64) + threshold)
        80 index_torso index_waist flag) as Hne;
      destruct m as [[s1 b1]|f] eqn:Em
  end.
  - injection Htry as _ <-.
    apply bind_Ok in Em as (i & _ & Em).
    apply bind_Ok in Em as (p & _ & Em).
    apply bind_Ok in Em as (s2 & _ & [= _ <-]). reflexivity.
  - destruct f; try discriminate. contradiction.
Qed.

(** C4 (amended).  The head, waist and foot detectors do not raise the
    failure flag and do not answer an exhausted list with the sentinel
    throughout: head and foot do not touch the flag, and the flag
    find_waist_feature returns is the one it received.  On an empty pixel
    list the head detector returns (1000 + threshold, 1000); on a seed index
    at the (0,0) sentinel the foot detector returns (1000,1000) and the waist
    detector returns (-threshold, 0); the indices come back as they were
    given. *)
Theorem C4_detectors_on_exhausted_list (shape_pixels : list Point)
    (threshold : Z) :
  (idx shape_pixels 0 = Ok origin ->
   forall index_head,
     find_head_feature shape_pixels threshold index_head
     = Ok (mkPoint (1000 + threshold) 1000, index_head)) /\
  (forall waist_feature corner index_waist,
     idx shape_pixels index_waist = Ok origin ->
     find_foot_feature shape_pixels threshold waist_feature corner index_waist
     = Ok (mkPoint 1000 1000)) /\
  (forall torso_feature index_torso index_waist flag p0,
     idx shape_pixels 0 = Ok p0 ->
     idx shape_pixels index_torso = Ok origin ->
     find_waist_feature shape_pixels threshold torso_feature index_torso
       index_waist flag
     = Ok (mkPoint (- threshold) 0, index_waist, flag)) /\
  (forall torso_feature index_torso index_waist flag waist index_waist' flag',
     find_waist_feature shape_pixels threshold torso_feature index_torso
       index_waist flag = Ok (waist, index_waist', flag') ->
     flag' = flag).
Proof.
  split; [|split; [|split]].
  - intros H0 index_head. unfold find_head_feature.
    rewrite while_exits_at_once; [reflexivity|].
    unfold head_cond. rewrite H0. reflexivity.
  - intros waist_feature corner index_waist Hs. unfold find_foot_feature.
    rewrite (bind_Ok_l _ _ index_waist).
    + rewrite while_exits_at_once; [reflexivity|].
      unfold foot_cond. rewrite Hs. reflexivity.
    + apply while_exits_at_once. unfold skip_cond. rewrite Hs. simpl.
      rewrite andb_false_r. reflexivity.
  - intros torso_feature index_torso index_waist flag p0 H0 Hs.
    unfold find_waist_feature. rewrite (bind_Ok_l _ _ _ H0).
    rewrite (bind_Ok_l _ _ index_torso).
    + rewrite (bind_Ok_l _ _ _ Hs). rewrite while_exits_at_once.
      * simpl. rewrite Z.sub_0_l. reflexivity.
      * unfold run_cond. cbn [r_i]. rewrite Hs. reflexivity.
    + apply while_exits_at_once. unfold waist_skip_cond. rewrite Hs. simpl.
      rewrite andb_false_r. reflexivity.
  - intros. eapply find_waist_feature_keeps_flag. eassumption.
Qed.

Lemma Point_eta (p : Point) : mkPoint (x p) (y p) = p.
Proof. destruct p. reflexivity. Qed.

Lemma Point_eqb_eq (p q : Point) : Point_eqb p q = true <-> p = q.
Proof.
  destruct p as [px py], q as [qx qy]. unfold Point_eqb. simpl.
  rewrite andb_true_iff, !Z.eqb_eq. split; [intros [-> ->]; reflexivity|].
  intros [= -> ->]. auto.
Qed.

Lemma is_run_start (shape_pixels : list Point) (i : Z) (p : Point) :
  idx shape_pixels i = Ok p -> is_run shape_pixels i 0 p.
Proof.
  intros H k Hk. replace k with 0 by lia. rewrite !Z.sub_0_r, Point_eta.
  exact H.
Qed.

Lemma run_body_keeps_inv (shape_pixels : list Point) (i0 : Z) (b0 : Point)
    (index0 : Z) (s s' : run_state) :
  run_inv shape_pixels i0 b0 index0 s -> run_body shape_pixels s = Ok s' ->
  run_inv shape_pixels i0 b0 index0 s'.
Proof.
  intros (Hcd & Hld & Hi0 & Hrun & Hbest) H. unfold run_body in H.
  cbv zeta in H. apply bind_Ok in H as (p & Hp & H).
  destruct (Point_eqb p _) eqn:Ep.
  - injection H as <-. apply Point_eqb_eq in Ep. subst p.
    unfold run_inv. cbn [r_i r_current_row r_current_dist r_largest_dist
                         r_best_fit_node r_index].
    split; [lia|]. split; [lia|]. split; [lia|]. split; [|exact Hbest].
    intros k Hk. cbn [x y].
    destruct (Z.eq_dec k 0) as [->|Hk0].
    + rewrite !Z.sub_0_r. exact Hp.
    + replace (r_i s + 1 - k) with (r_i s - (k - 1)) by lia.
      rewrite (Hrun (k - 1)) by lia. f_equal. f_equal. lia.
  - destruct (Z.ltb_spec (r_largest_dist s) (r_current_dist s)) as [Hlt|Hge].
    + apply bind_Ok in H as (q & Hq & [= <-]).
      unfold run_inv. cbn [r_i r_current_row r_current_dist r_largest_dist
                           r_best_fit_node r_index].
      split; [lia|]. split; [lia|]. split; [lia|].
      split; [apply is_run_start; exact Hp|].
      right. split; [lia|].
      replace (r_i s + 1 - 1) with (r_i s) in * by lia.
      split; [lia|].
      assert (Eq : q = mkPoint (x (r_current_row s)) (y (r_current_row s))).
      { specialize (Hrun 0 ltac:(lia)). rewrite !Z.sub_0_r in Hrun. congruence. }
      rewrite Eq. exact Hrun.
    + injection H as <-.
      unfold run_inv. cbn [r_i r_current_row r_current_dist r_largest_dist
                           r_best_fit_node r_index].
      split; [lia|]. split; [lia|]. split; [lia|].
      split; [apply is_run_start; exact Hp|]. exact Hbest.
Qed.

Lemma run_loop_inv (shape_pixels : list Point) (lower_bound_x i : Z)
    (p : Point) (index0 : Z) (fuel : nat) (s : run_state) :
  idx shape_pixels i = Ok p ->
  while_ fuel (run_cond shape_pixels lower_bound_x) (run_body shape_pixels)
    (mkRun i p 0 0 p index0) = Ok s ->
  run_inv shape_pixels i p index0 s.
Proof.
  intros Hp H.
  apply (while_inv (run_inv shape_pixels i p index0)) in H as [H _];
    [exact H| |].
  - intros a b Ha _ Hb. exact (run_body_keeps_inv _ _ _ _ _ _ Ha Hb).
  - unfold run_inv. cbn [r_i r_current_row r_current_dist r_largest_dist
                         r_best_fit_node r_index].
    split; [lia|]. split; [lia|]. split; [lia|].
    split; [apply is_run_start; exact Hp|]. left. auto.
Qed.

Lemma is_row_start (shape_pixels : list Point) (i : Z) (p : Point) :
  idx shape_pixels i = Ok p -> is_row shape_pixels i 0 (x p).
Proof.
  intros H k Hk. replace k with 0 by lia. rewrite Z.sub_0_r.
  exists (y p). rewrite Point_eta. exact H.
Qed.

Lemma torso_body_keeps_inv (shape_pixels : list Point) (i0 : Z) (p0 : Point)
    (index0 : Z) (s s' : torso_state) :
  torso_inv shape_pixels i0 p0 index0 s -> torso_body shape_pixels s = Ok s' ->
  torso_inv shape_pixels i0 p0 index0 s'.
Proof.
  intros (Hcd & Hi0 & Hrow & Hsh & Hbest) H. unfold torso_body in H.
  cbv zeta in H. apply bind_Ok in H as (p & Hp & H).
  destruct (Z.eqb_spec (x p) (x (t_current_row s))) as [Ex|Ex].
  - injection H as <-. unfold torso_inv.
    cbn [t_i t_current_row t_current_dist t_shortest_dist t_best_fit_node
         t_index_torso].
    split; [lia|]. split; [lia|]. split; [|split; [exact Hsh | exact Hbest]].
    intros k Hk. destruct (Z.eq_dec k 0) as [->|Hk0].
    + rewrite Z.sub_0_r. exists (y p). rewrite <- Ex, Point_eta. exact Hp.
    + replace (t_i s + 1 - k) with (t_i s - (k - 1)) by lia.
      apply Hrow. lia.
  - destruct (Z.ltb_spec (t_current_dist s) (t_shortest_dist s)) as [Hlt|Hge].
    + apply bind_Ok in H as (q & Hq & [= <-]). unfold torso_inv.
      cbn [t_i t_current_row t_current_dist t_shortest_dist t_best_fit_node
           t_index_torso].
      replace (t_i s + 1 - 1) with (t_i s) in * by lia.
      split; [lia|]. split; [lia|].
      split; [apply is_row_start; exact Hp|]. split; [lia|].
      right. split; [lia|]. split; [lia|]. split; [exact Hq|].
      destruct (Hrow 0 ltac:(lia)) as [c Hc]. rewrite Z.sub_0_r in Hc.
      rewrite Hq in Hc. injection Hc as ->. exact Hrow.
    + injection H as <-. unfold torso_inv.
      cbn [t_i t_current_row t_current_dist t_shortest_dist t_best_fit_node
           t_index_torso].
      split; [lia|]. split; [lia|].
      split; [apply is_row_start; exact Hp|]. split; [exact Hsh | exact Hbest].
Qed.

Lemma torso_loop_inv (shape_pixels : list Point) (lower_bound_x i : Z)
    (p : Point) (index0 : Z) (fuel : nat) (s : torso_state) :
  idx shape_pixels i = Ok p ->
  while_ fuel (torso_cond shape_pixels lower_bound_x) (torso_body shape_pixels)
    (mkTorso i p 0 1000 p index0) = Ok s ->
  torso_inv shape_pixels i p index0 s.
Proof.
  intros Hp H.
  apply (while_inv (torso_inv shape_pixels i p index0)) in H as [H _];
    [exact H| |].
  - intros a b Ha _ Hb. exact (torso_body_keeps_inv _ _ _ _ _ _ Ha Hb).
  - unfold torso_inv.
    cbn [t_i t_current_row t_current_dist t_shortest_dist t_best_fit_node
         t_index_torso].
    split; [lia|]. split; [lia|]. split; [apply is_row_start; exact Hp|].
    split; [lia|]. left. auto.
Qed.

(** C7 (amended).  The index a detector returns is either the value the
    caller's variable held at the call (create_skeleton passes 0) or at least
    the seed index it received.  The torso, waist and shoulder detectors
    return the caller's value when the scan recorded no row: the landmark is
    then computed from the pixel the scan started on, with the count the scan
    starts with, 1000 for the torso and 0 for the waist and the shoulders.
    Otherwise they return the index of the last pixel of the row or run the
    scan recorded last: its pixels lie at or after the seed index and the
    landmark is computed from them. *)
Theorem C7_output_index_kept_or_past_seed (shape_pixels : list Point)
    (threshold : Z) (anchor : Point) (seed out0 : Z) :
  (forall torso out,
     find_torso_feature shape_pixels threshold anchor seed out0
     = Ok (torso, out) ->
     (out = out0 \/ seed <= out) /\
     exists n,
       (n = 1000 /\ out = out0 /\
        exists i p, seed <= i /\ idx shape_pixels i = Ok p /\
                    torso = mkPoint (x p + threshold) (y p - 500)) \/
       (0 <= n < 1000 /\ seed <= out - n /\
        idx shape_pixels out
        = Ok (mkPoint (x torso - threshold) (y torso + n ÷ 2)) /\
        forall k, 0 <= k <= n ->
          exists c, idx shape_pixels (out - k)
                    = Ok (mkPoint (x torso - threshold) c))) /\
  (forall flag waist out flag',
     find_waist_feature shape_pixels threshold anchor seed out0 flag
     = Ok (waist, out, flag') ->
     (out = out0 \/ seed <= out) /\
     exists L,
       (L = 0 /\ out = out0 /\
        exists i, seed <= i /\
          idx shape_pixels i = Ok (mkPoint (x waist + threshold) (y waist))) \/
       (0 < L /\ seed <= out - L /\
        forall k, 0 <= k <= L ->
          idx shape_pixels (out - k)
          = Ok (mkPoint (x waist + threshold) (y waist + L ÷ 2 - k)))) /\
  (forall left_shoulder right_shoulder arm_width out,
     set_shoulder_positions shape_pixels threshold anchor seed out0
     = Ok (left_shoulder, right_shoulder, arm_width, out) ->
     (out = out0 \/ seed <= out) /\
     exists L,
       (L = 0 /\ out = out0 /\ arm_width = 1 /\
        exists i p, seed <= i /\ idx shape_pixels i = Ok p /\
                    left_shoulder = mkPoint (x p) (y p + 1) /\
                    right_shoulder = mkPoint (x p) (y p - 1)) \/
       (0 < L /\ seed <= out - L /\
        forall k, 0 <= k <= L ->
          idx shape_pixels (out - k)
          = Ok (mkPoint (x right_shoulder)
                  (y right_shoulder + arm_width - k)))).
Proof.
  split; [|split].
  - intros torso out H. unfold find_torso_feature in H.
    apply bind_Ok in H as (p0 & _ & H).
    apply bind_Ok in H as (i & Hskip%skip_loop_index & H).
    apply bind_Ok in H as (p & Hp & H).
    apply bind_Ok in H as (s & Hloop & [= <- <-]).
    pose proof (torso_loop_index _ _ seed out0 _ _ _ Hloop Hskip eq_refl)
      as Hidx.
    split; [exact Hidx|].
    apply (torso_loop_inv _ _ _ _ _ _ _ Hp) in Hloop
      as (_ & _ & _ & _ & Hbest).
    exists (t_shortest_dist s). cbn [x y].
    destruct Hbest as [(Hn & Hb & Hix)|(Hn & Hi0 & Hq & Hrow)].
    + left. split; [exact Hn|]. split; [exact Hix|].
      exists i, p. split; [exact Hskip|]. split; [exact Hp|].
      rewrite Hb, Hn. reflexivity.
    + right. split; [exact Hn|]. split; [lia|].
      replace (x (t_best_fit_node s) + threshold - threshold)
        with (x (t_best_fit_node s)) by lia.
      replace (y (t_best_fit_node s) - t_shortest_dist s ÷ 2
               + t_shortest_dist s ÷ 2)
        with (y (t_best_fit_node s)) by lia.
      rewrite Point_eta. split; [exact Hq | exact Hrow].
  - intros flag waist out flag' H. unfold find_waist_feature in H.
    apply bind_Ok in H as (p0 & _ & H).
    apply bind_Ok in H as ([s b] & Htry & [= <- <- _]).
    unfold try_catch in Htry.
    match type of Htry with
    | match ?m with _ => _ end = _ =>
        pose proof (waist_try_no_exception shape_pixels
          ((if 64 <? x anchor then x anchor + 1 else 64) + threshold)
          80 seed out0 flag) as Hne;
        destruct m as [[s1 b1]|f] eqn:Em
    end; [|destruct f; try discriminate; contradiction].
    injection Htry as -> _.
    apply bind_Ok in Em as (i & Hskip%waist_skip_loop_index & Em).
    apply bind_Ok in Em as (p & Hp & Em).
    apply bind_Ok in Em as (s2 & Hloop & [= -> _]).
    pose proof (run_loop_index _ _ seed out0 _ _ _ Hloop Hskip eq_refl)
      as Hidx.
    split; [exact Hidx|].
    apply (run_loop_inv _ _ _ _ _ _ _ Hp) in Hloop
      as (_ & HL & _ & _ & Hbest).
    exists (r_largest_dist s). cbn [x y].
    destruct Hbest as [(HL0 & Hb & Hix)|(HLpos & Hi0 & Hrun)].
    + left. split; [exact HL0|]. split; [exact Hix|].
      exists i. split; [exact Hskip|]. rewrite Hb, HL0.
      change (0 ÷ 2) with 0. rewrite Z.sub_0_r.
      replace (x p - threshold + threshold) with (x p) by lia.
      rewrite Point_eta. exact Hp.
    + right. split; [exact HLpos|]. split; [lia|].
      intros k Hk. rewrite (Hrun k Hk). f_equal. f_equal; lia.
  - intros l r a out H. unfold set_shoulder_positions in H. cbv zeta in H.
    apply bind_Ok in H as (p0 & _ & H).
    apply bind_Ok in H as (i & Hskip%shoulder_skip_loop_index & H).
    apply bind_Ok in H as (p & Hp & H).
    apply bind_Ok in H as (s & Hloop & [= <- <- <- <-]).
    pose proof (run_loop_index _ _ seed out0 _ _ _ Hloop Hskip eq_refl)
      as Hidx.
    split; [exact Hidx|].
    apply (run_loop_inv _ _ _ _ _ _ _ Hp) in Hloop
      as (_ & HL & _ & _ & Hbest).
    exists (r_largest_dist s). cbn [x y].
    destruct Hbest as [(HL0 & Hb & Hix)|(HLpos & Hi0 & Hrun)].
    + left. split; [exact HL0|]. split; [exact Hix|].
      rewrite HL0, Hb. change (0 ÷ 10 =? 0) with true. cbv iota.
      split; [reflexivity|]. exists i, p.
      split; [exact Hskip|]. split; [exact Hp|].
      split; f_equal; lia.
    + right. split; [exact HLpos|]. split; [lia|].
      intros k Hk. rewrite (Hrun k Hk). f_equal. f_equal. lia.
Qed.

(** ** The fuel of the detectors is enough *)

Lemma idx_never_dry {A} (v : list A) (i : Z) : idx v i <> Fail OutOfFuel.
Proof. intros E. apply idx_fault in E. discriminate. Qed.

(** A loop that reads the vector at a position of its state and moves that
    position forward ends within the size of the vector plus one rounds. *)
Lemma index_loop_never_dry {St A} (v : list A) (pos : St -> Z)
    (cond : St -> res bool) (body : St -> res St) :
  (forall s, cond s = Ok true -> 0 <= pos s < Z.of_nat (length v)) ->
  (forall s s', cond s = Ok true -> body s = Ok s' -> pos s < pos s') ->
  (forall s, cond s <> Fail OutOfFuel) ->
  (forall s, body s <> Fail OutOfFuel) ->
  forall s, while_ (vec_fuel v) cond body s <> Fail OutOfFuel.
Proof.
  intros Hrange Hmove Hc Hb s.
  apply (while_enough_fuel
           (fun s => Z.to_nat (Z.of_nat (length v) - Z.max 0 (pos s)))).
  - exact Hc.
  - exact Hb.
  - intros a b Ha Hab. specialize (Hrange a Ha). specialize (Hmove a b Ha Hab).
    lia.
  - unfold vec_fuel. lia.
Qed.

Ltac read_pixel H :=
  let p := fresh "p" in
  let Hp := fresh "Hp" in
  apply bind_Ok in H as (p & Hp & H); apply idx_lt in Hp.

Lemma skip_loop_never_dry (shape_pixels : list Point) (bound seed : Z) :
  while_ (vec_fuel shape_pixels) (skip_cond shape_pixels bound) skip_body seed
  <> Fail OutOfFuel.
Proof.
  apply (index_loop_never_dry shape_pixels (fun i => i)).
  - intros i H. unfold skip_cond in H. read_pixel H. exact Hp.
  - intros i i' _ [= <-]. lia.
  - intros i. apply bind_avoids; [apply idx_never_dry | discriminate].
  - discriminate.
Qed.

Lemma torso_loop_never_dry (shape_pixels : list Point) (lower_bound_x : Z)
    (s : torso_state) :
  while_ (vec_fuel shape_pixels) (torso_cond shape_pixels lower_bound_x)
    (torso_body shape_pixels) s <> Fail OutOfFuel.
Proof.
  apply (index_loop_never_dry shape_pixels t_i).
  - intros a H. unfold torso_cond in H. read_pixel H. exact Hp.
  - intros a b _ H. unfold torso_body in H. read_pixel H.
    destruct (_ =? _); [injection H as <-; simpl; lia|].
    destruct (_ <? _); [read_pixel H|]; injection H as <-; simpl; lia.
  - intros a. apply bind_avoids; [apply idx_never_dry | discriminate].
  - intros a. apply bind_avoids; [apply idx_never_dry|]. intros p.
    destruct (_ =? _); [discriminate|]. destruct (_ <? _); [|discriminate].
    apply bind_avoids; [apply idx_never_dry | discriminate].
Qed.

Lemma run_loop_never_dry (shape_pixels : list Point) (lower_bound_x : Z)
    (s : run_state) :
  while_ (vec_fuel shape_pixels) (run_cond shape_pixels lower_bound_x)
    (run_body shape_pixels) s <> Fail OutOfFuel.
Proof.
  apply (index_loop_never_dry shape_pixels r_i).
  - intros a H. unfold run_cond in H. read_pixel H. exact Hp.
  - intros a b _ H. unfold run_body in H. read_pixel H.
    destruct (Point_eqb _ _); [injection H as <-; simpl; lia|].
    destruct (_ <? _); [read_pixel H|]; injection H as <-; simpl; lia.
  - intros a. apply bind_avoids; [apply idx_never_dry | discriminate].
  - intros a. apply bind_avoids; [apply idx_never_dry|]. intros p.
    destruct (Point_eqb _ _); [discriminate|].
    destruct (_ <? _); [|discriminate].
    apply bind_avoids; [apply idx_never_dry | discriminate].
Qed.

(** Running dry is not an outcome of a detector: a detector returns or goes
    out of range. *)
Theorem detectors_never_run_dry (shape_pixels : list Point) (threshold : Z)
    (anchor corner : Point) (seed out0 : Z) (flag : bool) :
  find_head_feature shape_pixels threshold out0 <> Fail OutOfFuel /\
  find_torso_feature shape_pixels threshold anchor seed out0 <> Fail OutOfFuel /\
  find_waist_feature shape_pixels threshold anchor seed out0 flag
    <> Fail OutOfFuel /\
  find_foot_feature shape_pixels threshold anchor corner seed
    <> Fail OutOfFuel /\
  set_shoulder_positions shape_pixels threshold anchor seed out0
    <> Fail OutOfFuel.
Proof.
  repeat split.
  - unfold find_head_feature. apply bind_avoids.
    + apply (index_loop_never_dry shape_pixels (fun s => s.1.1)).
      * intros [[i h] k] H. unfold head_cond in H. read_pixel H. exact Hp.
      * intros [[i h] k] b _ H. unfold head_body in H. read_pixel H.
        destruct (_ <? _); injection H as <-; simpl; lia.
      * intros [[i h] k]. apply bind_avoids; [apply idx_never_dry | discriminate].
      * intros [[i h] k]. apply bind_avoids; [apply idx_never_dry|].
        intros p. destruct (_ <? _); discriminate.
    + intros [[i h] k]. discriminate.
  - unfold find_torso_feature.
    apply bind_avoids; [apply idx_never_dry|]. intros _.
    apply bind_avoids; [apply skip_loop_never_dry|]. intros i.
    apply bind_avoids; [apply idx_never_dry|]. intros p.
    apply bind_avoids; [apply torso_loop_never_dry | discriminate].
  - unfold find_waist_feature.
    apply bind_avoids; [apply idx_never_dry|]. intros p0.
    apply bind_avoids; [|intros [s b]; discriminate].
    unfold try_catch.
    match goal with
    | |- match ?m with _ => _ end <> _ =>
        assert (Hm : m <> Fail OutOfFuel); [|destruct m as [a|[]]; congruence]
    end.
    apply bind_avoids.
    + apply (index_loop_never_dry shape_pixels (fun i => i)).
      * intros i H. unfold waist_skip_cond in H. read_pixel H. exact Hp.
      * intros i i' _ H. unfold waist_skip_body in H. read_pixel H.
        destruct (_ <=? _); injection H as <-; lia.
      * intros i. apply bind_avoids; [apply idx_never_dry | discriminate].
      * intros i. apply bind_avoids; [apply idx_never_dry|].
        intros p. destruct (_ <=? _); discriminate.
    + intros i. apply bind_avoids; [apply idx_never_dry|]. intros p.
      apply bind_avoids; [apply run_loop_never_dry | discriminate].
  - unfold find_foot_feature.
    apply bind_avoids; [apply skip_loop_never_dry|]. intros i.
    apply bind_avoids; [|intros [[j d] b]; discriminate].
    apply (index_loop_never_dry shape_pixels (fun s => s.1.1)).
    + intros [[j d] b] H. unfold foot_cond in H. read_pixel H. exact Hp.
    + intros [[j d] b] s' _ H. unfold foot_body in H. read_pixel H.
      cbv zeta in H. destruct (_ && _); injection H as <-; simpl; lia.
    + intros [[j d] b]. apply bind_avoids; [apply idx_never_dry | discriminate].
    + intros [[j d] b]. apply bind_avoids; [apply idx_never_dry|].
      intros p. cbv zeta. destruct (_ && _); discriminate.
  - unfold set_shoulder_positions.
    apply bind_avoids; [apply idx_never_dry|]. intros _.
    apply bind_avoids.
    + apply (index_loop_never_dry shape_pixels (fun i => i)).
      * intros i H. unfold shoulder_skip_cond in H. read_pixel H. exact Hp.
      * intros i i' _ [= <-]. lia.
      * intros i. apply bind_avoids; [apply idx_never_dry | discriminate].
      * discriminate.
    + intros i. apply bind_avoids; [apply idx_never_dry|]. intros p.
      apply bind_avoids; [apply run_loop_never_dry | discriminate].
Qed.

(** ** The theorems at sample inputs *)

Lemma all_outline_rejected :
  flood_from_seed all_outline = Ok (all_outline, []) /\
  silhouette_valid all_outline = Ok false.
Proof. split; vm_compute; reflexivity. Qed.

(** C1 at the image of contour pixels only. *)
Lemma C1_witness :
  flood_from_seed all_outline = Ok (all_outline, []) /\
  silhouette_valid all_outline = Ok false /\
  exists out,
    create_skeleton unit (fun _ => tt) unreached_elbow unreached_hand
      unreached_draw untrained all_outline = Ok out /\
    bad_skel_flag (f_self out) = true /\
    f_nodes out = replicate 11 (mkPoint 0 0) /\
    judge_features untrained (f_nodes out) = Ok "Noise".
Proof.
  assert (H1 : flood_from_seed all_outline = Ok (all_outline, []))
    by (vm_compute; reflexivity).
  assert (H2 : silhouette_valid all_outline = Ok false)
    by (vm_compute; reflexivity).
  split; [exact H1|]. split; [exact H2|].
  destruct (C1_invalid_silhouette_default_skeleton (fun _ : Z => tt)
              unreached_elbow unreached_hand unreached_draw untrained
              all_outline all_outline [] H1 H2)
    as (out & Hfit & _ & Hflag & Hnodes & Hnoise & _).
  exists out. split; [exact Hfit|]. split; [exact Hflag|].
  split; [exact Hnodes|].
  apply Hnoise; [vm_compute; lia | vm_compute; lia |].
  intros i Hi. do 11 (destruct i as [|i]; [reflexivity|]). lia.
Defined.

(** The claim C1 as worded fails at the image of contour pixels only: the
    landmarks returned are (0,0), not (1000,1000), and the range model of
    boxes [0,1) x [0,1) contains all eleven, so that judge_features scores
    them 11 and answers "Pedestrian". *)
Lemma C1_counterexample :
  silhouette_valid all_outline = Ok false /\
  create_skeleton unit (fun _ => tt) unreached_elbow unreached_hand
    unreached_draw unit_boxes all_outline
  = Ok (mkFit (replicate 11 (mkPoint 0 0)) (set_flag unit_boxes true)
          all_outline []) /\
  replicate 11 (mkPoint 0 0) <> replicate 11 (mkPoint 1000 1000) /\
  feature_score unit_boxes (replicate 11 (mkPoint 0 0)) = Ok 11 /\
  judge_features unit_boxes (replicate 11 (mkPoint 0 0)) = Ok "Pedestrian".
Proof.
  split; [vm_compute; reflexivity|]. split; [vm_compute; reflexivity|].
  split; [discriminate|]. split; vm_compute; reflexivity.
Qed.

(** C2 at the column silhouette. *)
Lemma C2_witness :
  Mat_wf (column_image 30) /\ 64 < rows (column_image 30) /\
  32 < cols (column_image 30) /\
  exists seed img1 log,
    at_ (column_image 30) 64 32 = Ok seed /\
    flood_from_seed (column_image 30) = Ok (img1, log) /\
    (In CallFloodFill log <-> seed <> outline_colour).
Proof.
  assert (H1 : Mat_wf (column_image 30)).
  { unfold Mat_wf. vm_compute. repeat split; discriminate. }
  assert (H2 : 64 < rows (column_image 30)) by reflexivity.
  assert (H3 : 32 < cols (column_image 30)) by reflexivity.
  repeat (split; [assumption|]).
  destruct (C2_flood_and_rejection (fun _ : Z => tt) blind_elbow blind_hand
              blind_draw untrained (column_image 30) H1 H2 H3)
    as (seed & img1 & log & corner & seed1 & Hs & Hf & Hl & _).
  exists seed, img1, log. auto.
Defined.

(** The claim C2 as worded fails in both directions: on the image of contour
    pixels only the seed pixel is a contour pixel and the flood fill is not
    run; on the column silhouette the seed pixel is not a contour pixel and
    the flood fill is run. *)
Lemma C2_counterexample :
  (at_ all_outline 64 32 = Ok outline_colour /\
   flood_from_seed all_outline = Ok (all_outline, []) /\
   fmap f_calls (create_skeleton unit (fun _ => tt) unreached_elbow
                   unreached_hand unreached_draw untrained all_outline)
   = Ok []) /\
  (at_ (column_image 30) 64 32 = Ok black /\
   flood_from_seed (column_image 30) = Ok (column_flooded 30, [CallFloodFill])).
Proof.
  repeat split; vm_compute; reflexivity.
Qed.



(** C4 at the vector without interior pixels. *)
Lemma C4_witness :
  idx no_pixels 0 = Ok origin /\
  find_head_feature no_pixels 5 0 = Ok (mkPoint 1005 1000, 0) /\
  find_foot_feature no_pixels 5 (mkPoint 1000 1000) (mkPoint 127 1) 0
  = Ok (mkPoint 1000 1000) /\
  find_waist_feature no_pixels 5 (mkPoint 1000 1000) 0 0 false
  = Ok (mkPoint (-5) 0, 0, false).
Proof.
  assert (H0 : idx no_pixels 0 = Ok origin) by reflexivity.
  destruct (C4_detectors_on_exhausted_list no_pixels 5)
    as (Hhead & Hfoot & Hwaist & _).
  split; [exact H0|]. split; [exact (Hhead H0 0)|].
  split; [exact (Hfoot _ _ 0 H0) | exact (Hwaist _ 0 0 false origin H0 H0)].
Defined.

(** The claim C4 as worded fails on the vector without interior pixels: the
    head detector returns (1005,1000) and the waist detector (-5,0), neither
    the sentinel (1000,1000), and the waist detector returns the flag as it
    received it, not raised. *)
Lemma C4_counterexample :
  find_head_feature no_pixels 5 0 = Ok (mkPoint 1005 1000, 0) /\
  mkPoint 1005 1000 <> sentinel /\
  find_waist_feature no_pixels 5 (mkPoint 1005 1000) 0 0 false
  = Ok (mkPoint (-5) 0, 0, false).
Proof.
  split; [vm_compute; reflexivity|]. split; [discriminate|].
  vm_compute; reflexivity.
Qed.

(** C5 at the sample skeleton and the boxes [0,100) x [0,100): eight
    landmarks are contained. *)
Lemma C5_witness :
  (11 <= length sample_skeleton)%nat /\
  (11 <= length (min_range wide_boxes))%nat /\
  (11 <= length (max_range wide_boxes))%nat /\
  contained_count wide_boxes sample_skeleton = 8 /\
  feature_score wide_boxes sample_skeleton = Ok 8 /\
  judge_features wide_boxes sample_skeleton = Ok "Pedestrian".
Proof.
  assert (H1 : (11 <= length sample_skeleton)%nat) by (vm_compute; lia).
  assert (H2 : (11 <= length (min_range wide_boxes))%nat) by (vm_compute; lia).
  assert (H3 : (11 <= length (max_range wide_boxes))%nat) by (vm_compute; lia).
  repeat (split; [assumption|]).
  destruct (C5_score_and_verdict wide_boxes sample_skeleton H1 H2 H3)
    as (Hs & v & Hv & Hped & _).
  split; [reflexivity|]. split; [exact Hs|].
  rewrite Hv. f_equal. apply Hped. vm_compute. discriminate.
Defined.

(** C6 at the boxes whose corners are both (5,5). *)
Lemma C6_witness :
  (11 <= length (min_range point_boxes))%nat /\
  (11 <= length (max_range point_boxes))%nat /\
  (forall i, (i < 11)%nat ->
     min_range point_boxes !! i = max_range point_boxes !! i) /\
  contains point_boxes (mkPoint 5 5) 0 = false /\
  judge_features point_boxes (replicate 11 (mkPoint 5 5)) = Ok "Noise".
Proof.
  assert (H1 : (11 <= length (min_range point_boxes))%nat) by (vm_compute; lia).
  assert (H2 : (11 <= length (max_range point_boxes))%nat) by (vm_compute; lia).
  assert (H3 : forall i, (i < 11)%nat ->
            min_range point_boxes !! i = max_range point_boxes !! i)
    by reflexivity.
  repeat (split; [assumption|]).
  destruct C6_half_open_boxes as (_ & Hall & _).
  destruct (Hall point_boxes H1 H2 H3 (replicate 11 (mkPoint 5 5))
              ltac:(vm_compute; lia))
    as (Hnone & _ & Hnoise).
  split; [apply Hnone; lia | exact Hnoise].
Defined.

(** C7 at the column silhouette.  The torso detector records the row of
    the pixel 10 and returns its index; the waist detector, given the seed
    10, records nothing and returns the 0 of the caller. *)
Lemma C7_witness :
  find_torso_feature (column_pixels 30) 5 (mkPoint 35 32) 0 0
  = Ok (mkPoint 45 32, 10) /\
  find_waist_feature (column_pixels 30) 5 (mkPoint 45 32) 10 0 false
  = Ok (mkPoint (-5) 0, 0, false) /\
  (exists n,
     (n = 1000 /\ 10 = 0 /\
      exists i p, 0 <= i /\ idx (column_pixels 30) i = Ok p /\
                  mkPoint 45 32 = mkPoint (x p + 5) (y p - 500)) \/
     (0 <= n < 1000 /\ 0 <= 10 - n /\
      idx (column_pixels 30) 10 = Ok (mkPoint (45 - 5) (32 + n ÷ 2)) /\
      forall k, 0 <= k <= n ->
        exists c, idx (column_pixels 30) (10 - k) = Ok (mkPoint (45 - 5) c))) /\
  (exists L,
     (L = 0 /\ 0 = 0 /\
      exists i, 10 <= i /\
        idx (column_pixels 30) i = Ok (mkPoint (-5 + 5) 0)) \/
     (0 < L /\ 10 <= 0 - L /\
      forall k, 0 <= k <= L ->
        idx (column_pixels 30) (0 - k)
        = Ok (mkPoint (-5 + 5) (0 + L ÷ 2 - k)))).
Proof.
  assert (Ht : find_torso_feature (column_pixels 30) 5 (mkPoint 35 32) 0 0
               = Ok (mkPoint 45 32, 10)) by (vm_compute; reflexivity).
  assert (Hw : find_waist_feature (column_pixels 30) 5 (mkPoint 45 32) 10 0
                 false = Ok (mkPoint (-5) 0, 0, false))
    by (vm_compute; reflexivity).
  split; [exact Ht|]. split; [exact Hw|]. split.
  - destruct (C7_output_index_kept_or_past_seed (column_pixels 30) 5
                (mkPoint 35 32) 0 0) as (Htorso & _ & _).
    exact (proj2 (Htorso _ _ Ht)).
  - destruct (C7_output_index_kept_or_past_seed (column_pixels 30) 5
                (mkPoint 45 32) 10 0) as (_ & Hwaist & _).
    exact (proj2 (Hwaist false _ _ _ Hw)).
Defined.

(** The claim C7 as worded fails on the column silhouette, on the list
    highlight_pixels builds and with the seeds create_skeleton passes: the
    torso detector returns the index 10, the waist detector receives 10 and
    returns 0, and the shoulder detector receives 10 and returns 0. *)
Lemma C7_counterexample :
  flood_from_seed (column_image 30) = Ok (column_flooded 30, [CallFloodFill]) /\
  highlight_pixels (column_flooded 30)
    (replicate (Z.to_nat 8192) (mkPoint 0 0))
    (replicate (Z.to_nat 4096) (mkPoint 0 0))
  = Ok (column_pixels 30, column_outline 30) /\
  find_head_feature (column_pixels 30) 5 0 = Ok (mkPoint 35 32, 0) /\
  find_torso_feature (column_pixels 30) 5 (mkPoint 35 32) 0 0
  = Ok (mkPoint 45 32, 10) /\
  find_waist_feature (column_pixels 30) 5 (mkPoint 45 32) 10 0 false
  = Ok (mkPoint (-5) 0, 0, false) /\
  set_shoulder_positions (column_pixels 30) 5 (mkPoint 45 32) 10 0
  = Ok (mkPoint 45 33, mkPoint 45 31, 1, 0) /\
  ~ 10 <= 0.
Proof.
  do 6 (split; [vm_compute; reflexivity|]). lia.
Qed.

(** C8 at the boxes [0,100) x [0,100) and the skeleton of (50,50). *)
Lemma C8_witness :
  (11 <= length (replicate 11 (mkPoint 50 50)))%nat /\
  (11 <= length (min_range wide_boxes))%nat /\
  (11 <= length (max_range wide_boxes))%nat /\
  strictly_inside (mkPoint 50 50) (mkPoint 0 0) (mkPoint 100 100) /\
  train_compare_ranges wide_boxes (replicate 11 (mkPoint 50 50)) = Ok wide_boxes.
Proof.
  assert (H1 : (11 <= length (replicate 11 (mkPoint 50 50)))%nat)
    by (vm_compute; lia).
  assert (H2 : (11 <= length (min_range wide_boxes))%nat) by (vm_compute; lia).
  assert (H3 : (11 <= length (max_range wide_boxes))%nat) by (vm_compute; lia).
  assert (H4 : strictly_inside (mkPoint 50 50) (mkPoint 0 0) (mkPoint 100 100))
    by (unfold strictly_inside; simpl; lia).
  repeat (split; [assumption|]).
  apply (C8_interior_skeleton_keeps_ranges wide_boxes
           (replicate 11 (mkPoint 50 50)) H1 H2 H3).
  intros i f lo hi Hi Hf Hlo Hhi.
  do 11 (destruct i as [|i];
         [injection Hf as <-; injection Hlo as <-; injection Hhi as <-;
          exact H4|]).
  lia.
Defined.

(** C9 at the silhouette of the single pixel (64,32): the torso landmark is
    (5,-500). *)
Lemma C9_witness :
  flood_from_seed (column_image 64) = Ok (column_flooded 64, [CallFloodFill]) /\
  silhouette_valid (column_flooded 64) = Ok true /\
  find_head_feature (column_pixels 64) 5 0 = Ok (mkPoint 69 32, 0) /\
  find_torso_feature (column_pixels 64) 5 (mkPoint 69 32) 0 0
  = Ok (mkPoint 5 (-500), 0) /\
  is_within_bound (mkPoint 5 (-500)) 0 0 (rows (column_flooded 64))
    (cols (column_flooded 64)) = false /\
  exists out,
    create_skeleton unit (fun _ => tt) unreached_elbow unreached_hand
      unreached_draw untrained (column_image 64) = Ok out /\
    bad_skel_flag (f_self out) = true /\
    List.filter is_detector (f_calls out) = [CallHead; CallTorso] /\
    f_nodes out
    = [mkPoint 69 32; mkPoint 5 (-500)] ++ replicate 9 (mkPoint 0 0).
Proof.
  assert (H1 : flood_from_seed (column_image 64)
               = Ok (column_flooded 64, [CallFloodFill]))
    by (vm_compute; reflexivity).
  assert (H2 : silhouette_valid (column_flooded 64) = Ok true)
    by (vm_compute; reflexivity).
  assert (H3 : highlight_pixels (column_flooded 64)
                 (replicate (Z.to_nat 8192) (mkPoint 0 0))
                 (replicate (Z.to_nat 4096) (mkPoint 0 0))
               = Ok (column_pixels 64, column_outline 64))
    by (vm_compute; reflexivity).
  assert (H4 : find_head_feature (column_pixels 64) 5 0 = Ok (mkPoint 69 32, 0))
    by (vm_compute; reflexivity).
  assert (H5 : find_torso_feature (column_pixels 64) 5 (mkPoint 69 32) 0 0
               = Ok (mkPoint 5 (-500), 0)) by (vm_compute; reflexivity).
  assert (H6 : is_within_bound (mkPoint 5 (-500)) 0 0
                 (rows (column_flooded 64)) (cols (column_flooded 64)) = false)
    by reflexivity.
  repeat (split; [assumption|]).
  destruct (C9_torso_guard_stops_fitter (fun _ : Z => tt) unreached_elbow
              unreached_hand unreached_draw untrained _ _ _ _ _ _ _ _ _
              H1 H2 H3 H4 H5 H6)
    as (out & Hfit & Hflag & Hcalls & Hnodes & _).
  exists out. repeat (split; [assumption|]). exact Hnodes.
Defined.

(** C10 at one training image, the column silhouette, on which the fit
    succeeds: started with the flag down, create_skeleton returns with the
    flag down.  Constructed with the flag up, the first iteration leaves the
    ranges as init set them. *)
Lemma C10_witness :
  fmap (fun out => bad_skel_flag (f_self out))
    (create_skeleton unit (fun _ => tt) blind_elbow blind_hand blind_draw
       untrained (column_image 30)) = Ok false /\
  init (new_PeopleFinder (replicate 11 (mkPoint 0 0))
          (replicate 11 (mkPoint 0 0)) "" true)
  = Ok (set_flag untrained true) /\
  train_cond (mkTrain 0 (set_flag untrained true) one_image (mkMat 0 0 []) tt)
  = Ok true /\
  train_body unit (fun _ => tt) blind_elbow blind_hand blind_draw unit
    plain_contours
    (mkTrain 0 (set_flag untrained true) one_image (mkMat 0 0 []) tt)
  = Ok (mkTrain 1 untrained one_image (column_flooded 30) tt) /\
  min_range untrained = min_range (set_flag untrained true) /\
  max_range untrained = max_range (set_flag untrained true) /\
  train unit (fun _ => tt) blind_elbow blind_hand blind_draw unit
    plain_contours
    (new_PeopleFinder (replicate 11 (mkPoint 0 0))
       (replicate 11 (mkPoint 0 0)) "" true)
    one_image (mkMat 0 0 []) tt
  = Ok untrained.
Proof.
  split; [vm_compute; reflexivity|].
  assert (H1 : init (new_PeopleFinder (replicate 11 (mkPoint 0 0))
                       (replicate 11 (mkPoint 0 0)) "" true)
               = Ok (set_flag untrained true)) by (vm_compute; reflexivity).
  assert (H2 : train_cond (mkTrain 0 (set_flag untrained true) one_image
                             (mkMat 0 0 []) tt) = Ok true)
    by (vm_compute; reflexivity).
  assert (H3 : train_body unit (fun _ => tt) blind_elbow blind_hand blind_draw
                 unit plain_contours
                 (mkTrain 0 (set_flag untrained true) one_image
                    (mkMat 0 0 []) tt)
               = Ok (mkTrain 1 untrained one_image (column_flooded 30) tt))
    by (vm_compute; reflexivity).
  repeat (split; [assumption|]).
  destruct (C10_first_training_image_discarded (fun _ : Z => tt) blind_elbow
              blind_hand blind_draw plain_contours _ _ _ _ _ _ _ _ H1 H2 H3)
    as (_ & _ & Hmn & Hmx & _ & _ & Htrain).
  split; [exact Hmn|]. split; [exact Hmx|].
  rewrite Htrain. vm_compute. reflexivity.
Defined.

(* ------------------------------------------------------------------------ *)
(** * Further properties of the code *)

(** ** Loops that return *)

Lemma for_total {St} (P : Z -> St -> Prop) (body : Z -> St -> res St) :
  forall (n : nat) (lo : Z) (s : St),
  (forall i s, lo <= i < lo + Z.of_nat n -> P i s ->
     exists s', body i s = Ok s' /\ P (i + 1) s') ->
  P lo s ->
  exists s', for_ n lo body s = Ok s' /\ P (lo + Z.of_nat n) s'.
Proof.
  induction n as [|n IH]; intros lo s Hstep HP.
  - exists s. split; [reflexivity|]. replace (lo + Z.of_nat 0) with lo by lia.
    exact HP.
  - destruct (Hstep lo s ltac:(lia) HP) as (s1 & Hb & HP1).
    destruct (IH (lo + 1) s1) as (s2 & Hrun & HP2).
    + intros i t Hi. apply Hstep. lia.
    + exact HP1.
    + exists s2. split.
      * simpl. rewrite Hb. exact Hrun.
      * replace (lo + Z.of_nat (S n)) with (lo + 1 + Z.of_nat n) by lia.
        exact HP2.
Qed.

(** ** The range model *)

Lemma widen_min_point_min (f lo : Point) : widen_min f lo = point_min f lo.
Proof.
  unfold widen_min, point_min.
  destruct (Z.leb_spec (x f) (x lo)); simpl;
    destruct (Z.leb_spec (y f) (y lo)); simpl; destruct lo; simpl in *;
    f_equal; lia.
Qed.

Lemma widen_max_point_max (f hi : Point) : widen_max f hi = point_max f hi.
Proof.
  unfold widen_max, point_max.
  destruct (Z.leb_spec (x hi) (x f)); simpl;
    destruct (Z.leb_spec (y hi) (y f)); simpl; destruct hi; simpl in *;
    f_equal; lia.
Qed.

Lemma train_compare_ranges_loop (feature_nodes mn0 mx0 : list Point) :
  (11 <= length feature_nodes)%nat ->
  (11 <= length mn0)%nat -> (11 <= length mx0)%nat ->
  exists s,
    for_ 11 0 (fun i '(mn, mx) =>
      f ← idx feature_nodes i;
      lo ← idx mn i;
      mn' ← idx_set mn i (widen_min f lo);
      hi ← idx mx i;
      mx' ← idx_set mx i (widen_max f hi);
      Ok (mn', mx')) (mn0, mx0) = Ok s /\
    widened_below feature_nodes mn0 mx0 11 s.
Proof.
  intros Hf Hlo Hhi.
  apply (for_total (widened_below feature_nodes mn0 mx0) _ 11 0).
  - intros i [mn mx] Hi (Hl1 & Hl2 & Hinv). cbn [fst snd] in *.
    set (k := Z.to_nat i).
    destruct (lookup_lt_is_Some_2 feature_nodes k) as [f Ef]; [lia|].
    destruct (lookup_lt_is_Some_2 mn0 k) as [lo El]; [lia|].
    destruct (lookup_lt_is_Some_2 mx0 k) as [hi Eh]; [lia|].
    destruct (Hinv k) as [_ Hk]. destruct (Hk ltac:(lia)) as [Emn Emx].
    replace i with (Z.of_nat k) by lia.
    rewrite (idx_of_nat _ _ _ Ef). simpl mbind.
    rewrite (idx_of_nat mn k lo) by congruence. simpl mbind.
    rewrite idx_set_of_nat by lia. simpl mbind.
    rewrite (idx_of_nat mx k hi) by congruence. simpl mbind.
    rewrite idx_set_of_nat by lia. simpl mbind.
    eexists. split; [reflexivity|].
    unfold widened_below. cbn [fst snd]. rewrite !length_insert.
    split; [exact Hl1|]. split; [exact Hl2|].
    intros j. rewrite !list_lookup_insert. split.
    + intros Hj f' lo' hi' Ef' El' Eh'.
      destruct (decide (k = j)) as [<-|Hne].
      * rewrite !decide_True by (split; [reflexivity | lia]).
        rewrite widen_min_point_min, widen_max_point_max.
        split; congruence.
      * rewrite !decide_False by (intros [? _]; contradiction).
        destruct (Hinv j) as [Hdone _]. apply Hdone; [lia | assumption..].
    + intros Hj. rewrite !decide_False by (intros [? _]; lia).
      destruct (Hinv j) as [_ Hrest]. apply Hrest. lia.
  - unfold widened_below. cbn [fst snd]. split; [reflexivity|].
    split; [reflexivity|]. intros j. split; [lia | auto].
Qed.

Lemma train_compare_ranges_needs_11 (self self' : PeopleFinder)
    (feature_nodes : list Point) :
  train_compare_ranges self feature_nodes = Ok self' ->
  (11 <= length feature_nodes)%nat /\
  (11 <= length (min_range self))%nat /\
  (11 <= length (max_range self))%nat.
Proof.
  unfold train_compare_ranges. intros H.
  apply bind_Ok in H as ([mn mx] & Hloop & _).
  apply (for_inv (fun i (s : list Point * list Point) =>
           i <= Z.of_nat (length feature_nodes) /\
           i <= Z.of_nat (length (min_range self)) /\
           i <= Z.of_nat (length (max_range self)) /\
           length s.1 = length (min_range self) /\
           length s.2 = length (max_range self))) in Hloop.
  - lia.
  - intros i [a b] [a' b'] (_ & _ & _ & Ha & Hb) Hbody. cbn [fst snd] in *.
    apply bind_Ok in Hbody as (f & Hf%idx_lt & Hbody).
    apply bind_Ok in Hbody as (lo & Hlo%idx_lt & Hbody).
    apply bind_Ok in Hbody as (a1 & [_ ->]%idx_set_Ok & Hbody).
    apply bind_Ok in Hbody as (hi & Hhi%idx_lt & Hbody).
    apply bind_Ok in Hbody as (b1 & [_ ->]%idx_set_Ok & [= <- <-]).
    rewrite !length_insert. lia.
  - cbn [fst snd]. lia.
Qed.

Lemma train_compare_ranges_runs (self : PeopleFinder)
    (feature_nodes : list Point) :
  (11 <= length feature_nodes)%nat ->
  (11 <= length (min_range self))%nat ->
  (11 <= length (max_range self))%nat ->
  exists s, train_compare_ranges self feature_nodes
            = Ok (set_ranges self s.1 s.2) /\
            widened_below feature_nodes (min_range self) (max_range self) 11 s.
Proof.
  intros Hf Hlo Hhi.
  destruct (train_compare_ranges_loop feature_nodes _ _ Hf Hlo Hhi)
    as ([mn mx] & Hloop & Hw).
  exists (mn, mx). split; [|exact Hw].
  unfold train_compare_ranges. rewrite Hloop. reflexivity.
Qed.

(** What a call of train_compare_ranges that returns has done. *)
Lemma train_compare_ranges_effect (self self' : PeopleFinder)
    (feature_nodes : list Point) :
  train_compare_ranges self feature_nodes = Ok self' ->
  length (min_range self') = length (min_range self) /\
  length (max_range self') = length (max_range self) /\
  training_path self' = training_path self /\
  bad_skel_flag self' = bad_skel_flag self /\
  verdicts self' = verdicts self /\
  (forall (i : nat) f lo hi, (i < 11)%nat ->
     feature_nodes !! i = Some f ->
     min_range self !! i = Some lo -> max_range self !! i = Some hi ->
     min_range self' !! i = Some (point_min f lo) /\
     max_range self' !! i = Some (point_max f hi)) /\
  (forall i : nat, (11 <= i)%nat ->
     min_range self' !! i = min_range self !! i /\
     max_range self' !! i = max_range self !! i).
Proof.
  intros H.
  destruct (train_compare_ranges_needs_11 _ _ _ H) as (Hf & Hlo & Hhi).
  destruct (train_compare_ranges_runs self feature_nodes Hf Hlo Hhi)
    as ([mn mx] & H' & Hl1 & Hl2 & Hw).
  rewrite H' in H. injection H as <-.
  cbn [fst snd set_ranges min_range max_range training_path bad_skel_flag
       verdicts] in *.
  repeat (split; [first [assumption | reflexivity]|]). split.
  - intros i f lo hi Hi. destruct (Hw i) as [Hdone _]. apply Hdone. lia.
  - intros i Hi. destruct (Hw i) as [_ Hrest]. apply Hrest. lia.
Qed.

(** X1.  train_compare_ranges returns exactly when the skeleton and both
    range vectors have 11 entries or more.  It then replaces the box of each
    index 0..10 by its coordinate-wise minimum and maximum with the landmark
    of that index, and leaves every other entry, the path, the flag and the
    verdicts as they were. *)
Theorem X1_train_compare_ranges_widens (self : PeopleFinder)
    (feature_nodes : list Point) :
  ((exists self', train_compare_ranges self feature_nodes = Ok self') <->
   (11 <= length feature_nodes)%nat /\
   (11 <= length (min_range self))%nat /\
   (11 <= length (max_range self))%nat) /\
  forall self', train_compare_ranges self feature_nodes = Ok self' ->
    length (min_range self') = length (min_range self) /\
    length (max_range self') = length (max_range self) /\
    training_path self' = training_path self /\
    bad_skel_flag self' = bad_skel_flag self /\
    verdicts self' = verdicts self /\
    (forall (i : nat) f lo hi, (i < 11)%nat ->
       feature_nodes !! i = Some f ->
       min_range self !! i = Some lo -> max_range self !! i = Some hi ->
       min_range self' !! i = Some (point_min f lo) /\
       max_range self' !! i = Some (point_max f hi)) /\
    (forall i : nat, (11 <= i)%nat ->
       min_range self' !! i = min_range self !! i /\
       max_range self' !! i = max_range self !! i).
Proof.
  split; [|intros self' H; exact (train_compare_ranges_effect _ _ _ H)].
  split.
  - intros [self' H]. apply (train_compare_ranges_needs_11 _ _ _ H).
  - intros (Hf & Hlo & Hhi).
    destruct (train_compare_ranges_runs self feature_nodes Hf Hlo Hhi)
      as (s & H & _).
    eexists. exact H.
Qed.

Lemma PeopleFinder_eq (a b : PeopleFinder) :
  min_range a = min_range b -> max_range a = max_range b ->
  training_path a = training_path b -> bad_skel_flag a = bad_skel_flag b ->
  verdicts a = verdicts b -> a = b.
Proof. destruct a, b; simpl; intros; subst; reflexivity. Qed.

Lemma point_min_idem (f lo : Point) : point_min f (point_min f lo) = point_min f lo.
Proof. unfold point_min; simpl; f_equal; lia. Qed.

Lemma point_max_idem (f hi : Point) : point_max f (point_max f hi) = point_max f hi.
Proof. unfold point_max; simpl; f_equal; lia. Qed.

Lemma point_min_swap (f g lo : Point) :
  point_min g (point_min f lo) = point_min f (point_min g lo).
Proof. unfold point_min; simpl; f_equal; lia. Qed.

Lemma point_max_swap (f g hi : Point) :
  point_max g (point_max f hi) = point_max f (point_max g hi).
Proof. unfold point_max; simpl; f_equal; lia. Qed.

(** Two runs of train_compare_ranges from models that agree give models that
    agree, when the boxes they leave agree index by index. *)
Lemma ranges_eq_by_index (a b : PeopleFinder) :
  length (min_range a) = length (min_range b) ->
  length (max_range a) = length (max_range b) ->
  (forall i : nat, min_range a !! i = min_range b !! i) ->
  (forall i : nat, max_range a !! i = max_range b !! i) ->
  training_path a = training_path b -> bad_skel_flag a = bad_skel_flag b ->
  verdicts a = verdicts b -> a = b.
Proof.
  intros _ _ Hmn Hmx Hp Hf Hv.
  apply PeopleFinder_eq; try assumption; apply list_eq; assumption.
Qed.

(** X2.  Folding the same skeleton into the range model a second time
    changes nothing. *)
Theorem X2_train_compare_ranges_idempotent (self self1 : PeopleFinder)
    (feature_nodes : list Point) :
  train_compare_ranges self feature_nodes = Ok self1 ->
  train_compare_ranges self1 feature_nodes = Ok self1.
Proof.
  intros H1.
  destruct (train_compare_ranges_needs_11 _ _ _ H1) as (Hf & Hlo & Hhi).
  destruct (train_compare_ranges_effect _ _ _ H1)
    as (Hl1 & Hl2 & Hp & Hfl & Hv & Hbox & Hrest).
  destruct (train_compare_ranges_runs self1 feature_nodes Hf
              ltac:(lia) ltac:(lia)) as (s & H2 & _).
  rewrite H2. f_equal.
  destruct (train_compare_ranges_effect _ _ _ H2)
    as (Hl1' & Hl2' & Hp' & Hfl' & Hv' & Hbox' & Hrest').
  apply ranges_eq_by_index; try assumption.
  - intros i. destruct (Nat.lt_ge_cases i 11) as [Hi|Hi]; [|apply Hrest'; lia].
    destruct (lookup_lt_is_Some_2 feature_nodes i) as [f Ef]; [lia|].
    destruct (lookup_lt_is_Some_2 (min_range self) i) as [lo El]; [lia|].
    destruct (lookup_lt_is_Some_2 (max_range self) i) as [hi Eh]; [lia|].
    destruct (Hbox i f lo hi Hi Ef El Eh) as [E1 E2].
    destruct (Hbox' i f _ _ Hi Ef E1 E2) as [-> _].
    rewrite E1, point_min_idem. reflexivity.
  - intros i. destruct (Nat.lt_ge_cases i 11) as [Hi|Hi]; [|apply Hrest'; lia].
    destruct (lookup_lt_is_Some_2 feature_nodes i) as [f Ef]; [lia|].
    destruct (lookup_lt_is_Some_2 (min_range self) i) as [lo El]; [lia|].
    destruct (lookup_lt_is_Some_2 (max_range self) i) as [hi Eh]; [lia|].
    destruct (Hbox i f lo hi Hi Ef El Eh) as [E1 E2].
    destruct (Hbox' i f _ _ Hi Ef E1 E2) as [_ ->].
    rewrite E2, point_max_idem. reflexivity.
Qed.

(** X3.  The order in which two skeletons are folded into the range model
    does not matter. *)
Theorem X3_train_compare_ranges_commute (self a b c d : PeopleFinder)
    (nodes1 nodes2 : list Point) :
  train_compare_ranges self nodes1 = Ok a ->
  train_compare_ranges a nodes2 = Ok b ->
  train_compare_ranges self nodes2 = Ok c ->
  train_compare_ranges c nodes1 = Ok d ->
  b = d.
Proof.
  intros Ha Hb Hc Hd.
  destruct (train_compare_ranges_needs_11 _ _ _ Ha) as (Hf1 & Hlo & Hhi).
  destruct (train_compare_ranges_needs_11 _ _ _ Hc) as (Hf2 & _ & _).
  destruct (train_compare_ranges_effect _ _ _ Ha)
    as (Ha1 & Ha2 & Ha3 & Ha4 & Ha5 & Habox & Harest).
  destruct (train_compare_ranges_effect _ _ _ Hb)
    as (Hb1 & Hb2 & Hb3 & Hb4 & Hb5 & Hbbox & Hbrest).
  destruct (train_compare_ranges_effect _ _ _ Hc)
    as (Hc1 & Hc2 & Hc3 & Hc4 & Hc5 & Hcbox & Hcrest).
  destruct (train_compare_ranges_effect _ _ _ Hd)
    as (Hd1 & Hd2 & Hd3 & Hd4 & Hd5 & Hdbox & Hdrest).
  apply ranges_eq_by_index; try congruence.
  - intros i. destruct (Nat.lt_ge_cases i 11) as [Hi|Hi].
    + destruct (lookup_lt_is_Some_2 nodes1 i) as [f Ef]; [lia|].
      destruct (lookup_lt_is_Some_2 nodes2 i) as [g Eg]; [lia|].
      destruct (lookup_lt_is_Some_2 (min_range self) i) as [lo El]; [lia|].
      destruct (lookup_lt_is_Some_2 (max_range self) i) as [hi Eh]; [lia|].
      destruct (Habox i f lo hi Hi Ef El Eh) as [A1 A2].
      destruct (Hbbox i g _ _ Hi Eg A1 A2) as [-> _].
      destruct (Hcbox i g lo hi Hi Eg El Eh) as [C1 C2].
      destruct (Hdbox i f _ _ Hi Ef C1 C2) as [-> _].
      rewrite point_min_swap. reflexivity.
    + destruct (Hbrest i Hi) as [-> _]. destruct (Harest i Hi) as [-> _].
      destruct (Hdrest i Hi) as [-> _]. destruct (Hcrest i Hi) as [-> _].
      reflexivity.
  - intros i. destruct (Nat.lt_ge_cases i 11) as [Hi|Hi].
    + destruct (lookup_lt_is_Some_2 nodes1 i) as [f Ef]; [lia|].
      destruct (lookup_lt_is_Some_2 nodes2 i) as [g Eg]; [lia|].
      destruct (lookup_lt_is_Some_2 (min_range self) i) as [lo El]; [lia|].
      destruct (lookup_lt_is_Some_2 (max_range self) i) as [hi Eh]; [lia|].
      destruct (Habox i f lo hi Hi Ef El Eh) as [A1 A2].
      destruct (Hbbox i g _ _ Hi Eg A1 A2) as [_ ->].
      destruct (Hcbox i g lo hi Hi Eg El Eh) as [C1 C2].
      destruct (Hdbox i f _ _ Hi Ef C1 C2) as [_ ->].
      rewrite point_max_swap. reflexivity.
    + destruct (Hbrest i Hi) as [_ ->]. destruct (Harest i Hi) as [_ ->].
      destruct (Hdrest i Hi) as [_ ->]. destruct (Hcrest i Hi) as [_ ->].
      reflexivity.
Qed.

Lemma train_compare_ranges_grows (self self' : PeopleFinder)
    (feature_nodes : list Point) :
  train_compare_ranges self feature_nodes = Ok self' ->
  forall (i : nat) lo hi lo' hi', (i < 11)%nat ->
  min_range self !! i = Some lo -> max_range self !! i = Some hi ->
  min_range self' !! i = Some lo' -> max_range self' !! i = Some hi' ->
  point_le lo' lo /\ point_le hi hi' /\
  forall f, feature_nodes !! i = Some f -> point_le lo' f /\ point_le f hi'.
Proof.
  intros H i lo hi lo' hi' Hi El Eh El' Eh'.
  destruct (train_compare_ranges_needs_11 _ _ _ H) as (Hf & _ & _).
  destruct (train_compare_ranges_effect _ _ _ H) as (_ & _ & _ & _ & _ & Hbox & _).
  destruct (lookup_lt_is_Some_2 feature_nodes i) as [f Ef]; [lia|].
  destruct (Hbox i f lo hi Hi Ef El Eh) as [E1 E2].
  rewrite E1 in El'. injection El' as <-. rewrite E2 in Eh'. injection Eh' as <-.
  unfold point_le, point_min, point_max. simpl.
  split; [lia|]. split; [lia|].
  intros f' Ef'. rewrite Ef in Ef'. injection Ef' as <-. lia.
Qed.

Lemma train_all_lengths (skeletons : list (list Point)) :
  forall self self', train_all self skeletons = Ok self' ->
  length (min_range self') = length (min_range self) /\
  length (max_range self') = length (max_range self).
Proof.
  induction skeletons as [|S rest IH]; intros self self' H.
  - injection H as <-. auto.
  - simpl in H. apply bind_Ok in H as (self1 & H1 & H).
    destruct (train_compare_ranges_effect _ _ _ H1) as (L1 & L2 & _).
    destruct (IH _ _ H) as [L3 L4]. lia.
Qed.

Lemma train_all_grows (skeletons : list (list Point)) :
  forall self self', train_all self skeletons = Ok self' ->
  forall (i : nat) lo hi lo' hi', (i < 11)%nat ->
  min_range self !! i = Some lo -> max_range self !! i = Some hi ->
  min_range self' !! i = Some lo' -> max_range self' !! i = Some hi' ->
  point_le lo' lo /\ point_le hi hi'.
Proof.
  induction skeletons as [|S rest IH];
    intros self self' H i lo hi lo' hi' Hi El Eh El' Eh'.
  - injection H as <-. rewrite El in El'. rewrite Eh in Eh'.
    injection El' as <-. injection Eh' as <-. unfold point_le. lia.
  - simpl in H. apply bind_Ok in H as (self1 & H1 & H).
    destruct (train_compare_ranges_effect _ _ _ H1) as (L1 & L2 & _).
    apply lookup_lt_Some in El as Hl. apply lookup_lt_Some in Eh as Hh.
    destruct (lookup_lt_is_Some_2 (min_range self1) i) as [lo1 El1]; [lia|].
    destruct (lookup_lt_is_Some_2 (max_range self1) i) as [hi1 Eh1]; [lia|].
    destruct (train_compare_ranges_grows _ _ _ H1 i lo hi lo1 hi1 Hi El Eh El1 Eh1)
      as (A & B & _).
    destruct (IH _ _ H i lo1 hi1 lo' hi' Hi El1 Eh1 El' Eh') as [C D].
    unfold point_le in *. lia.
Qed.

(** Every landmark folded in by a run of [train_all] lies in the closed box
    of its index afterwards. *)
Lemma train_all_inside (skeletons : list (list Point)) :
  forall self self', train_all self skeletons = Ok self' ->
  forall feature_nodes (i : nat) f lo hi,
    In feature_nodes skeletons -> (i < 11)%nat ->
    feature_nodes !! i = Some f ->
    min_range self' !! i = Some lo -> max_range self' !! i = Some hi ->
    point_le lo f /\ point_le f hi /\ point_le lo hi.
Proof.
  induction skeletons as [|S rest IH];
    intros self self' H nodes i f lo hi Hin Hi Ef El Eh; [destruct Hin|].
  simpl in H. apply bind_Ok in H as (self1 & H1 & H).
  assert (Hgoal : point_le lo f /\ point_le f hi).
  { destruct Hin as [<- | Hin].
    - destruct (train_compare_ranges_needs_11 _ _ _ H1) as (_ & Hlo & Hhi).
      destruct (train_compare_ranges_effect _ _ _ H1) as (L1 & L2 & _).
      destruct (lookup_lt_is_Some_2 (min_range self) i) as [lo0 El0]; [lia|].
      destruct (lookup_lt_is_Some_2 (max_range self) i) as [hi0 Eh0]; [lia|].
      destruct (lookup_lt_is_Some_2 (min_range self1) i) as [lo1 El1]; [lia|].
      destruct (lookup_lt_is_Some_2 (max_range self1) i) as [hi1 Eh1]; [lia|].
      destruct (train_compare_ranges_grows _ _ _ H1 i lo0 hi0 lo1 hi1 Hi El0 Eh0
                  El1 Eh1) as (_ & _ & Hf).
      destruct (Hf f Ef) as [A B].
      destruct (train_all_grows _ _ _ H i lo1 hi1 lo hi Hi El1 Eh1 El Eh)
        as [C D].
      unfold point_le in *. lia.
    - destruct (IH self1 self' H nodes i f lo hi Hin Hi Ef El Eh) as (A & B & _).
      auto. }
  destruct Hgoal as [A B]. repeat split; try apply A; try apply B;
    unfold point_le in *; lia.
Qed.

(** X4.  After any sequence of calls of train_compare_ranges, every landmark
    that was folded in lies in the closed box of its index, min <= landmark
    <= max in both coordinates, whatever the model was before; so after one
    call or more the minimum of a box is at most its maximum. *)
Theorem X4_trained_landmarks_inside_closed_box (self self' : PeopleFinder)
    (skeletons : list (list Point)) :
  train_all self skeletons = Ok self' ->
  forall feature_nodes (i : nat) f lo hi,
    In feature_nodes skeletons -> (i < 11)%nat ->
    feature_nodes !! i = Some f ->
    min_range self' !! i = Some lo -> max_range self' !! i = Some hi ->
    point_le lo f /\ point_le f hi /\ point_le lo hi.
Proof. apply train_all_inside. Qed.

Lemma filter_length_mono {A} (f g : A -> bool) (l : list A) :
  (forall a, In a l -> f a = true -> g a = true) ->
  (length (List.filter f l) <= length (List.filter g l))%nat.
Proof.
  induction l as [|a l IH]; intros H; [reflexivity|]. simpl.
  assert (IH' := IH (fun b Hb => H b (or_intror Hb))).
  destruct (f a) eqn:Ef.
  - rewrite (H a (or_introl eq_refl) Ef). simpl. lia.
  - destruct (g a); simpl; lia.
Qed.

Lemma verdict_of_mono (a b : Z) :
  a <= b ->
  (verdict_of a = "Pedestrian" -> verdict_of b = "Pedestrian") /\
  (verdict_of b = "Noise" -> verdict_of a = "Noise").
Proof.
  intros Hab.
  destruct (verdict_of_cases a) as (Pa & _ & Na).
  destruct (verdict_of_cases b) as (Pb & _ & Nb).
  split; intros H.
  - apply Pb. apply Pa in H. lia.
  - apply Na. apply Nb in H. lia.
Qed.

(** X5.  Folding a skeleton into the range model never takes a landmark out
    of a box: the score of every skeleton after the call is at least its
    score before, a "Pedestrian" stays a "Pedestrian" and what is "Noise"
    after the call was "Noise" before. *)
Theorem X5_training_never_lowers_a_score (self self' : PeopleFinder)
    (feature_nodes nodes : list Point) :
  train_compare_ranges self feature_nodes = Ok self' ->
  (11 <= length nodes)%nat ->
  exists score score',
    feature_score self nodes = Ok score /\
    feature_score self' nodes = Ok score' /\
    score <= score' /\
    judge_features self nodes = Ok (verdict_of score) /\
    judge_features self' nodes = Ok (verdict_of score') /\
    (verdict_of score = "Pedestrian" -> verdict_of score' = "Pedestrian") /\
    (verdict_of score' = "Noise" -> verdict_of score = "Noise").
Proof.
  intros H Hn.
  destruct (train_compare_ranges_needs_11 _ _ _ H) as (Hf & Hlo & Hhi).
  destruct (train_compare_ranges_effect _ _ _ H) as (L1 & L2 & _).
  exists (contained_count self nodes), (contained_count self' nodes).
  assert (Hs : feature_score self nodes = Ok (contained_count self nodes))
    by (apply feature_score_count; assumption).
  assert (Hs' : feature_score self' nodes = Ok (contained_count self' nodes))
    by (apply feature_score_count; lia).
  assert (Hle : contained_count self nodes <= contained_count self' nodes).
  { unfold contained_count. apply inj_le. apply filter_length_mono.
    intros i Hi%in_seq. unfold landmark_contained.
    destruct (nodes !! i) as [p|]; [|discriminate].
    unfold contains.
    destruct (min_range self !! i) as [lo|] eqn:El; [|discriminate].
    destruct (max_range self !! i) as [hi|] eqn:Eh; [|discriminate].
    apply lookup_lt_Some in El as Hl. apply lookup_lt_Some in Eh as Hh.
    destruct (lookup_lt_is_Some_2 (min_range self') i) as [lo' El']; [lia|].
    destruct (lookup_lt_is_Some_2 (max_range self') i) as [hi' Eh']; [lia|].
    rewrite El', Eh'.
    destruct (train_compare_ranges_grows _ _ _ H i lo hi lo' hi' ltac:(lia)
                El Eh El' Eh') as (A & B & _).
    rewrite !is_within_bound_spec. unfold point_le in *. lia. }
  split; [exact Hs|]. split; [exact Hs'|]. split; [exact Hle|].
  split; [unfold judge_features; rewrite Hs; reflexivity|].
  split; [unfold judge_features; rewrite Hs'; reflexivity|].
  apply verdict_of_mono. exact Hle.
Qed.

Lemma init_loop (mn0 mx0 : list Point) :
  (11 <= length mn0)%nat -> (11 <= length mx0)%nat ->
  exists s,
    for_ 11 0 (fun i '(mn, mx) =>
      mn' ← idx_set mn i (mkPoint 1000 1000);
      mx' ← idx_set mx i (mkPoint 0 0);
      Ok (mn', mx')) (mn0, mx0) = Ok s /\
    reset_below mn0 mx0 11 s.
Proof.
  intros Hlo Hhi. apply (for_total (reset_below mn0 mx0) _ 11 0).
  - intros i [mn mx] Hi (Hl1 & Hl2 & Hinv). cbn [fst snd] in *.
    set (k := Z.to_nat i). replace i with (Z.of_nat k) by lia.
    rewrite idx_set_of_nat by lia. simpl mbind.
    rewrite idx_set_of_nat by lia. simpl mbind.
    eexists. split; [reflexivity|].
    unfold reset_below. cbn [fst snd]. rewrite !length_insert.
    split; [exact Hl1|]. split; [exact Hl2|].
    intros j. rewrite !list_lookup_insert. split.
    + intros Hj. destruct (decide (k = j)) as [<-|Hne].
      * rewrite !decide_True by (split; [reflexivity | lia]). auto.
      * rewrite !decide_False by (intros [? _]; contradiction).
        destruct (Hinv j) as [Hdone _]. apply Hdone. lia.
    + intros Hj. rewrite !decide_False by (intros [? _]; lia).
      destruct (Hinv j) as [_ Hrest]. apply Hrest. lia.
  - unfold reset_below. cbn [fst snd]. split; [reflexivity|].
    split; [reflexivity|]. intros j. split; [lia | auto].
Qed.

Lemma init_needs_11 (self self' : PeopleFinder) :
  init self = Ok self' ->
  (11 <= length (min_range self))%nat /\ (11 <= length (max_range self))%nat.
Proof.
  unfold init. intros H. apply bind_Ok in H as ([mn mx] & Hloop & _).
  apply (for_inv (fun i (s : list Point * list Point) =>
           i <= Z.of_nat (length (min_range self)) /\
           i <= Z.of_nat (length (max_range self)) /\
           length s.1 = length (min_range self) /\
           length s.2 = length (max_range self))) in Hloop.
  - lia.
  - intros i [a b] [a' b'] (_ & _ & Ha & Hb) Hbody. cbn [fst snd] in *.
    apply bind_Ok in Hbody as (a1 & [Hia ->]%idx_set_Ok & Hbody).
    apply bind_Ok in Hbody as (b1 & [Hib ->]%idx_set_Ok & [= <- <-]).
    rewrite !length_insert. lia.
  - cbn [fst snd]. lia.
Qed.

(** X6.  init returns exactly when both range vectors have 11 entries or
    more.  It then sets the boxes 0..10 to min = (1000,1000), max = (0,0), the
    empty extent, and leaves the entries from 11 on, the path, the flag and
    the verdicts as they were: init does not lower a raised flag. *)
Theorem X6_init_resets_eleven_boxes (self : PeopleFinder) :
  ((exists self', init self = Ok self') <->
   (11 <= length (min_range self))%nat /\
   (11 <= length (max_range self))%nat) /\
  forall self', init self = Ok self' ->
    length (min_range self') = length (min_range self) /\
    length (max_range self') = length (max_range self) /\
    training_path self' = training_path self /\
    bad_skel_flag self' = bad_skel_flag self /\
    verdicts self' = verdicts self /\
    (forall i : nat, (i < 11)%nat ->
       min_range self' !! i = Some (mkPoint 1000 1000) /\
       max_range self' !! i = Some (mkPoint 0 0)) /\
    (forall i : nat, (11 <= i)%nat ->
       min_range self' !! i = min_range self !! i /\
       max_range self' !! i = max_range self !! i).
Proof.
  assert (Hrun : (11 <= length (min_range self))%nat ->
                 (11 <= length (max_range self))%nat ->
                 exists s, init self = Ok (set_ranges self s.1 s.2) /\
                           reset_below (min_range self) (max_range self) 11 s).
  { intros Hlo Hhi. destruct (init_loop _ _ Hlo Hhi) as ([mn mx] & Hloop & Hw).
    exists (mn, mx). split; [|exact Hw]. unfold init. rewrite Hloop.
    reflexivity. }
  split.
  - split.
    + intros [self' H]. apply (init_needs_11 _ _ H).
    + intros [Hlo Hhi]. destruct (Hrun Hlo Hhi) as (s & H & _).
      eexists. exact H.
  - intros self' H. destruct (init_needs_11 _ _ H) as [Hlo Hhi].
    destruct (Hrun Hlo Hhi) as ([mn mx] & H' & Hl1 & Hl2 & Hw).
    rewrite H' in H. injection H as <-.
    cbn [fst snd set_ranges min_range max_range training_path bad_skel_flag
         verdicts] in *.
    repeat (split; [first [assumption | reflexivity]|]). split.
    + intros i Hi. destruct (Hw i) as [Hdone _]. apply Hdone. lia.
    + intros i Hi. destruct (Hw i) as [_ Hrest]. apply Hrest. lia.
Qed.

(** The model init leaves contains no landmark at all. *)
Lemma init_judges_noise (self0 self : PeopleFinder) (nodes : list Point) :
  init self0 = Ok self -> (11 <= length nodes)%nat ->
  (forall i landmark, (i < 11)%nat -> contains self landmark i = false) /\
  feature_score self nodes = Ok 0 /\
  judge_features self nodes = Ok "Noise".
Proof.
  intros Hinit Hn.
  assert (Hnone : forall i landmark, (i < 11)%nat ->
            contains self landmark i = false).
  { intros i p Hi. unfold contains.
    destruct (init_ranges _ _ Hinit i Hi) as [-> ->].
    apply not_true_is_false. rewrite is_within_bound_spec. simpl. lia. }
  split; [exact Hnone|].
  assert (Hs : feature_score self nodes = Ok 0).
  { rewrite feature_score_count; [|exact Hn| |].
    - unfold contained_count. rewrite filter_all_false; [reflexivity|].
      intros i Hi%in_seq. unfold landmark_contained.
      destruct (nodes !! i); [apply Hnone; lia | reflexivity].
    - destruct (init_ranges _ _ Hinit 10%nat ltac:(lia)) as [H%lookup_lt_Some _].
      lia.
    - destruct (init_ranges _ _ Hinit 10%nat ltac:(lia)) as [_ H%lookup_lt_Some].
      lia. }
  split; [exact Hs|]. unfold judge_features. rewrite Hs. reflexivity.
Qed.

Section TrainingFacts.

Context {double : Type} (sqrt : Z -> double).
Context (find_elbow_feature :
  list Point -> Point -> Point -> Point -> Z -> double -> Point -> Z ->
  res (Point * bool)).
Context (find_hand_feature :
  list Point -> list Point -> Point -> Point -> Z -> double -> Point ->
  Mat -> Z -> res (Point * bool)).
Context (draw_skeleton : Mat -> list Point -> res (Mat * bool)).
Context {BlobDetector : Type}.
Context (highlight_contours :
  BlobDetector -> Mat -> Mat -> BlobDetector * Mat * Mat).

Local Abbreviation the_train :=
  (train double sqrt find_elbow_feature find_hand_feature draw_skeleton
     BlobDetector highlight_contours).
(** X7.  Trained on a vector whose first image has no rows (no training image
    was loaded), train returns the model init leaves, with the flag as the
    object was constructed.  That classifier contains no landmark: it scores
    every skeleton 0 and judges it "Noise". *)
Theorem X7_untrained_classifier_judges_noise (self self' : PeopleFinder)
    (images : list Mat) (contoursonly first : Mat) (bd : BlobDetector)
    (nodes : list Point) :
  idx images 0 = Ok first -> rows first = 0 ->
  the_train self images contoursonly bd = Ok self' ->
  (11 <= length nodes)%nat ->
  init self = Ok self' /\
  bad_skel_flag self' = bad_skel_flag self /\
  (forall i landmark, (i < 11)%nat -> contains self' landmark i = false) /\
  feature_score self' nodes = Ok 0 /\
  judge_features self' nodes = Ok "Noise".
Proof.
  intros Hfirst Hrows Htrain Hn. unfold train in Htrain.
  apply bind_Ok in Htrain as (self1 & Hinit & Htrain).
  unfold vec_fuel in Htrain. rewrite while_false_step in Htrain.
  - simpl in Htrain. injection Htrain as <-.
    split; [exact Hinit|]. split.
    + unfold init in Hinit. apply bind_Ok in Hinit as ([a b] & _ & [= <-]).
      reflexivity.
    + apply (init_judges_noise _ _ _ Hinit Hn).
  - unfold train_cond. cbn [tr_images tr_i]. rewrite Hfirst. simpl.
    rewrite Hrows. reflexivity.
Qed.

End TrainingFacts.

(** ** The fitter and the drivers *)

(** The landmark and the index find_waist_feature returns do not depend on
    the flag it is given. *)
Lemma find_waist_feature_any_flag (shape_pixels : list Point) (threshold : Z)
    (torso_feature : Point) (index_torso index_waist : Z) (flag flag2 : bool)
    (waist : Point) (index_waist' : Z) (flag' : bool) :
  find_waist_feature shape_pixels threshold torso_feature index_torso
    index_waist flag = Ok (waist, index_waist', flag') ->
  find_waist_feature shape_pixels threshold torso_feature index_torso
    index_waist flag2 = Ok (waist, index_waist', flag2).
Proof.
  unfold find_waist_feature. intros H.
  apply bind_Ok in H as (p0 & Hp0 & H).
  apply bind_Ok in H as ([s b] & Htry & [= <- <- _]).
  rewrite (bind_Ok_l _ _ _ Hp0).
  pose proof (waist_try_no_exception shape_pixels
    ((if 64 <? x torso_feature then x torso_feature + 1 else 64) + threshold)
    80 index_torso index_waist flag) as Hne.
  unfold try_catch in Htry.
  match type of Htry with
  | match ?m with _ => _ end = _ => destruct m as [[s1 b1]|f] eqn:Em
  end; [|destruct f; try discriminate; contradiction].
  injection Htry as -> ->.
  apply bind_Ok in Em as (i & Hi & Em).
  apply bind_Ok in Em as (p & Hp & Em).
  apply bind_Ok in Em as (s2 & Hs2 & [= -> _]).
  cbv zeta. rewrite (bind_Ok_l _ _ _ Hi), (bind_Ok_l _ _ _ Hp),
    (bind_Ok_l _ _ _ Hs2).
  reflexivity.
Qed.

Section DriverFacts.

Context {double : Type} (sqrt : Z -> double).
Context (find_elbow_feature :
  list Point -> Point -> Point -> Point -> Z -> double -> Point -> Z ->
  res (Point * bool)).
Context (find_hand_feature :
  list Point -> list Point -> Point -> Point -> Z -> double -> Point ->
  Mat -> Z -> res (Point * bool)).
Context (draw_skeleton : Mat -> list Point -> res (Mat * bool)).

Local Abbreviation the_fitter :=
  (create_skeleton double sqrt find_elbow_feature find_hand_feature
     draw_skeleton).
Local Abbreviation the_test :=
  (test double sqrt find_elbow_feature find_hand_feature draw_skeleton).
Local Abbreviation the_test_body :=
  (test_body double sqrt find_elbow_feature find_hand_feature draw_skeleton).
Local Abbreviation the_test_inv :=
  (test_inv double sqrt find_elbow_feature find_hand_feature draw_skeleton).

(** create_skeleton touches the flag of the object and nothing else of it,
    and what it returns besides the flag does not depend on the object. *)
Lemma create_skeleton_any_self (self self2 : PeopleFinder) (img : Mat)
    (out : fit) :
  the_fitter self img = Ok out ->
  exists b b2,
    f_self out = set_flag self b /\
    (bad_skel_flag self = true -> b = true) /\
    length (f_nodes out) = 11%nat /\
    the_fitter self2 img
    = Ok (mkFit (f_nodes out) (set_flag self2 b2) (f_image out) (f_calls out)).
Proof.
  unfold create_skeleton. intros H.
  apply bind_Ok in H as ([img1 log] & Hf & H).
  apply bind_Ok in H as (valid & Hv & H).
  rewrite (bind_Ok_l _ _ _ Hf). cbv beta iota.
  rewrite (bind_Ok_l _ _ _ Hv).
  destruct valid.
  - apply bind_Ok in H as ([sp op] & Hhp & H).
    apply bind_Ok in H as ([n0 ih] & Hhead & H).
    apply bind_Ok in H as ([n1 it] & Htorso & H).
    rewrite (bind_Ok_l _ _ _ Hhp). cbv beta iota.
    rewrite (bind_Ok_l _ _ _ Hhead). cbv beta iota.
    rewrite (bind_Ok_l _ _ _ Htorso). cbv beta iota zeta.
    destruct (is_within_bound n1 0 0 (rows img1) (cols img1)).
    + apply bind_Ok in H as ([[n2 iw] flag] & Hw & H).
      pose proof (find_waist_feature_any_flag _ _ _ _ _ _ (bad_skel_flag self2)
                    _ _ _ Hw) as Hw2.
      rewrite (bind_Ok_l _ _ _ Hw2). cbv beta iota.
      destruct (calc_halfway_torso_dist double sqrt n1 n2) as [hn hd].
      apply bind_Ok in H as (n3 & H3 & H).
      apply bind_Ok in H as (n4 & H4 & H).
      apply bind_Ok in H as ([[[n5 n6] aw] ish] & H5 & H).
      apply bind_Ok in H as ([n7 r7] & H7 & H).
      apply bind_Ok in H as ([n8 r8] & H8 & H).
      apply bind_Ok in H as ([n9 r9] & H9 & H).
      apply bind_Ok in H as ([n10 r10] & H10 & H).
      apply bind_Ok in H as ([img2 r] & Hd & [= <-]).
      rewrite (bind_Ok_l _ _ _ H3), (bind_Ok_l _ _ _ H4),
        (bind_Ok_l _ _ _ H5). cbv beta iota.
      rewrite (bind_Ok_l _ _ _ H7). cbv beta iota.
      rewrite (bind_Ok_l _ _ _ H8). cbv beta iota.
      rewrite (bind_Ok_l _ _ _ H9). cbv beta iota.
      rewrite (bind_Ok_l _ _ _ H10). cbv beta iota.
      rewrite (bind_Ok_l _ _ _ Hd). cbv beta iota.
      cbn [f_nodes f_self f_image f_calls].
      eexists _, _. split; [reflexivity|]. split.
      * intros Hflag. apply find_waist_feature_flag in Hw as [->| ->];
          [rewrite Hflag|]; reflexivity.
      * split; reflexivity.
    + injection H as <-. cbn [f_nodes f_self f_image f_calls].
      exists true, true. repeat split; reflexivity.
  - injection H as <-. cbn [f_nodes f_self f_image f_calls].
    exists true, true. repeat split; reflexivity.
Qed.

(** X8.  create_skeleton returns a vector of 11 landmarks; of the object it
    changes the flag only, and only by raising it; the landmarks, the image
    it leaves and the calls it makes are the same whatever object it is
    called on, trained or not, flagged or not. *)
Theorem X8_create_skeleton_touches_only_the_flag (self self2 : PeopleFinder)
    (img : Mat) (out : fit) :
  the_fitter self img = Ok out ->
  length (f_nodes out) = 11%nat /\
  min_range (f_self out) = min_range self /\
  max_range (f_self out) = max_range self /\
  training_path (f_self out) = training_path self /\
  verdicts (f_self out) = verdicts self /\
  (bad_skel_flag self = true -> bad_skel_flag (f_self out) = true) /\
  exists out2,
    the_fitter self2 img = Ok out2 /\
    f_nodes out2 = f_nodes out /\ f_image out2 = f_image out /\
    f_calls out2 = f_calls out.
Proof.
  intros H.
  destruct (create_skeleton_any_self self self2 img out H)
    as (b & b2 & Hself & Hflag & Hlen & H2).
  rewrite Hself. cbn [set_flag min_range max_range training_path verdicts
                      bad_skel_flag].
  repeat (split; [first [assumption | reflexivity]|]).
  eexists. split; [exact H2|]. repeat split; reflexivity.
Qed.

Lemma judge_features_same_ranges (a b : PeopleFinder) (nodes : list Point) :
  min_range a = min_range b -> max_range a = max_range b ->
  judge_features a nodes = judge_features b nodes.
Proof.
  intros Hmn Hmx. unfold judge_features, feature_score. rewrite Hmn, Hmx.
  reflexivity.
Qed.

Lemma test_body_keeps_inv (self : PeopleFinder) (shapes : list Mat)
    (s s' : Z * PeopleFinder * list Mat) :
  the_test_inv self shapes s -> test_cond s = Ok true -> the_test_body s = Ok s' ->
  the_test_inv self shapes s'.
Proof.
  destruct s as [[i selfi] shapesi].
  intros (Hi & Hmn & Hmx & Hp & Hlen & Hflag & Hsl & Hdone & Hrest) Hcond Hbody.
  unfold test_cond in Hcond. apply bind_Ok in Hcond as (img0 & Himg0 & [= Hrows]).
  unfold test_body in Hbody.
  apply bind_Ok in Hbody as (img & Himg & Hbody).
  rewrite Himg in Himg0. injection Himg0 as <-.
  apply bind_Ok in Hbody as (out & Hfit & Hbody).
  apply bind_Ok in Hbody as (shapes1 & [Hib ->]%idx_set_Ok & Hbody).
  apply bind_Ok in Hbody as (verdict & Hjudge & Hbody).
  apply bind_Ok in Hbody as (v & [Hiv ->]%idx_set_Ok & [= <-]).
  destruct (create_skeleton_any_self selfi self img out Hfit)
    as (b & b2 & Hself & Hb & _ & Hfit2).
  rewrite Hself in *. cbn [set_flag verdicts min_range max_range] in *.
  apply idx_Ok in Himg as [_ Himg].
  set (k := Z.to_nat i) in *.
  destruct (Hrest k ltac:(lia)) as [_ Horig].
  unfold test_inv.
  cbn [set_verdicts set_flag min_range max_range training_path verdicts
       bad_skel_flag].
  rewrite !length_insert.
  split; [lia|]. repeat (split; [assumption|]).
  split; [intros Hf; apply Hb, Hflag, Hf|]. split; [exact Hsl|].
  split.
  - intros j Hj. destruct (decide (j = k)) as [->|Hne].
    + exists img. eexists. exists verdict.
      split; [congruence|]. split.
      { apply negb_true_iff, Z.eqb_neq in Hrows. exact Hrows. }
      split; [exact Hfit2|]. cbn [f_nodes f_image].
      split.
      { rewrite <- Hjudge. apply judge_features_same_ranges; symmetry;
          assumption. }
      split; apply list_lookup_insert_eq; lia.
    + destruct (Hdone j ltac:(lia)) as (img' & out' & v' & A & B & C & D & E & F).
      exists img', out', v'. repeat (split; [assumption|]).
      rewrite !list_lookup_insert_ne by lia. auto.
  - intros j Hj. destruct (Hrest j ltac:(lia)) as [A B].
    rewrite !list_lookup_insert_ne by lia. auto.
Qed.

(** X9.  test returns only when a shape without rows stands among the first
    21 entries of the vector, and stops at the first one, of index [n].  The
    verdicts get_verdicts returns afterwards are aligned with the shapes:
    entry [i] below [n] is the verdict judge_features gives the skeleton
    create_skeleton fits to shape [i], the entries from [n] to 19 are empty
    strings.  The shapes below [n] are left as create_skeleton repainted
    them, the others untouched.  test does not change the range model and
    never lowers the flag get_bad_flag returns: a flag raised by one shape
    stays raised for the later ones. *)
Theorem X9_test_verdicts_aligned (self self' : PeopleFinder)
    (shapes shapes' : list Mat) :
  the_test self shapes = Ok (self', shapes') ->
  min_range self' = min_range self /\
  max_range self' = max_range self /\
  training_path self' = training_path self /\
  length (get_verdicts self') = 20%nat /\
  length shapes' = length shapes /\
  (get_bad_flag self = true -> get_bad_flag self' = true) /\
  exists n : nat,
    (n <= 20)%nat /\
    (exists last, shapes !! n = Some last /\ rows last = 0) /\
    (forall i : nat, (i < n)%nat ->
       exists img out verdict,
         shapes !! i = Some img /\ rows img <> 0 /\
         the_fitter self img = Ok out /\
         judge_features self (f_nodes out) = Ok verdict /\
         get_verdicts self' !! i = Some verdict /\
         shapes' !! i = Some (f_image out)) /\
    (forall i : nat, (n <= i < 20)%nat ->
       get_verdicts self' !! i = Some EmptyString) /\
    (forall i : nat, (n <= i)%nat -> shapes' !! i = shapes !! i).
Proof.
  unfold get_verdicts, get_bad_flag, test. intros H.
  apply bind_Ok in H as ([[i selfn] shapesn] & Hloop & [= <- <-]).
  apply (while_inv (the_test_inv self shapes)) in Hloop as [Hinv Hcond].
  - destruct Hinv as (Hi & Hmn & Hmx & Hp & Hlen & Hflag & Hsl & Hdone & Hrest).
    repeat (split; [assumption|]).
    unfold test_cond in Hcond.
    apply bind_Ok in Hcond as (last & [_ Hlast]%idx_Ok & [= Hrows]).
    apply negb_false_iff, Z.eqb_eq in Hrows.
    exists (Z.to_nat i).
    assert (Hn : (Z.to_nat i <= 20)%nat).
    { destruct (Nat.le_gt_cases (Z.to_nat i) 20) as [?|Hgt]; [assumption|].
      destruct (Hdone 20%nat ltac:(lia)) as (_ & _ & v & _ & _ & _ & _ & Hv & _).
      apply lookup_lt_Some in Hv. lia. }
    split; [exact Hn|]. split.
    { exists last. destruct (Hrest (Z.to_nat i) ltac:(lia)) as [_ <-]. auto. }
    split; [intros j Hj; apply Hdone; lia|].
    split; intros j Hj; destruct (Hrest j ltac:(lia)) as [A B];
      [apply A; lia | exact B].
  - intros s s'. apply test_body_keeps_inv.
  - unfold test_inv. cbn [set_verdicts min_range max_range training_path
                          verdicts bad_skel_flag].
    split; [lia|]. repeat (split; [reflexivity|]).
    split; [auto|]. split; [reflexivity|]. split; [intros j Hj; lia|].
    intros j _. split; [|reflexivity].
    intros Hj. apply lookup_replicate_2. exact Hj.
Qed.

Lemma train_all_app (l1 l2 : list (list Point)) :
  forall self, train_all self (l1 ++ l2)
               = (m ← train_all self l1; train_all m l2).
Proof.
  induction l1 as [|S l1 IH]; intros self; [reflexivity|].
  simpl. destruct (train_compare_ranges self S) as [self1|f]; simpl;
    [apply IH | reflexivity].
Qed.

Lemma train_compare_ranges_same_ranges (a b a' : PeopleFinder)
    (feature_nodes : list Point) :
  min_range a = min_range b -> max_range a = max_range b ->
  train_compare_ranges a feature_nodes = Ok a' ->
  exists b', train_compare_ranges b feature_nodes = Ok b' /\
             min_range a' = min_range b' /\ max_range a' = max_range b'.
Proof.
  unfold train_compare_ranges. intros Hmn Hmx H. rewrite <- Hmn, <- Hmx.
  apply bind_Ok in H as ([mn mx] & Hloop & [= <-]). rewrite Hloop.
  eexists. split; [reflexivity|]. split; reflexivity.
Qed.

Lemma train_all_same_ranges (l : list (list Point)) :
  forall a b m,
  min_range a = min_range b -> max_range a = max_range b ->
  train_all a l = Ok m ->
  exists m', train_all b l = Ok m' /\
             min_range m = min_range m' /\ max_range m = max_range m'.
Proof.
  induction l as [|S l IH]; intros a b m Hmn Hmx H.
  - injection H as <-. exists b. auto.
  - simpl in H. apply bind_Ok in H as (a1 & Ha & H).
    destruct (train_compare_ranges_same_ranges a b a1 S Hmn Hmx Ha)
      as (b1 & Hb & E1 & E2).
    simpl. rewrite (bind_Ok_l _ _ _ Hb). exact (IH a1 b1 m E1 E2 H).
Qed.

(** create_skeleton reads of the object the flag only. *)
Lemma create_skeleton_same_flag (self self2 : PeopleFinder) (img : Mat)
    (out : fit) :
  the_fitter self img = Ok out ->
  bad_skel_flag self2 = bad_skel_flag self ->
  the_fitter self2 img
  = Ok (mkFit (f_nodes out) (set_flag self2 (bad_skel_flag (f_self out)))
          (f_image out) (f_calls out)).
Proof.
  unfold create_skeleton. intros H E. rewrite E.
  apply bind_Ok in H as ([img1 log] & Hf & H).
  apply bind_Ok in H as (valid & Hv & H).
  rewrite (bind_Ok_l _ _ _ Hf). cbv beta iota.
  rewrite (bind_Ok_l _ _ _ Hv).
  destruct valid.
  - apply bind_Ok in H as ([sp op] & Hhp & H).
    apply bind_Ok in H as ([n0 ih] & Hhead & H).
    apply bind_Ok in H as ([n1 it] & Htorso & H).
    rewrite (bind_Ok_l _ _ _ Hhp). cbv beta iota.
    rewrite (bind_Ok_l _ _ _ Hhead). cbv beta iota.
    rewrite (bind_Ok_l _ _ _ Htorso). cbv beta iota zeta.
    destruct (is_within_bound n1 0 0 (rows img1) (cols img1)).
    + apply bind_Ok in H as ([[n2 iw] flag] & Hw & H).
      rewrite (bind_Ok_l _ _ _ Hw). cbv beta iota.
      destruct (calc_halfway_torso_dist double sqrt n1 n2) as [hn hd].
      apply bind_Ok in H as (n3 & H3 & H).
      apply bind_Ok in H as (n4 & H4 & H).
      apply bind_Ok in H as ([[[n5 n6] aw] ish] & H5 & H).
      apply bind_Ok in H as ([n7 r7] & H7 & H).
      apply bind_Ok in H as ([n8 r8] & H8 & H).
      apply bind_Ok in H as ([n9 r9] & H9 & H).
      apply bind_Ok in H as ([n10 r10] & H10 & H).
      apply bind_Ok in H as ([img2 r] & Hd & [= <-]).
      rewrite (bind_Ok_l _ _ _ H3), (bind_Ok_l _ _ _ H4),
        (bind_Ok_l _ _ _ H5). cbv beta iota.
      rewrite (bind_Ok_l _ _ _ H7). cbv beta iota.
      rewrite (bind_Ok_l _ _ _ H8). cbv beta iota.
      rewrite (bind_Ok_l _ _ _ H9). cbv beta iota.
      rewrite (bind_Ok_l _ _ _ H10). cbv beta iota.
      rewrite (bind_Ok_l _ _ _ Hd). cbv beta iota.
      reflexivity.
    + injection H as <-. reflexivity.
  - injection H as <-. reflexivity.
Qed.

Lemma set_flag_same (self : PeopleFinder) :
  set_flag self (bad_skel_flag self) = self.
Proof. destruct self. reflexivity. Qed.

Section TrainLoop.

Context {BlobDetector : Type}.
Context (highlight_contours :
  BlobDetector -> Mat -> Mat -> BlobDetector * Mat * Mat).

Local Abbreviation the_train :=
  (train double sqrt find_elbow_feature find_hand_feature draw_skeleton
     BlobDetector highlight_contours).
Local Abbreviation the_train_body :=
  (train_body double sqrt find_elbow_feature find_hand_feature draw_skeleton
     BlobDetector highlight_contours).
Local Abbreviation the_kept_skeletons :=
  (kept_skeletons double sqrt find_elbow_feature find_hand_feature
     draw_skeleton BlobDetector highlight_contours).

(** The loop of train from a state on: the skeletons it keeps of the images
    not yet read are those [kept_skeletons] lists, and it folds them into the
    ranges of the state one after the other. *)
Lemma train_loop_kept (self0 : PeopleFinder) (fuel : nat) :
  forall (s s_end : train_state BlobDetector),
  while_ fuel train_cond the_train_body s = Ok s_end ->
  0 <= tr_i s ->
  exists kept m,
    the_kept_skeletons self0 (bad_skel_flag (tr_self s))
      (drop (Z.to_nat (tr_i s)) (tr_images s)) (tr_contoursonly s) (tr_bd s)
    = Ok kept /\
    train_all (tr_self s) kept = Ok m /\
    min_range (tr_self s_end) = min_range m /\
    max_range (tr_self s_end) = max_range m /\
    training_path (tr_self s_end) = training_path (tr_self s) /\
    verdicts (tr_self s_end) = verdicts (tr_self s) /\
    tr_i s <= tr_i s_end /\
    (tr_i s_end = tr_i s -> s_end = s) /\
    (tr_i s < tr_i s_end -> bad_skel_flag (tr_self s_end) = false).
Proof.
  induction fuel as [|fuel IH]; intros s s_end Hrun Hi; [discriminate|].
  rewrite while_step in Hrun. apply bind_Ok in Hrun as (b & Hc & Hrun).
  unfold train_cond in Hc. apply bind_Ok in Hc as (img & Himg & [= Hb]).
  pose proof Himg as [_ Hlook]%idx_Ok.
  assert (Hdrop : drop (Z.to_nat (tr_i s)) (tr_images s)
                  = img :: drop (S (Z.to_nat (tr_i s))) (tr_images s)).
  { apply drop_S. exact Hlook. }
  rewrite Hdrop. cbn [kept_skeletons].
  destruct b.
  - apply negb_true_iff in Hb. rewrite Hb.
    apply bind_Ok in Hrun as (s1 & Hbody & Hrun).
    unfold train_body in Hbody.
    rewrite (bind_Ok_l _ _ _ Himg) in Hbody.
    destruct (highlight_contours (tr_bd s) img (tr_contoursonly s))
      as [[bd' img'] c'].
    apply bind_Ok in Hbody as (images' & [Hib ->]%idx_set_Ok & Hbody).
    apply bind_Ok in Hbody as (out & Hfit & Hbody).
    apply bind_Ok in Hbody as (self2 & Hkeep & [= <-]).
    destruct (IH _ _ Hrun) as (kept1 & m1 & Hk1 & Ha1 & Hmn1 & Hmx1 & Hp1 &
                               Hv1 & Hi1 & _ & _).
    { cbn [tr_i]. lia. }
    cbn [tr_i tr_self tr_images tr_contoursonly tr_bd set_flag bad_skel_flag
         min_range max_range training_path verdicts] in *.
    replace (Z.to_nat (tr_i s + 1)) with (S (Z.to_nat (tr_i s))) in Hk1 by lia.
    rewrite drop_insert_lt in Hk1 by lia.
    rewrite (create_skeleton_same_flag (tr_self s)
               (set_flag self0 (bad_skel_flag (tr_self s))) c' out Hfit
               eq_refl).
    cbn [mbind res_bind f_nodes f_self f_image set_flag bad_skel_flag].
    rewrite Hk1. cbn [mbind res_bind].
    destruct (create_skeleton_any_self (tr_self s) (tr_self s) c' out Hfit)
      as (b1 & _ & Hself & _ & _ & _).
    assert (Hmn : min_range (f_self out) = min_range (tr_self s))
      by (rewrite Hself; reflexivity).
    assert (Hmx : max_range (f_self out) = max_range (tr_self s))
      by (rewrite Hself; reflexivity).
    destruct (bad_skel_flag (f_self out)) eqn:Eflag; simpl negb in Hkeep;
      cbv iota in Hkeep.
    + injection Hkeep as <-.
      destruct (train_all_same_ranges kept1 (set_flag (f_self out) false)
                  (tr_self s) m1 Hmn Hmx Ha1)
        as (m & Hm & E1 & E2).
      exists kept1, m. split; [reflexivity|]. split; [exact Hm|].
      rewrite Hself in Hp1, Hv1.
      cbn [set_flag training_path verdicts] in Hp1, Hv1.
      split; [congruence|]. split; [congruence|].
      split; [exact Hp1|]. split; [exact Hv1|].
      split; [lia|]. split; [intros ?; lia | intros _].
      destruct (Z.eq_dec (tr_i s_end) (tr_i s + 1)) as [E|E].
      * destruct (IH _ _ Hrun ltac:(cbn [tr_i]; lia))
          as (_ & _ & _ & _ & _ & _ & _ & _ & _ & Hsame & _).
        rewrite (Hsame E). reflexivity.
      * destruct (IH _ _ Hrun ltac:(cbn [tr_i]; lia))
          as (_ & _ & _ & _ & _ & _ & _ & _ & _ & _ & Hdown).
        apply Hdown. cbn [tr_i]. lia.
    + destruct (train_compare_ranges_effect _ _ _ Hkeep)
        as (_ & _ & Hp2 & _ & Hv2 & _).
      destruct (train_compare_ranges_same_ranges _ (tr_self s) _ _ Hmn Hmx
                  Hkeep) as (a1 & Ha & E1 & E2).
      destruct (train_all_same_ranges kept1 (set_flag self2 false) a1 m1
                  E1 E2 Ha1)
        as (m & Hm & E3 & E4).
      exists (f_nodes out :: kept1), m. split; [reflexivity|].
      split; [simpl; rewrite (bind_Ok_l _ _ _ Ha); exact Hm|].
      rewrite Hself in Hp2, Hv2.
      cbn [set_flag training_path verdicts] in Hp2, Hv2.
      split; [congruence|]. split; [congruence|].
      split; [congruence|]. split; [congruence|].
      split; [lia|]. split; [intros ?; lia | intros _].
      destruct (Z.eq_dec (tr_i s_end) (tr_i s + 1)) as [E|E].
      * destruct (IH _ _ Hrun ltac:(cbn [tr_i]; lia))
          as (_ & _ & _ & _ & _ & _ & _ & _ & _ & Hsame & _).
        rewrite (Hsame E). reflexivity.
      * destruct (IH _ _ Hrun ltac:(cbn [tr_i]; lia))
          as (_ & _ & _ & _ & _ & _ & _ & _ & _ & _ & Hdown).
        apply Hdown. cbn [tr_i]. lia.
  - injection Hrun as <-. apply negb_false_iff in Hb. rewrite Hb.
    exists [], (tr_self s). do 6 (split; [reflexivity|]).
    split; [lia|]. split; [reflexivity | intros ?; lia].
Qed.

(** X10.  What train returns has the ranges of the model init leaves with
    the skeletons train keeps folded in one after the other by
    train_compare_ranges.  The skeletons kept are those create_skeleton fits
    to the contour images of the training images before the first one
    without rows, in their order, leaving out the fits that return with the
    flag raised; the fit of the first image is made with the flag the object
    was constructed with, the later ones with the flag down.  train keeps the
    path and the verdicts; the flag is down after it whenever the first image
    has rows; and every landmark of a kept skeleton lies in the closed box of
    its index. *)
Theorem X10_train_folds_the_kept_skeletons (self self' : PeopleFinder)
    (images : list Mat) (contoursonly : Mat) (bd : BlobDetector) :
  the_train self images contoursonly bd = Ok self' ->
  exists self1 kept m,
    init self = Ok self1 /\
    the_kept_skeletons self1 (bad_skel_flag self) images contoursonly bd
    = Ok kept /\
    train_all self1 kept = Ok m /\
    min_range self' = min_range m /\ max_range self' = max_range m /\
    training_path self' = training_path self /\
    verdicts self' = verdicts self /\
    (forall first, images !! 0%nat = Some first -> rows first <> 0 ->
       bad_skel_flag self' = false) /\
    (forall feature_nodes (i : nat) f lo hi,
       In feature_nodes kept -> (i < 11)%nat ->
       feature_nodes !! i = Some f ->
       min_range self' !! i = Some lo -> max_range self' !! i = Some hi ->
       point_le lo f /\ point_le f hi /\ point_le lo hi).
Proof.
  unfold train. intros H.
  apply bind_Ok in H as (self1 & Hinit & H).
  apply bind_Ok in H as (s & Hloop & [= <-]).
  pose proof Hinit as Hinit'. unfold init in Hinit'.
  apply bind_Ok in Hinit' as ([mn mx] & _ & [= Eself1]).
  assert (Hflag1 : bad_skel_flag self1 = bad_skel_flag self)
    by (rewrite <- Eself1; reflexivity).
  assert (Hpath1 : training_path self1 = training_path self)
    by (rewrite <- Eself1; reflexivity).
  assert (Hverd1 : verdicts self1 = verdicts self)
    by (rewrite <- Eself1; reflexivity).
  destruct (train_loop_kept self1 _ _ _ Hloop ltac:(cbn [tr_i]; lia))
    as (kept & m & Hk & Ha & Hmn & Hmx & Hp & Hv & Hi & Hsame & Hdown).
  cbn [tr_i tr_self tr_images tr_contoursonly tr_bd] in *.
  change (Z.to_nat 0) with 0%nat in Hk. rewrite drop_0, Hflag1 in Hk.
  exists self1, kept, m. split; [exact Hinit|]. split; [exact Hk|].
  split; [exact Ha|]. split; [exact Hmn|]. split; [exact Hmx|].
  split; [congruence|]. split; [congruence|]. split.
  - intros first Hfirst Hrows. apply Hdown.
    destruct (Z.eq_dec (tr_i s) 0) as [E|E]; [|lia]. exfalso.
    apply (while_inv (fun _ => True)) in Hloop as [_ Hcond]; [|auto|auto].
    rewrite (Hsame E) in Hcond. unfold train_cond in Hcond.
    cbn [tr_i tr_images] in Hcond.
    apply bind_Ok in Hcond as (img & [_ Himg]%idx_Ok & [= Hr]).
    apply negb_false_iff, Z.eqb_eq in Hr.
    change (Z.to_nat 0) with 0%nat in Himg. congruence.
  - intros nodes i f lo hi Hin Hlt Ef El Eh. rewrite Hmn in El.
    rewrite Hmx in Eh.
    apply (train_all_inside kept self1 m Ha nodes i f lo hi Hin Hlt Ef El Eh).
Qed.

End TrainLoop.

End DriverFacts.

(** ** The pixel lists *)

Lemma length_overwrite (l v : list Point) :
  (length l <= length v)%nat -> length (overwrite l v) = length v.
Proof.
  intros H. unfold overwrite. rewrite length_app, length_drop. lia.
Qed.

Lemma overwrite_snoc (l v : list Point) (p : Point) :
  (length l < length v)%nat ->
  <[length l := p]> (overwrite l v) = overwrite (l ++ [p]) v.
Proof.
  intros H. unfold overwrite.
  rewrite insert_app_r_alt by lia. rewrite Nat.sub_diag.
  destruct (drop (length l) v) as [|a rest] eqn:E.
  - apply (f_equal length) in E. rewrite length_drop in E. simpl in E. lia.
  - simpl. rewrite <- app_assoc. simpl. f_equal. f_equal.
    rewrite length_app. simpl.
    rewrite <- drop_drop. rewrite E. reflexivity.
Qed.

Lemma overwrite_lookup_lt (l v : list Point) (k : nat) :
  (k < length l)%nat -> overwrite l v !! k = l !! k.
Proof. intros H. unfold overwrite. apply lookup_app_l. exact H. Qed.

Lemma overwrite_lookup_ge (l v : list Point) (k : nat) :
  (length l <= k)%nat -> overwrite l v !! k = v !! k.
Proof.
  intros H. unfold overwrite. rewrite lookup_app_r by exact H.
  rewrite lookup_drop. f_equal. lia.
Qed.

Lemma cells_of_cons (img : Mat) (colour : Vec3b) (r c : Z) (cs : list Z) :
  cells_of img colour r (c :: cs)
  = cell_of img colour r c ++ cells_of img colour r cs.
Proof. reflexivity. Qed.

Lemma length_cell_of (img : Mat) (colour : Vec3b) (r c : Z) :
  (length (cell_of img colour r c) <= 1)%nat.
Proof.
  unfold cell_of. destruct (at_ img r c) as [v|]; simpl; [|lia].
  destruct (Vec3b_eqb v colour); simpl; lia.
Qed.

Section HighlightPixels.

Context (img : Mat) (sp0 op0 : list Point).
Hypothesis Hwf : Mat_wf img.

Local Abbreviation cell_body := (fun i j '(sp, op, k, m) =>
        v ← at_ img i j;
        '(sp, k) ← (if Vec3b_eqb v fill_colour
                    then sp' ← idx_set sp k (mkPoint i j); Ok (sp', k + 1)
                    else Ok (sp, k));
        v ← at_ img i j;
        '(op, m) ← (if Vec3b_eqb v outline_colour
                    then op' ← idx_set op m (mkPoint i j); Ok (op', m + 1)
                    else Ok (op, m));
        Ok (sp, op, k, m)).

Local Abbreviation recorded F O :=
  (overwrite F sp0, overwrite O op0, Z.of_nat (length F), Z.of_nat (length O)).

Lemma highlight_cell (i j : Z) (F O : list Point) :
  inside img i j = true ->
  (length (F ++ cell_of img fill_colour i j) <= length sp0)%nat ->
  (length (O ++ cell_of img outline_colour i j) <= length op0)%nat ->
  cell_body i j (recorded F O)
  = Ok (recorded (F ++ cell_of img fill_colour i j)
                 (O ++ cell_of img outline_colour i j)).
Proof.
  intros Hin HF HO. destruct (at_inside img i j Hwf Hin) as [v Hv].
  unfold cell_of in *. rewrite Hv in *.
  cbv beta iota. cbn [mbind res_bind].
  destruct (Vec3b_eqb v fill_colour).
  - rewrite length_app in HF. simpl in HF.
    rewrite (idx_set_of_nat (overwrite F sp0))
      by (rewrite length_overwrite; lia).
    rewrite overwrite_snoc by lia. cbn [mbind res_bind].
    destruct (Vec3b_eqb v outline_colour).
    + rewrite length_app in HO. simpl in HO.
      rewrite (idx_set_of_nat (overwrite O op0))
        by (rewrite length_overwrite; lia).
      rewrite overwrite_snoc by lia. cbn [mbind res_bind].
      rewrite !length_app. simpl. repeat f_equal; lia.
    + cbn [mbind res_bind]. rewrite !app_nil_r, length_app. simpl.
      repeat f_equal; lia.
  - cbn [mbind res_bind]. destruct (Vec3b_eqb v outline_colour).
    + rewrite length_app in HO. simpl in HO.
      rewrite (idx_set_of_nat (overwrite O op0))
        by (rewrite length_overwrite; lia).
      rewrite overwrite_snoc by lia. cbn [mbind res_bind].
      rewrite !app_nil_r, length_app. simpl. repeat f_equal; lia.
    + cbn [mbind res_bind]. rewrite !app_nil_r. reflexivity.
Qed.

Lemma highlight_row (i : Z) :
  0 <= i < rows img ->
  forall (n : nat) (j : Z) (F O : list Point),
  0 <= j -> j + Z.of_nat n <= cols img ->
  (length (F ++ cells_of img fill_colour i (seqZ j (Z.of_nat n)))
     <= length sp0)%nat ->
  (length (O ++ cells_of img outline_colour i (seqZ j (Z.of_nat n)))
     <= length op0)%nat ->
  for_ n j (cell_body i) (recorded F O)
  = Ok (recorded (F ++ cells_of img fill_colour i (seqZ j (Z.of_nat n)))
                 (O ++ cells_of img outline_colour i (seqZ j (Z.of_nat n)))).
Proof.
  intros Hi. induction n as [|n IH]; intros j F O Hj Hn HF HO.
  - simpl. rewrite !app_nil_r. reflexivity.
  - rewrite Nat2Z.inj_succ in *. rewrite seqZ_cons in * by lia.
    replace (Z.pred (Z.succ (Z.of_nat n))) with (Z.of_nat n) in * by lia.
    replace (Z.succ j) with (j + 1) in * by lia.
    rewrite !cells_of_cons in *. rewrite !app_assoc in *.
    cbn [for_].
    assert (Hcell := highlight_cell i j F O).
    rewrite (bind_Ok_l _ _ _ (Hcell
      ltac:(unfold inside; rewrite !andb_true_iff, !Z.leb_le, !Z.ltb_lt; lia)
      ltac:(rewrite length_app in HF; lia)
      ltac:(rewrite length_app in HO; lia))).
    apply IH; [lia | lia | exact HF | exact HO].
Qed.

Lemma highlight_rows :
  forall (n : nat) (i : Z) (F O : list Point),
  0 <= i -> i + Z.of_nat n <= rows img ->
  (length (F ++ rows_of img fill_colour i n) <= length sp0)%nat ->
  (length (O ++ rows_of img outline_colour i n) <= length op0)%nat ->
  for_ n i (fun i st => for_ (Z.to_nat (cols img)) 0 (cell_body i) st)
    (recorded F O)
  = Ok (recorded (F ++ rows_of img fill_colour i n)
                 (O ++ rows_of img outline_colour i n)).
Proof.
  unfold rows_of.
  induction n as [|n IH]; intros i F O Hi Hn HF HO.
  - simpl. rewrite !app_nil_r. reflexivity.
  - rewrite Nat2Z.inj_succ in *. rewrite (seqZ_cons i) in * by lia.
    replace (Z.pred (Z.succ (Z.of_nat n))) with (Z.of_nat n) in * by lia.
    replace (Z.succ i) with (i + 1) in * by lia.
    cbn [flat_map] in *. rewrite !app_assoc in *.
    cbn [for_].
    destruct Hwf as (_ & Hc & _).
    assert (Hrow := highlight_row i ltac:(lia) (Z.to_nat (cols img)) 0 F O
                      ltac:(lia) ltac:(lia)).
    rewrite Z2Nat.id in Hrow by lia.
    rewrite (bind_Ok_l _ _ _ (Hrow
      ltac:(rewrite length_app in HF; lia)
      ltac:(rewrite length_app in HO; lia))).
    apply IH; [lia | lia | exact HF | exact HO].
Qed.

Lemma highlight_cell_room (i j : Z) (F O : list Point)
    (s' : list Point * list Point * Z * Z) :
  inside img i j = true ->
  (length F <= length sp0)%nat -> (length O <= length op0)%nat ->
  cell_body i j (recorded F O) = Ok s' ->
  (length (F ++ cell_of img fill_colour i j) <= length sp0)%nat /\
  (length (O ++ cell_of img outline_colour i j) <= length op0)%nat.
Proof.
  intros Hin HF HO H. destruct (at_inside img i j Hwf Hin) as [v Hv].
  unfold cell_of. rewrite Hv.
  cbv beta iota in H. rewrite Hv in H. cbn [mbind res_bind] in H.
  rewrite !length_app.
  destruct (Vec3b_eqb v fill_colour).
  - apply bind_Ok in H as ([sp1 k1] & H1 & H).
    apply bind_Ok in H1 as (sp' & [Hlt _]%idx_set_Ok & _).
    rewrite length_overwrite in Hlt by exact HF.
    destruct (Vec3b_eqb v outline_colour).
    + apply bind_Ok in H as ([op1 m1] & H2 & _).
      apply bind_Ok in H2 as (op' & [Hlt2 _]%idx_set_Ok & _).
      rewrite length_overwrite in Hlt2 by exact HO. simpl. lia.
    + simpl. lia.
  - cbn [mbind res_bind] in H. destruct (Vec3b_eqb v outline_colour).
    + apply bind_Ok in H as ([op1 m1] & H2 & _).
      apply bind_Ok in H2 as (op' & [Hlt2 _]%idx_set_Ok & _).
      rewrite length_overwrite in Hlt2 by exact HO. simpl. lia.
    + simpl. lia.
Qed.

Lemma highlight_row_room (i : Z) :
  0 <= i < rows img ->
  forall (n : nat) (j : Z) (F O : list Point) s',
  0 <= j -> j + Z.of_nat n <= cols img ->
  (length F <= length sp0)%nat -> (length O <= length op0)%nat ->
  for_ n j (cell_body i) (recorded F O) = Ok s' ->
  (length (F ++ cells_of img fill_colour i (seqZ j (Z.of_nat n)))
     <= length sp0)%nat /\
  (length (O ++ cells_of img outline_colour i (seqZ j (Z.of_nat n)))
     <= length op0)%nat.
Proof.
  intros Hi. induction n as [|n IH]; intros j F O s' Hj Hn HF HO H.
  - simpl. rewrite !app_nil_r. auto.
  - rewrite Nat2Z.inj_succ in *. rewrite seqZ_cons by lia.
    replace (Z.pred (Z.succ (Z.of_nat n))) with (Z.of_nat n) by lia.
    replace (Z.succ j) with (j + 1) by lia.
    rewrite !cells_of_cons, !app_assoc.
    cbn [for_] in H. apply bind_Ok in H as (s1 & Hcell & H).
    assert (Hin : inside img i j = true).
    { unfold inside. rewrite !andb_true_iff, !Z.leb_le, !Z.ltb_lt. lia. }
    destruct (highlight_cell_room i j F O s1 Hin HF HO Hcell) as [HF1 HO1].
    rewrite (highlight_cell i j F O Hin HF1 HO1) in Hcell.
    injection Hcell as <-.
    apply (IH (j + 1) _ _ s'); [lia | lia | exact HF1 | exact HO1 | exact H].
Qed.

Lemma highlight_rows_room :
  forall (n : nat) (i : Z) (F O : list Point) s',
  0 <= i -> i + Z.of_nat n <= rows img ->
  (length F <= length sp0)%nat -> (length O <= length op0)%nat ->
  for_ n i (fun i st => for_ (Z.to_nat (cols img)) 0 (cell_body i) st)
    (recorded F O) = Ok s' ->
  (length (F ++ rows_of img fill_colour i n) <= length sp0)%nat /\
  (length (O ++ rows_of img outline_colour i n) <= length op0)%nat.
Proof.
  unfold rows_of.
  induction n as [|n IH]; intros i F O s' Hi Hn HF HO H.
  - simpl. rewrite !app_nil_r. auto.
  - rewrite Nat2Z.inj_succ in *. rewrite (seqZ_cons i) by lia.
    replace (Z.pred (Z.succ (Z.of_nat n))) with (Z.of_nat n) by lia.
    replace (Z.succ i) with (i + 1) by lia.
    cbn [flat_map]. rewrite !app_assoc.
    cbn [for_] in H. apply bind_Ok in H as (s1 & Hrow & H).
    destruct Hwf as (_ & Hc & _).
    destruct (highlight_row_room i ltac:(lia) (Z.to_nat (cols img)) 0 F O s1
                ltac:(lia) ltac:(lia) HF HO Hrow) as [HF1 HO1].
    rewrite (highlight_row i ltac:(lia) (Z.to_nat (cols img)) 0 F O
               ltac:(lia) ltac:(lia) HF1 HO1) in Hrow.
    injection Hrow as <-.
    rewrite Z2Nat.id in * by lia.
    apply (IH (i + 1) _ _ s'); [lia | lia | exact HF1 | exact HO1 | exact H].
Qed.

End HighlightPixels.

Lemma highlight_pixels_overwrite (img : Mat)
    (shape_pixels outline_pixels : list Point) :
  Mat_wf img ->
  (length (pixels_of img fill_colour) <= length shape_pixels)%nat ->
  (length (pixels_of img outline_colour) <= length outline_pixels)%nat ->
  highlight_pixels img shape_pixels outline_pixels
  = Ok (overwrite (pixels_of img fill_colour) shape_pixels,
        overwrite (pixels_of img outline_colour) outline_pixels).
Proof.
  intros Hwf HF HO. unfold highlight_pixels.
  pose proof Hwf as (Hr & Hc & _).
  assert (H := highlight_rows img shape_pixels outline_pixels Hwf
                 (Z.to_nat (rows img)) 0 [] [] ltac:(lia) ltac:(lia)).
  unfold rows_of in H. rewrite Z2Nat.id in H by lia.
  change (overwrite [] shape_pixels) with shape_pixels in H.
  change (overwrite [] outline_pixels) with outline_pixels in H.
  rewrite (bind_Ok_l _ _ _ (H HF HO)). reflexivity.
Qed.

Lemma highlight_pixels_room (img : Mat)
    (shape_pixels outline_pixels sp op : list Point) :
  Mat_wf img ->
  highlight_pixels img shape_pixels outline_pixels = Ok (sp, op) ->
  (length (pixels_of img fill_colour) <= length shape_pixels)%nat /\
  (length (pixels_of img outline_colour) <= length outline_pixels)%nat.
Proof.
  intros Hwf H. unfold highlight_pixels in H.
  apply bind_Ok in H as (s' & Hrun & _).
  pose proof Hwf as (Hr & Hc & _).
  assert (Hroom := highlight_rows_room img shape_pixels outline_pixels Hwf
                     (Z.to_nat (rows img)) 0 [] [] s' ltac:(lia) ltac:(lia)
                     ltac:(simpl; lia) ltac:(simpl; lia) Hrun).
  unfold rows_of in Hroom. rewrite Z2Nat.id in Hroom by lia. exact Hroom.
Qed.

Lemma highlight_pixels_result (img : Mat)
    (shape_pixels outline_pixels sp op : list Point) :
  Mat_wf img ->
  highlight_pixels img shape_pixels outline_pixels = Ok (sp, op) ->
  sp = overwrite (pixels_of img fill_colour) shape_pixels /\
  op = overwrite (pixels_of img outline_colour) outline_pixels.
Proof.
  intros Hwf H.
  destruct (highlight_pixels_room _ _ _ _ _ Hwf H) as [HF HO].
  rewrite (highlight_pixels_overwrite _ _ _ Hwf HF HO) in H.
  injection H as <- <-. auto.
Qed.

(** X11.  highlight_pixels writes the pixels of the fill colour, row after
    row and from left to right within a row, over the first entries of
    shape_pixels, and those of the outline colour over the first entries of
    outline_pixels; the entries after them are left as they were.  It
    returns exactly when both vectors are at least as long as the pixels to
    record. *)
Theorem X11_highlight_pixels_lists_the_pixels (img : Mat)
    (shape_pixels outline_pixels : list Point) :
  Mat_wf img ->
  ((length (pixels_of img fill_colour) <= length shape_pixels)%nat /\
   (length (pixels_of img outline_colour) <= length outline_pixels)%nat ->
   highlight_pixels img shape_pixels outline_pixels
   = Ok (overwrite (pixels_of img fill_colour) shape_pixels,
         overwrite (pixels_of img outline_colour) outline_pixels)) /\
  (forall sp op,
     highlight_pixels img shape_pixels outline_pixels = Ok (sp, op) ->
     (length (pixels_of img fill_colour) <= length shape_pixels)%nat /\
     (length (pixels_of img outline_colour) <= length outline_pixels)%nat /\
     sp = overwrite (pixels_of img fill_colour) shape_pixels /\
     op = overwrite (pixels_of img outline_colour) outline_pixels).
Proof.
  intros Hwf. split.
  - intros [HF HO]. apply highlight_pixels_overwrite; assumption.
  - intros sp op H.
    destruct (highlight_pixels_room _ _ _ _ _ Hwf H) as [HF HO].
    destruct (highlight_pixels_result _ _ _ _ _ Hwf H) as [-> ->]. auto.
Qed.

(** ** The seed fill keeps the other colours *)

Lemma flood_body_keeps (img0 : Mat) (old newVal : Vec3b)
    (s s' : Mat * list (Z * Z)) :
  flood_keeps img0 old s -> flood_body old newVal s = Ok s' ->
  flood_keeps img0 old s'.
Proof.
  intros (Hr & Hc & Hk) H. unfold flood_body in H.
  destruct s as [img wl]. cbn [fst snd] in *.
  destruct wl as [|[r c] rest]; [injection H as <-; repeat split; auto|].
  destruct (inside img r c) eqn:Hin;
    [|injection H as <-; repeat split; auto].
  apply bind_Ok in H as (v & Hv & H).
  destruct (Vec3b_eqb v old) eqn:E;
    [|injection H as <-; repeat split; auto].
  injection H as <-. apply Vec3b_eqb_eq in E as ->.
  unfold flood_keeps, Mat_set. cbn [fst rows cols data].
  split; [exact Hr|]. split; [exact Hc|].
  intros k v Hv0 Hne. apply at_Ok in Hv as (_ & Hpos & Hold).
  destruct (decide (k = Z.to_nat (r * cols img + c))) as [->|Hk'].
  - rewrite (Hk _ _ Hv0 Hne) in Hold. congruence.
  - rewrite list_lookup_insert_ne by congruence. auto.
Qed.

(** cv::floodFill leaves the pixels that do not have the colour of the seed
    as they are. *)
Lemma floodFill_keeps (img img' : Mat) (seedPoint : Point)
    (newVal old : Vec3b) :
  floodFill img seedPoint newVal = Ok img' ->
  at_ img (y seedPoint) (x seedPoint) = Ok old ->
  forall r c v, at_ img r c = Ok v -> v <> old -> at_ img' r c = Ok v.
Proof.
  unfold floodFill. intros H Hold.
  destruct (inside img (y seedPoint) (x seedPoint)); [|discriminate].
  rewrite Hold in H. cbn [mbind res_bind] in H.
  destruct (Vec3b_eqb old newVal); [injection H as <-; auto|].
  apply bind_Ok in H as (s & Hrun & [= <-]).
  apply (while_inv (flood_keeps img old)) in Hrun as [(Hr & Hc & Hk) _].
  - intros r c v Hv Hne. apply at_Ok in Hv as (Hin & Hpos & Hv).
    apply at_Ok. unfold inside in *. rewrite Hr, Hc. auto.
  - intros a b Ha _ Hb. exact (flood_body_keeps _ _ _ _ _ Ha Hb).
  - repeat split; auto.
Qed.

Lemma cells_of_ext (img img' : Mat) (colour : Vec3b) (r : Z) (cs : list Z) :
  (forall c, In c cs ->
     cell_of img colour r c = cell_of img' colour r c) ->
  cells_of img colour r cs = cells_of img' colour r cs.
Proof.
  intros H. induction cs as [|c cs IH]; [reflexivity|].
  rewrite !cells_of_cons. rewrite (H c) by (left; reflexivity).
  rewrite IH; [reflexivity|]. intros c' Hc'. apply H. right. exact Hc'.
Qed.

Lemma flat_map_ext_in {A B} (f g : A -> list B) (l : list A) :
  (forall a, In a l -> f a = g a) -> flat_map f l = flat_map g l.
Proof.
  intros H. induction l as [|a l IH]; [reflexivity|]. simpl.
  rewrite (H a) by (left; reflexivity). rewrite IH; [reflexivity|].
  intros a' Ha'. apply H. right. exact Ha'.
Qed.

Lemma pixels_of_ext (img img' : Mat) (colour : Vec3b) :
  rows img' = rows img -> cols img' = cols img ->
  (forall r c, at_ img r c = Ok colour <-> at_ img' r c = Ok colour) ->
  (forall r c, inside img r c = true -> exists v, at_ img r c = Ok v) ->
  (forall r c, inside img' r c = true -> exists v, at_ img' r c = Ok v) ->
  pixels_of img' colour = pixels_of img colour.
Proof.
  intros Hr Hc Hsame Hdef Hdef'. unfold pixels_of. rewrite Hr, Hc.
  apply flat_map_ext_in. intros r _. apply cells_of_ext. intros c _.
  unfold cell_of.
  destruct (at_ img' r c) as [v'|f'] eqn:E'; destruct (at_ img r c) as [v|f] eqn:E.
  - destruct (Vec3b_eqb v' colour) eqn:B'; destruct (Vec3b_eqb v colour) eqn:B;
      try reflexivity.
    + apply Vec3b_eqb_eq in B' as ->. apply Hsame in E'. rewrite E in E'.
      injection E' as ->. rewrite Vec3b_eqb_refl in B. discriminate.
    + apply Vec3b_eqb_eq in B as ->. apply Hsame in E. rewrite E' in E.
      injection E as ->. rewrite Vec3b_eqb_refl in B'. discriminate.
  - apply at_Ok in E' as (Hin & _). unfold inside in Hin. rewrite Hr, Hc in Hin.
    destruct (Hdef r c Hin) as [v Hv]. congruence.
  - apply at_Ok in E as (Hin & _).
    assert (Hin' : inside img' r c = true) by (unfold inside; rewrite Hr, Hc; exact Hin).
    destruct (Hdef' r c Hin') as [v' Hv']. congruence.
  - reflexivity.
Qed.

(** X12.  The first statement of create_skeleton keeps the size of the
    image; a pixel keeps its colour, or it had the colour of the pixel
    (64,32) and has the fill colour afterwards.  No contour pixel is
    repainted and none appears: the contour pixels highlight_pixels will
    list are those of the image create_skeleton was given. *)
Theorem X12_seed_fill_keeps_the_contour (img img1 : Mat) (log : list call) :
  Mat_wf img ->
  flood_from_seed img = Ok (img1, log) ->
  rows img1 = rows img /\ cols img1 = cols img /\
  (forall r c v, at_ img r c = Ok v ->
     at_ img1 r c = Ok v \/
     (at_ img1 r c = Ok fill_colour /\ at_ img 64 32 = Ok v)) /\
  (forall r c, at_ img1 r c = Ok outline_colour <->
               at_ img r c = Ok outline_colour) /\
  pixels_of img1 outline_colour = pixels_of img outline_colour.
Proof.
  intros Hwf H. unfold flood_from_seed in H.
  apply bind_Ok in H as (seed & Hseed & H).
  destruct (Vec3b_eqb seed outline_colour) eqn:E; simpl negb in H;
    cbv iota in H.
  { injection H as <- <-. repeat split; auto. }
  apply bind_Ok in H as (img' & Hf & [= <- <-]).
  assert (Hin : inside img 64 32 = true) by (apply at_Ok in Hseed; tauto).
  destruct (floodFill_spec img (mkPoint 32 64) fill_colour Hwf Hin)
    as (img2 & Hf2 & Hwf' & Hr & Hc & _ & Hback).
  rewrite Hf in Hf2. injection Hf2 as <-.
  pose proof (floodFill_keeps img img' (mkPoint 32 64) fill_colour seed Hf Hseed)
    as Hkeep.
  assert (Hne : outline_colour <> seed).
  { intros <-. rewrite Vec3b_eqb_refl in E. discriminate. }
  assert (Hsame : forall r c, at_ img' r c = Ok outline_colour <->
                              at_ img r c = Ok outline_colour).
  { intros r c. split.
    - intros Hv. destruct (Hback r c _ Hv) as [Hv'|Hv']; [discriminate|exact Hv'].
    - intros Hv. exact (Hkeep r c _ Hv Hne). }
  split; [exact Hr|]. split; [exact Hc|]. split; [|split; [exact Hsame|]].
  - intros r c v Hv.
    destruct (Vec3b_eqb v seed) eqn:Ev.
    + apply Vec3b_eqb_eq in Ev as ->.
      assert (Hin' : inside img' r c = true).
      { apply at_Ok in Hv as (Hi & _). unfold inside in *. rewrite Hr, Hc.
        exact Hi. }
      destruct (at_inside img' r c Hwf' Hin') as [v' Hv'].
      destruct (Hback r c v' Hv') as [->|Hv'']; [right; auto|].
      left. congruence.
    + left. apply Hkeep; [exact Hv|]. intros ->.
      rewrite Vec3b_eqb_refl in Ev. discriminate.
  - apply pixels_of_ext; auto.
    + intros r c. symmetry. apply Hsame.
    + intros r c. apply at_inside. exact Hwf.
    + intros r c. apply at_inside. exact Hwf'.
Qed.

(** ** The end marker of the pixel list *)

Lemma length_cells_of (img : Mat) (colour : Vec3b) (r : Z) (cs : list Z) :
  (length (cells_of img colour r cs) <= length cs)%nat.
Proof.
  induction cs as [|c cs IH]; [simpl; lia|].
  rewrite cells_of_cons, length_app. pose proof (length_cell_of img colour r c).
  simpl. lia.
Qed.

Lemma length_rows_of (img : Mat) (colour : Vec3b) (n : nat) (r : Z) :
  0 <= cols img ->
  Z.of_nat (length (rows_of img colour r n)) <= Z.of_nat n * cols img.
Proof.
  intros Hc. revert r. unfold rows_of.
  induction n as [|n IH]; intros r; [simpl; lia|].
  rewrite Nat2Z.inj_succ, (seqZ_cons r) by lia.
  replace (Z.pred (Z.succ (Z.of_nat n))) with (Z.of_nat n) by lia.
  cbn [flat_map]. rewrite length_app.
  pose proof (length_cells_of img colour r (seqZ 0 (cols img))) as H.
  rewrite length_seqZ in H. specialize (IH (Z.succ r)).
  rewrite Nat2Z.inj_add.
  assert (H' : Z.of_nat (length (cells_of img colour r (seqZ 0 (cols img))))
               <= cols img) by lia.
  nia.
Qed.

(** A corner that has another colour leaves room for one entry. *)
Lemma pixels_of_room (img : Mat) (colour corner : Vec3b) :
  Mat_wf img -> at_ img 0 0 = Ok corner -> corner <> colour ->
  Z.of_nat (length (pixels_of img colour)) < rows img * cols img.
Proof.
  intros Hwf Hcorner Hne. pose proof Hwf as (Hr & Hc & _).
  assert (Hin : 0 < rows img /\ 0 < cols img).
  { apply at_Ok in Hcorner as (Hin & _). unfold inside in Hin.
    rewrite !andb_true_iff, !Z.leb_le, !Z.ltb_lt in Hin. lia. }
  pose proof (length_rows_of img colour (Z.to_nat (Z.pred (rows img))) (Z.succ 0) Hc)
    as H2.
  unfold rows_of in H2. rewrite Z2Nat.id in H2 by lia.
  unfold pixels_of. rewrite (seqZ_cons 0 (rows img)) by lia.
  cbn [flat_map].
  set (rest := flat_map _ (seqZ (Z.succ 0) (Z.pred (rows img)))) in *.
  rewrite (seqZ_cons 0 (cols img)) by lia.
  rewrite cells_of_cons. unfold cell_of at 1. rewrite Hcorner.
  replace (Vec3b_eqb corner colour) with false.
  2:{ symmetry. apply not_true_is_false. intros E%Vec3b_eqb_eq. contradiction. }
  cbn [app]. rewrite length_app.
  pose proof (length_cells_of img colour 0 (seqZ (Z.succ 0) (Z.pred (cols img)))) as H1.
  rewrite length_seqZ in H1.
  rewrite Nat2Z.inj_add.
  assert (H1' : Z.of_nat (length (cells_of img colour 0
                   (seqZ (Z.succ 0) (Z.pred (cols img))))) <= cols img - 1)
    by lia.
  nia.
Qed.

Lemma cells_of_In (img : Mat) (colour : Vec3b) (r : Z) (cs : list Z) (p : Point) :
  In p (cells_of img colour r cs) ->
  x p = r /\ In (y p) cs /\ at_ img (x p) (y p) = Ok colour.
Proof.
  unfold cells_of. rewrite in_flat_map. intros (c & Hc & Hp).
  destruct (at_ img r c) as [v|] eqn:E; [|contradiction].
  destruct (Vec3b_eqb v colour) eqn:B; [|contradiction].
  destruct Hp as [<-|[]]. apply Vec3b_eqb_eq in B as ->. simpl. auto.
Qed.

Lemma pixels_of_In (img : Mat) (colour : Vec3b) (p : Point) :
  In p (pixels_of img colour) -> at_ img (x p) (y p) = Ok colour.
Proof.
  unfold pixels_of. rewrite in_flat_map. intros (r & _ & Hp).
  apply cells_of_In in Hp. tauto.
Qed.

Lemma pixels_of_complete (img : Mat) (colour : Vec3b) (r c : Z) :
  at_ img r c = Ok colour -> In (mkPoint r c) (pixels_of img colour).
Proof.
  intros H. pose proof H as (Hin & _)%at_Ok. unfold inside in Hin.
  rewrite !andb_true_iff, !Z.leb_le, !Z.ltb_lt in Hin.
  unfold pixels_of. apply in_flat_map. exists r. split.
  - apply list_elem_of_In, elem_of_seqZ. lia.
  - unfold cells_of. apply in_flat_map. exists c. split.
    + apply list_elem_of_In, elem_of_seqZ. lia.
    + rewrite H, Vec3b_eqb_refl. left. reflexivity.
Qed.

Lemma overwrite_replicate (l : list Point) (N : nat) (p : Point) :
  (length l <= N)%nat ->
  overwrite l (replicate N p) = l ++ replicate (N - length l) p.
Proof.
  intros H. unfold overwrite. rewrite drop_replicate. reflexivity.
Qed.

(** X13.  On a silhouette that passes the validity test of create_skeleton,
    with a shape_pixels vector of (0,0) entries that has one entry for every
    pixel of the image, highlight_pixels leaves the interior pixels followed
    by one (0,0) entry or more, and no interior pixel is (0,0): an entry is
    (0,0) exactly when it lies after the interior pixels, which is what the
    detectors take (0,0) to mean. *)
Theorem X13_origin_marks_the_end_of_the_interior (img : Mat) (N : nat)
    (outline_pixels : list Point) :
  Mat_wf img ->
  silhouette_valid img = Ok true ->
  rows img * cols img <= Z.of_nat N ->
  (length (pixels_of img outline_colour) <= length outline_pixels)%nat ->
  exists sp op,
    highlight_pixels img (replicate N (mkPoint 0 0)) outline_pixels
    = Ok (sp, op) /\
    sp = pixels_of img fill_colour
         ++ replicate (N - length (pixels_of img fill_colour)) (mkPoint 0 0) /\
    (length (pixels_of img fill_colour) < N)%nat /\
    (forall (k : nat) p, sp !! k = Some p ->
       (is_origin p = true <-> (length (pixels_of img fill_colour) <= k)%nat)) /\
    (forall p, In p (pixels_of img fill_colour) <->
       at_ img (x p) (y p) = Ok fill_colour).
Proof.
  intros Hwf Hvalid HN HO. unfold silhouette_valid in Hvalid.
  apply bind_Ok in Hvalid as (corner & Hcorner & Hvalid).
  assert (Hne : corner <> fill_colour).
  { intros ->. rewrite Vec3b_eqb_refl in Hvalid. discriminate. }
  pose proof (pixels_of_room img fill_colour corner Hwf Hcorner Hne) as Hroom.
  assert (Hlt : (length (pixels_of img fill_colour) < N)%nat) by lia.
  eexists _, _. split.
  { apply highlight_pixels_overwrite; [exact Hwf| |exact HO].
    rewrite length_replicate. lia. }
  rewrite overwrite_replicate by lia.
  split; [reflexivity|]. split; [exact Hlt|]. split.
  2:{ intros p. split; [apply pixels_of_In|]. intros Hp.
      apply pixels_of_complete in Hp. rewrite Point_eta in Hp. exact Hp. }
  intros k p Hk.
  destruct (Nat.lt_ge_cases k (length (pixels_of img fill_colour))) as [Hin|Hout].
  - rewrite lookup_app_l in Hk by exact Hin.
    apply list_elem_of_lookup_2, list_elem_of_In, pixels_of_In in Hk.
    split; [|lia]. intros Ho. unfold is_origin in Ho.
    assert (p = origin) as ->.
    { destruct p as [px py]. unfold Point_eqb in Ho. simpl in Ho.
      apply andb_true_iff in Ho as [->%Z.eqb_eq ->%Z.eqb_eq]. reflexivity. }
    simpl in Hk. congruence.
  - rewrite lookup_app_r in Hk by exact Hout.
    apply lookup_replicate in Hk as [-> _]. split; [lia|reflexivity].
Qed.

(** ** The head *)

Lemma find_head_feature_first (p0 : Point) (pixels tail : list Point)
    (threshold index_head : Z) :
  is_origin p0 = false -> x p0 < 1000 -> 0 <= threshold ->
  Forall (fun q => x p0 <= x q) pixels ->
  find_head_feature (p0 :: pixels ++ origin :: tail) threshold index_head
  = Ok (mkPoint (x p0 + threshold) (y p0), 0).
Proof.
  intros Ho Hx Ht Hall.
  set (sp := p0 :: pixels ++ origin :: tail).
  set (e := S (length pixels)).
  assert (Hend : sp !! e = Some origin).
  { unfold sp, e. simpl. rewrite lookup_app_r by lia.
    rewrite Nat.sub_diag. reflexivity. }
  assert (Hmid : forall k q, (1 <= k)%nat -> (k < e)%nat -> sp !! k = Some q ->
                             x p0 <= x q).
  { intros k q Hk1 Hk2 Hq. unfold sp, e in *. destruct k as [|k]; [lia|].
    simpl in Hq. rewrite lookup_app_l in Hq by lia.
    rewrite Forall_forall in Hall. apply Hall.
    eapply list_elem_of_lookup_2. exact Hq. }
  unfold find_head_feature.
  destruct (while_total (head_inv p0 e index_head)
              (fun s => (e - Z.to_nat s.1.1)%nat)
              (head_cond sp threshold) (head_body sp))
    with (fuel := vec_fuel sp) (s := (0, mkPoint 1000 1000, index_head))
    as ([[i h] ih] & Hrun & Hinv & Hcond).
  - intros [[i h] ih] Hinv. unfold head_cond.
    assert (Hi : (Z.to_nat i < length sp)%nat).
    { apply lookup_lt_Some in Hend. destruct Hinv as [(-> & _)|(Hi & _)]; lia. }
    destruct (lookup_lt_is_Some_2 sp _ Hi) as [p Hp].
    assert (Hidx : idx sp i = Ok p).
    { apply idx_Ok. split; [|exact Hp]. destruct Hinv as [(-> & _)|(? & _)]; lia. }
    rewrite Hidx. eexists. reflexivity.
  - intros [[i h] ih] Hinv Hc. unfold head_cond in Hc.
    apply bind_Ok in Hc as (p & Hp & [= Hc]).
    apply andb_true_iff in Hc as [Hno Hlt]. apply negb_true_iff in Hno.
    unfold head_body. rewrite Hp. cbn [mbind res_bind].
    apply idx_Ok in Hp as [Hi0 Hp].
    assert (Hie : (Z.to_nat i < e)%nat).
    { destruct Hinv as [(-> & _)|(Hi & _)]; [unfold e; lia|].
      destruct (decide (Z.to_nat i = e)) as [E|E]; [|lia].
      rewrite E, Hend in Hp. injection Hp as <-. discriminate. }
    destruct Hinv as [(-> & -> & ->)|(Hi & -> & ->)].
    + change (Z.to_nat 0) with 0%nat in Hp. simpl in Hp. injection Hp as <-.
      simpl x at 2. destruct (Z.ltb_spec (x p0) 1000); [|lia].
      eexists. split; [reflexivity|]. split.
      * right. rewrite Point_eta. unfold e. split; [lia|auto].
      * cbn [fst]. lia.
    + pose proof (Hmid (Z.to_nat i) p ltac:(lia) Hie Hp) as Hge.
      destruct (Z.ltb_spec (x p) (x p0)); [lia|].
      eexists. split; [reflexivity|]. split.
      * right. split; [lia|auto].
      * cbn [fst]. lia.
  - left. auto.
  - cbn [fst]. unfold vec_fuel, e, sp. simpl length. rewrite length_app.
    simpl. lia.
  - rewrite Hrun. cbn [mbind res_bind].
    destruct Hinv as [(-> & -> & ->)|(Hi & -> & ->)]; [|reflexivity].
    exfalso. unfold head_cond in Hcond. unfold sp in Hcond.
    change (idx (p0 :: pixels ++ origin :: tail) 0) with (Ok p0) in Hcond.
    cbn [mbind res_bind] in Hcond. rewrite Ho in Hcond. simpl in Hcond.
    destruct (Z.ltb_spec (x p0) (1000 + threshold)); [discriminate|lia].
Qed.

(** X14.  On a list whose first entry is a pixel above row 1000 and no lower
    than the entries up to the first (0,0), as in a list in row order,
    find_head_feature returns that pixel moved [threshold] rows down, and 0
    as its index. *)
Theorem X14_head_is_the_first_pixel (p0 : Point) (pixels tail : list Point)
    (threshold index_head : Z) :
  is_origin p0 = false -> x p0 < 1000 -> 0 <= threshold ->
  Forall (fun q => x p0 <= x q) pixels ->
  find_head_feature (p0 :: pixels ++ origin :: tail) threshold index_head
  = Ok (mkPoint (x p0 + threshold) (y p0), 0).
Proof. apply find_head_feature_first. Qed.

(** The pixels of the rows from [r] on are in those rows, and the first of
    them is the highest. *)
Lemma rows_of_In (img : Mat) (colour : Vec3b) (n : nat) (r : Z) (p : Point) :
  In p (rows_of img colour r n) -> r <= x p < r + Z.of_nat n.
Proof.
  unfold rows_of. rewrite in_flat_map. intros (r' & Hr' & Hp).
  apply cells_of_In in Hp as (-> & _). 
  apply list_elem_of_In, elem_of_seqZ in Hr'. lia.
Qed.

Lemma rows_of_S (img : Mat) (colour : Vec3b) (n : nat) (r : Z) :
  rows_of img colour r (S n)
  = cells_of img colour r (seqZ 0 (cols img)) ++ rows_of img colour (r + 1) n.
Proof.
  unfold rows_of. rewrite Nat2Z.inj_succ, (seqZ_cons r) by lia.
  replace (Z.pred (Z.succ (Z.of_nat n))) with (Z.of_nat n) by lia.
  replace (Z.succ r) with (r + 1) by lia. reflexivity.
Qed.

Lemma rows_of_first (img : Mat) (colour : Vec3b) (n : nat) :
  forall (r : Z) (p0 : Point) (rest : list Point),
  rows_of img colour r n = p0 :: rest ->
  r <= x p0 /\ Forall (fun q => x p0 <= x q) rest.
Proof.
  induction n as [|n IH]; intros r p0 rest H; [discriminate|].
  rewrite rows_of_S in H.
  destruct (cells_of img colour r (seqZ 0 (cols img))) as [|q0 qs] eqn:E.
  - simpl in H. destruct (IH _ _ _ H) as [H1 H2]. split; [lia|exact H2].
  - simpl in H. injection H as -> <-.
    assert (Hp0 : x p0 = r).
    { apply (cells_of_In img colour r (seqZ 0 (cols img))). rewrite E.
      left. reflexivity. }
    split; [lia|]. apply Forall_app. split.
    + apply Forall_forall. intros q Hq%list_elem_of_In.
      assert (x q = r); [|lia].
      apply (cells_of_In img colour r (seqZ 0 (cols img))). rewrite E.
      right. exact Hq.
    + apply Forall_forall. intros q Hq%list_elem_of_In%rows_of_In. lia.
Qed.

Lemma pixels_of_first (img : Mat) (colour : Vec3b) (p0 : Point)
    (rest : list Point) :
  pixels_of img colour = p0 :: rest -> Forall (fun q => x p0 <= x q) rest.
Proof.
  intros H. apply (rows_of_first img colour (Z.to_nat (rows img)) 0).
  unfold rows_of. destruct (Z.le_gt_cases 0 (rows img)).
  - rewrite Z2Nat.id by lia. exact H.
  - unfold pixels_of in H. rewrite (seqZ_nil 0 (rows img)) in H by lia. discriminate.
Qed.

Section HeadOfTheSkeleton.

Context {double : Type} (sqrt : Z -> double).
Context (find_elbow_feature :
  list Point -> Point -> Point -> Point -> Z -> double -> Point -> Z ->
  res (Point * bool)).
Context (find_hand_feature :
  list Point -> list Point -> Point -> Point -> Z -> double -> Point ->
  Mat -> Z -> res (Point * bool)).
Context (draw_skeleton : Mat -> list Point -> res (Mat * bool)).

Local Abbreviation the_fitter :=
  (create_skeleton double sqrt find_elbow_feature find_hand_feature
     draw_skeleton).

(** X15.  When create_skeleton returns on an image of at most 8192 pixels
    whose silhouette it accepts, the silhouette has an interior pixel and the
    landmark 0 of the skeleton, the head, is the first interior pixel in
    reading order, which no interior pixel is above, moved 5 rows down. *)
Theorem X15_head_of_the_skeleton (self : PeopleFinder) (img img1 : Mat)
    (log : list call) (out : fit) :
  Mat_wf img -> rows img * cols img <= 8192 ->
  flood_from_seed img = Ok (img1, log) ->
  silhouette_valid img1 = Ok true ->
  the_fitter self img = Ok out ->
  exists p0 rest,
    pixels_of img1 fill_colour = p0 :: rest /\
    at_ img1 (x p0) (y p0) = Ok fill_colour /\
    (forall q, In q rest -> x p0 <= x q) /\
    f_nodes out !! 0%nat = Some (mkPoint (x p0 + 5) (y p0)).
Proof.
  intros Hwf Hsize Hf Hv Hfit.
  destruct (create_skeleton_valid sqrt find_elbow_feature find_hand_feature draw_skeleton self img img1 log out Hf Hv Hfit)
    as (sp & op & n0 & ih & n1 & it & later & Hhp & Hhead & _ & Hn0 & _).
  assert (Hin : inside img 64 32 = true).
  { unfold flood_from_seed in Hf. apply bind_Ok in Hf as (seed & Hs & _).
    apply at_Ok in Hs. tauto. }
  destruct (flood_from_seed_spec img Hwf Hin)
    as (seed & img1' & log' & Hseed & Hf' & Hwf1 & Hr1 & Hc1 & Hkeep & Hfill).
  rewrite Hf in Hf'. injection Hf' as <- <-.
  assert (Hsize1 : rows img1 * cols img1 <= 8192) by (rewrite Hr1, Hc1; exact Hsize).
  unfold silhouette_valid in Hv.
  apply bind_Ok in Hv as (corner & Hcorner & Hv).
  assert (Hne : corner <> fill_colour).
  { intros ->. rewrite Vec3b_eqb_refl in Hv. discriminate. }
  simpl negb in Hv. cbv iota in Hv.
  replace (negb (Vec3b_eqb corner fill_colour)) with true in Hv.
  2:{ symmetry. apply negb_true_iff, not_true_is_false.
      intros E%Vec3b_eqb_eq. contradiction. }
  apply bind_Ok in Hv as (seed1 & Hseed1 & [= Hv]).
  assert (Hseed_fill : at_ img1 64 32 = Ok fill_colour).
  { destruct (Vec3b_eqb seed outline_colour) eqn:E.
    - apply Vec3b_eqb_eq in E. destruct (Hkeep E) as [-> _].
      rewrite Hseed in Hseed1. injection Hseed1 as <-. subst seed.
      rewrite Vec3b_eqb_refl in Hv. discriminate.
    - apply Hfill. intros ->. rewrite Vec3b_eqb_refl in E. discriminate. }
  pose proof (pixels_of_room img1 fill_colour corner Hwf1 Hcorner Hne) as Hroom.
  destruct (highlight_pixels_result _ _ _ _ _ Hwf1 Hhp) as [-> _].
  rewrite overwrite_replicate in Hhead by lia.
  destruct (pixels_of img1 fill_colour) as [|p0 rest] eqn:Epix.
  { apply pixels_of_complete in Hseed_fill. rewrite Epix in Hseed_fill.
    contradiction. }
  exists p0, rest. split; [reflexivity|].
  assert (Hp0 : at_ img1 (x p0) (y p0) = Ok fill_colour).
  { apply pixels_of_In. rewrite Epix. left. reflexivity. }
  split; [exact Hp0|].
  pose proof (pixels_of_first img1 fill_colour p0 rest Epix) as Hfirst.
  split; [rewrite Forall_forall in Hfirst; intros q Hq; apply Hfirst, list_elem_of_In, Hq|].
  assert (Hx : x p0 < 1000).
  { apply at_Ok in Hp0 as (Hi & _). unfold inside in Hi.
    rewrite !andb_true_iff, !Z.leb_le, !Z.ltb_lt in Hi.
    unfold inside in Hin.
    rewrite !andb_true_iff, !Z.leb_le, !Z.ltb_lt in Hin. nia. }
  assert (Hno : is_origin p0 = false).
  { apply not_true_is_false. intros Ho. unfold is_origin, Point_eqb in Ho.
    apply andb_true_iff in Ho as [Hx0%Z.eqb_eq Hy0%Z.eqb_eq].
    simpl in Hx0, Hy0. rewrite Hx0, Hy0 in Hp0. congruence. }
  simpl length in Hhead.
  destruct (Z.to_nat 8192 - S (length rest))%nat as [|m] eqn:Em.
  { simpl length in Hroom. lia. }
  simpl replicate in Hhead.
  change (mkPoint 0 0) with origin in Hhead.
  simpl app in Hhead.
  rewrite (find_head_feature_first p0 rest _ 5 0 Hno Hx ltac:(lia) Hfirst) in Hhead.
  injection Hhead as <- _. exact Hn0.
Qed.

End HeadOfTheSkeleton.

(** ** The nearest pixel *)

Lemma dist_sq_nonneg (p q : Point) : 0 <= dist_sq p q.
Proof.
  unfold dist_sq. pose proof (Z.square_nonneg (x p - x q)).
  pose proof (Z.square_nonneg (y p - y q)). lia.
Qed.


Lemma wrap_small (z : Z) :
  -2147483648 <= z < 2147483648 -> wrap z = z.
Proof.
  intros H. unfold wrap. rewrite Z.mod_small by lia. lia.
Qed.

(** Within 46340 the square of a difference of two [int]s does not wrap. *)
Lemma int_square_small (a b : Z) :
  Z.abs (a - b) <= 46340 ->
  int_mul (int_sub a b) (int_sub a b) = (a - b) * (a - b).
Proof.
  intros H. unfold int_mul, int_sub. rewrite (wrap_small (a - b)) by lia.
  apply wrap_small. nia.
Qed.

Lemma near_dist_sq (p q : Point) :
  near p q ->
  int_mul (int_sub (x p) (x q)) (int_sub (x p) (x q))
  + int_mul (int_sub (y p) (y q)) (int_sub (y p) (y q)) = dist_sq p q.
Proof.
  intros [Hx Hy]. rewrite !int_square_small by assumption. reflexivity.
Qed.

Lemma foot_scan_cons (corner p : Point) (l : list Point) (s : Z * Point) :
  foot_scan corner (p :: l) s = foot_scan corner l (closer corner s p).
Proof. reflexivity. Qed.

(** The scan of find_foot_feature keeps the first of the nearest pixels
    that are nearer than the distance it starts with. *)
Lemma foot_scan_spec (corner : Point) (l : list Point) :
  forall (d0 : Z) (r0 : Point),
  (foot_scan corner l (d0, r0) = (d0, r0) /\
   forall q, In q l -> d0 <= dist_sq corner q) \/
  (exists l1 l2 r,
     foot_scan corner l (d0, r0) = (dist_sq corner r, r) /\
     l = l1 ++ r :: l2 /\ dist_sq corner r < d0 /\
     (forall q, In q l1 -> dist_sq corner r < dist_sq corner q) /\
     (forall q, In q l2 -> dist_sq corner r <= dist_sq corner q)).
Proof.
  induction l as [|p l IH]; intros d0 r0.
  - left. split; [reflexivity|]. intros q [].
  - rewrite foot_scan_cons. unfold closer. cbn [fst].
    destruct (Z.ltb_spec (dist_sq corner p) d0) as [Hlt|Hge].
    + right. destruct (IH (dist_sq corner p) p)
        as [[E Hall]|(l1 & l2 & r & E & -> & Hr & H1 & H2)].
      * exists [], l, p. rewrite E. repeat split; auto. intros q [].
      * exists (p :: l1), l2, r. rewrite E. repeat split; auto; [lia|].
        intros q [<-|Hq]; [lia|auto].
    + destruct (IH d0 r0) as [[E Hall]|(l1 & l2 & r & E & -> & Hr & H1 & H2)].
      * left. split; [exact E|]. intros q [<-|Hq]; [lia|auto].
      * right. exists (p :: l1), l2, r. rewrite E. repeat split; auto.
        intros q [<-|Hq]; [lia|auto].
Qed.

Section FootLoop.

Variable shape_pixels : list Point.
Variable corner : Point.

Lemma foot_body_step (n : nat) (p : Point) (s : Z * Point) :
  shape_pixels !! S n = Some p -> near corner p ->
  foot_body shape_pixels corner (Z.of_nat n, s.1, s.2)
  = Ok (Z.of_nat (S n), (closer corner s p).1, (closer corner s p).2).
Proof.
  intros Hn Hnear. unfold foot_body.
  replace (Z.of_nat n + 1) with (Z.of_nat (S n)) by lia.
  cbv zeta. rewrite (idx_of_nat _ _ _ Hn). cbn [mbind res_bind].
  rewrite (near_dist_sq corner p Hnear).
  replace (0 <=? dist_sq corner p) with true
    by (symmetry; apply Z.leb_le, dist_sq_nonneg).
  cbn [andb]. unfold closer. destruct (_ <? _); reflexivity.
Qed.

Lemma foot_loop_run (body : list Point) :
  forall (n : nat) (cur : Point) (tail : list Point) (s : Z * Point),
  drop n shape_pixels = cur :: body ++ origin :: tail ->
  is_origin cur = false ->
  Forall (fun p => is_origin p = false) body ->
  Forall (near corner) (body ++ [origin]) ->
  while_ (length body + 2) (foot_cond shape_pixels)
    (foot_body shape_pixels corner) (Z.of_nat n, s.1, s.2)
  = Ok (Z.of_nat (n + length body + 1),
        (foot_scan corner (body ++ [origin]) s).1,
        (foot_scan corner (body ++ [origin]) s).2).
Proof.
  induction body as [|p body IH]; intros n cur tail s Hd Hcur Hbody Hnear.
  - simpl app in Hd. destruct (drop_cons_inv _ _ _ _ Hd) as [Hn Hd'].
    destruct (drop_cons_inv _ _ _ _ Hd') as [Hn1 _].
    apply Forall_cons in Hnear as [Ho _].
    simpl length. simpl Nat.add.
    rewrite (while_true_step _ _ _ _
               (Z.of_nat (S n), (closer corner s origin).1,
                (closer corner s origin).2)).
    + rewrite while_false_step.
      * replace (n + 0 + 1)%nat with (S n) by lia. reflexivity.
      * unfold foot_cond. rewrite (idx_of_nat _ _ _ Hn1). reflexivity.
    + unfold foot_cond. rewrite (idx_of_nat _ _ _ Hn). cbn [mbind res_bind].
      rewrite Hcur. reflexivity.
    + apply foot_body_step; assumption.
  - simpl app in Hd. destruct (drop_cons_inv _ _ _ _ Hd) as [Hn Hd'].
    pose proof Hd' as [Hn1 _]%drop_cons_inv.
    apply Forall_cons in Hbody as [Hp Hbody].
    simpl app in Hnear. apply Forall_cons in Hnear as [Hpn Hnear].
    simpl length. simpl Nat.add.
    rewrite (while_true_step _ _ _ _
               (Z.of_nat (S n), (closer corner s p).1, (closer corner s p).2)).
    + rewrite (IH (S n) p tail (closer corner s p) Hd' Hp Hbody Hnear).
      simpl app. rewrite foot_scan_cons.
      replace (S n + length body + 1)%nat with (n + S (length body) + 1)%nat
        by lia.
      reflexivity.
    + unfold foot_cond. rewrite (idx_of_nat _ _ _ Hn). cbn [mbind res_bind].
      rewrite Hcur. reflexivity.
    + apply foot_body_step; assumption.
Qed.

End FootLoop.

(** X16.  find_foot_feature skips the pixels above the bound (70 +
    threshold, or waist.row + 1 + threshold when waist.row is above 70),
    leaves out the first pixel at or below it, and looks at the entries
    after that one up to the first (0,0), that entry included.  When each of
    them is at most 46340 from the corner in each coordinate, so that no
    product of the source leaves the [int]s, it returns the first of those
    nearest to the corner, or (1000,1000) when all of them are 10000 or more
    away. *)
Theorem X16_foot_is_nearest_to_the_corner (shape_pixels : list Point)
    (threshold : Z) (waist_feature corner : Point) (index_waist : Z)
    (before above : list Point) (start : Point) (body tail : list Point) :
  let bound :=
    (if 70 <? x waist_feature then x waist_feature + 1 else 70) + threshold in
  shape_pixels = before ++ above ++ start :: body ++ origin :: tail ->
  index_waist = Z.of_nat (length before) ->
  Forall (fun p => x p < bound /\ is_origin p = false) above ->
  bound <= x start -> is_origin start = false ->
  Forall (fun p => is_origin p = false) body ->
  Forall (near corner) (body ++ [origin]) ->
  exists r,
    find_foot_feature shape_pixels threshold waist_feature corner index_waist
    = Ok r /\
    ((r = mkPoint 1000 1000 /\
      forall q, In q (body ++ [origin]) -> 100000000 <= dist_sq corner q) \/
     (exists l1 l2,
        body ++ [origin] = l1 ++ r :: l2 /\
        dist_sq corner r < 100000000 /\
        (forall q, In q l1 -> dist_sq corner r < dist_sq corner q) /\
        (forall q, In q l2 -> dist_sq corner r <= dist_sq corner q))).
Proof.
  intros bound Hsp Hiw Habove Hstart Hno Hbody Hnear.
  assert (Hd0 : drop (length before) shape_pixels
                = above ++ start :: body ++ origin :: tail).
  { rewrite Hsp. apply drop_app_length. }
  assert (Hd1 : drop (length before + length above) shape_pixels
                = start :: body ++ origin :: tail).
  { rewrite <- drop_drop, Hd0. apply drop_app_length. }
  assert (Hlen : length shape_pixels
                 = (length before + length above + S (length body + S (length tail)))%nat).
  { rewrite Hsp. rewrite !length_app. simpl. rewrite length_app. simpl. lia. }
  unfold find_foot_feature. fold bound. rewrite Hiw.
  assert (Hskip : while_ (vec_fuel shape_pixels) (skip_cond shape_pixels bound)
                    skip_body (Z.of_nat (length before))
                  = Ok (Z.of_nat (length before + length above))).
  { unfold vec_fuel.
    replace (S (length shape_pixels))
      with (length above + S (length shape_pixels - length above))%nat by lia.
    rewrite (skip_loop_run shape_pixels bound above _ _ _ Hd0 Habove).
    apply while_false_step. unfold skip_cond.
    rewrite (idx_drop _ _ _ _ Hd1). cbn [mbind res_bind].
    destruct (Z.ltb_spec (x start) bound); [lia|reflexivity]. }
  rewrite (bind_Ok_l _ _ _ Hskip).
  pose proof (foot_loop_run shape_pixels corner body _ start tail
                (100000000, mkPoint 1000 1000) Hd1 Hno Hbody Hnear) as Hrun.
  cbn [fst snd] in Hrun.
  apply (while_fuel_mono _ _ _ (vec_fuel shape_pixels)) in Hrun;
    [|unfold vec_fuel; lia].
  rewrite (bind_Ok_l _ _ _ Hrun). cbv beta iota.
  eexists. split; [reflexivity|].
  destruct (foot_scan_spec corner (body ++ [origin]) 100000000 (mkPoint 1000 1000))
    as [[E Hall]|(l1 & l2 & r & E & Hl & Hr & H1 & H2)]; rewrite E; cbn [snd].
  - left. auto.
  - right. exists l1, l2. auto.
Qed.

(** ** The pixel closest to a goal *)


Section ClosestLoop.

Variable shape_pixels : list Point.
Variable goal_node : Point.
Variable x_bound : Z.




End ClosestLoop.


(** ** The widest run *)

Lemma arm_width_bounds (L : Z) :
  0 <= L ->
  let aw := if L ÷ 10 =? 0 then 1 else L ÷ 10 in
  1 <= aw /\ (0 < L -> aw <= L) /\ (aw = 1 \/ 10 * aw <= L).
Proof.
  intros HL. cbv zeta. rewrite Z.quot_div_nonneg by lia.
  pose proof (Z.div_mod L 10 ltac:(lia)).
  pose proof (Z.mod_pos_bound L 10 ltac:(lia)).
  pose proof (Z.div_pos L 10 HL ltac:(lia)).
  destruct (Z.eqb_spec (L / 10) 0); lia.
Qed.

(** X18.  set_shoulder_positions returns an arm width of 1 or more and two
    shoulders on one row.  When it found a run, of [L] steps, the [L + 1]
    entries of shape_pixels that end at the index it returns are consecutive
    pixels of that row, none before index_torso, and the shoulders are two
    of them: the left one [arm_width] entries after the first, the right one
    [arm_width] entries before the last.  When it found none the index is
    left as it was. *)
Theorem X18_shoulders_lie_on_a_run (shape_pixels : list Point)
    (threshold : Z) (torso_feature : Point) (index_torso index_shoulders : Z)
    (left_shoulder right_shoulder : Point) (arm_width index_shoulders' : Z) :
  set_shoulder_positions shape_pixels threshold torso_feature index_torso
    index_shoulders
  = Ok (left_shoulder, right_shoulder, arm_width, index_shoulders') ->
  1 <= arm_width /\ x left_shoulder = x right_shoulder /\
  exists L,
    0 <= L /\
    arm_width = (if L ÷ 10 =? 0 then 1 else L ÷ 10) /\
    y right_shoulder - y left_shoulder = L - 2 * arm_width /\
    (L = 0 -> index_shoulders' = index_shoulders) /\
    (0 < L ->
       index_torso <= index_shoulders' - L /\
       (forall k, 0 <= k <= L ->
          idx shape_pixels (index_shoulders' - k)
          = Ok (mkPoint (x right_shoulder) (y right_shoulder + arm_width - k))) /\
       idx shape_pixels (index_shoulders' - L + arm_width) = Ok left_shoulder /\
       idx shape_pixels (index_shoulders' - arm_width) = Ok right_shoulder).
Proof.
  unfold set_shoulder_positions. cbv zeta. intros H.
  apply bind_Ok in H as (p0 & _ & H).
  apply bind_Ok in H as (i & Hskip%shoulder_skip_loop_index & H).
  apply bind_Ok in H as (p & Hp & H).
  apply bind_Ok in H as (s & Hloop & [= <- <- <- <-]).
  apply (run_loop_inv _ _ _ _ _ _ _ Hp) in Hloop
    as (_ & HL & _ & _ & Hbest).
  destruct (arm_width_bounds (r_largest_dist s) HL) as (Haw1 & Haw2 & _).
  cbv zeta in Haw1, Haw2.
  set (L := r_largest_dist s) in *.
  set (aw := if L ÷ 10 =? 0 then 1 else L ÷ 10) in *.
  cbn [x y]. split; [exact Haw1|]. split; [reflexivity|].
  exists L. split; [exact HL|]. split; [reflexivity|]. split; [lia|].
  destruct Hbest as [(HL0 & _ & Hix)|(HLpos & Hi0 & Hrun)].
  - split; [auto|]. intros ?. lia.
  - split; [intros ?; lia|]. intros _. specialize (Haw2 HLpos).
    split; [lia|]. split.
    + intros k Hk. rewrite (Hrun k Hk). f_equal. f_equal. lia.
    + split.
      * replace (r_index s - L + aw) with (r_index s - (L - aw)) by lia.
        rewrite (Hrun (L - aw)) by lia. f_equal. f_equal. lia.
      * rewrite (Hrun aw) by lia. reflexivity.
Qed.

(** X19.  The waist find_waist_feature returns is [threshold] rows above an
    entry of shape_pixels at or after index_torso.  When it found a run, of
    [L] steps, the [L + 1] entries of shape_pixels that end at the index it
    returns are consecutive pixels of one row, none before index_torso, and
    the waist is above the middle one; when it found none the index is left
    as it was. *)
Theorem X19_waist_lies_above_a_run (shape_pixels : list Point)
    (threshold : Z) (torso_feature : Point) (index_torso index_waist : Z)
    (flag flag' : bool) (waist : Point) (index_waist' : Z) :
  find_waist_feature shape_pixels threshold torso_feature index_torso
    index_waist flag = Ok (waist, index_waist', flag') ->
  (exists j, index_torso <= j /\
     idx shape_pixels j = Ok (mkPoint (x waist + threshold) (y waist))) /\
  exists L,
    0 <= L /\
    (L = 0 -> index_waist' = index_waist) /\
    (0 < L ->
       index_torso <= index_waist' - L /\
       forall k, 0 <= k <= L ->
         idx shape_pixels (index_waist' - k)
         = Ok (mkPoint (x waist + threshold) (y waist + L ÷ 2 - k))).
Proof.
  unfold find_waist_feature. intros H.
  apply bind_Ok in H as (p0 & _ & H).
  apply bind_Ok in H as ([s b] & Htry & [= <- <- _]).
  unfold try_catch in Htry.
  match type of Htry with
  | match ?m with _ => _ end = _ =>
      pose proof (waist_try_no_exception shape_pixels
        ((if 64 <? x torso_feature then x torso_feature + 1 else 64) + threshold)
        80 index_torso index_waist flag) as Hne;
      destruct m as [[s1 b1]|f] eqn:Em
  end; [|destruct f; try discriminate; contradiction].
  injection Htry as -> _.
  apply bind_Ok in Em as (i & Hskip%waist_skip_loop_index & Em).
  apply bind_Ok in Em as (p & Hp & Em).
  apply bind_Ok in Em as (s2 & Hloop & [= -> _]).
  pose proof (run_loop_index _ _ index_torso index_waist _ _ _ Hloop Hskip
                eq_refl) as Hidx.
  apply (run_loop_inv _ _ _ _ _ _ _ Hp) in Hloop
    as (_ & HL & _ & _ & Hbest).
  set (L := r_largest_dist s) in *. cbn [x y].
  assert (Hhalf : 0 <= L ÷ 2 <= L).
  { rewrite Z.quot_div_nonneg by lia.
    pose proof (Z.div_mod L 2 ltac:(lia)).
    pose proof (Z.mod_pos_bound L 2 ltac:(lia)). lia. }
  destruct Hbest as [(HL0 & Hb & Hix)|(HLpos & Hi0 & Hrun)].
  - split.
    + exists i. split; [exact Hskip|]. rewrite Hb, HL0.
      change (0 ÷ 2) with 0. rewrite Z.sub_0_r.
      replace (x p - threshold + threshold) with (x p) by lia.
      rewrite Point_eta. exact Hp.
    + exists L. split; [exact HL|]. split; [auto|]. intros ?. lia.
  - split.
    + exists (r_index s - L ÷ 2). split; [lia|].
      rewrite (Hrun (L ÷ 2)) by lia. f_equal. f_equal. lia.
    + exists L. split; [exact HL|]. split; [intros ?; lia|]. intros _.
      split; [lia|]. intros k Hk. rewrite (Hrun k Hk).
      f_equal. f_equal; lia.
Qed.

(** ** The seed fill paints the connected component of the seed *)

Lemma Mat_set_wf (img : Mat) (r c : Z) (v : Vec3b) :
  Mat_wf img -> Mat_wf (Mat_set img r c v).
Proof.
  intros (Hr & Hc & Hl). unfold Mat_wf, Mat_set. cbn [rows cols data].
  rewrite length_insert. auto.
Qed.

Lemma at_Mat_set_eq (img : Mat) (r c : Z) (v : Vec3b) :
  Mat_wf img -> inside img r c = true -> at_ (Mat_set img r c v) r c = Ok v.
Proof.
  intros Hwf Hin. destruct (inside_index img r c Hwf Hin) as [H0 Hlt].
  apply at_Ok. unfold Mat_set at 1 2 3. cbn [rows cols data].
  split; [exact Hin|]. split; [exact H0|].
  apply list_lookup_insert_eq. lia.
Qed.

Lemma at_Mat_set_ne (img : Mat) (r c r' c' : Z) (v : Vec3b) :
  Mat_wf img -> inside img r c = true -> (r', c') <> (r, c) ->
  at_ (Mat_set img r c v) r' c' = at_ img r' c'.
Proof.
  intros Hwf Hin Hne. unfold at_.
  change (inside (Mat_set img r c v) r' c') with (inside img r' c').
  destruct (inside img r' c') eqn:Hin'; [|reflexivity].
  destruct (inside_index img r c Hwf Hin) as [H0 Hlt].
  destruct (inside_index img r' c' Hwf Hin') as [H0' Hlt'].
  unfold Mat_set. cbn [rows cols data]. unfold idx.
  rewrite list_lookup_insert_ne; [reflexivity|].
  intros E. apply Hne. unfold inside in Hin, Hin'.
  rewrite !andb_true_iff, !Z.leb_le, !Z.ltb_lt in Hin, Hin'.
  assert (E' : r * cols img + c = r' * cols img + c') by lia.
  assert (r = r') by nia. subst r'. f_equal. lia.
Qed.

Lemma connected_old (img : Mat) (old : Vec3b) (seed q : Z * Z) :
  connected img old seed q -> at_ img q.1 q.2 = Ok old.
Proof. intros [H|p q' _ _ H]; exact H. Qed.

Section FloodConnected.

Variables (img0 : Mat) (old newVal : Vec3b) (seed : Z * Z).
Hypothesis Hwf : Mat_wf img0.
Hypothesis Hseed_old : at_ img0 seed.1 seed.2 = Ok old.
Hypothesis Hnew : old <> newVal.

Lemma flood_conn_start : flood_conn img0 old newVal seed (img0, [seed]).
Proof.
  unfold flood_conn. cbn [fst snd].
  split; [reflexivity|]. split; [reflexivity|]. split; [reflexivity|].
  split; [auto|]. split.
  - intros q [<-|[]] _. apply connected_seed. exact Hseed_old.
  - split; [|right; left; reflexivity].
    intros p q Hp Hp'. congruence.
Qed.

Lemma flood_body_keeps_conn (s s' : Mat * list (Z * Z)) :
  flood_conn img0 old newVal seed s -> flood_body old newVal s = Ok s' ->
  flood_conn img0 old newVal seed s'.
Proof.
  destruct s as [img wl].
  intros (Hr & Hc & Hl & HP & HC & HD & HE) H. cbn [fst snd] in *.
  assert (Hwf' : Mat_wf img).
  { destruct Hwf as (? & ? & ?). unfold Mat_wf. rewrite Hr, Hc, Hl. auto. }
  assert (Hins : forall r c, inside img r c = inside img0 r c).
  { intros r c. unfold inside. rewrite Hr, Hc. reflexivity. }
  unfold flood_body in H. cbn [fst snd] in H.
  destruct wl as [|[r c] rest].
  { injection H as <-. unfold flood_conn. cbn [fst snd]. auto 10. }
  (* the popped position is painted already or is not of colour [old] *)
  assert (Hskip : (forall v, at_ img r c = Ok v -> v <> old) ->
                  flood_conn img0 old newVal seed (img, rest)).
  { intros Hnot.
    assert (Hpop : at_ img0 r c = Ok old -> at_ img r c = Ok newVal).
    { intros Ho. destruct (HP r c old Ho) as [Hsame|(_ & Hp & _)];
        [|exact Hp]. exfalso. exact (Hnot _ Hsame eq_refl). }
    unfold flood_conn. cbn [fst snd].
    split; [exact Hr|]. split; [exact Hc|]. split; [exact Hl|].
    split; [exact HP|]. split.
    - intros q Hq. apply HC. right. exact Hq.
    - split.
      + intros p q Hp Hp' Hadj Hq.
        destruct (HD p q Hp Hp' Hadj Hq) as [?|[<-|Hin]]; auto.
      + destruct HE as [?|[<-|Hin]]; auto. }
  destruct (inside img r c) eqn:Hin.
  2:{ injection H as <-. apply Hskip. intros v Hv.
      apply at_Ok in Hv as (Hv & _). congruence. }
  apply bind_Ok in H as (v & Hv & H).
  destruct (Vec3b_eqb v old) eqn:Ev.
  2:{ injection H as <-. apply Hskip. intros v' Hv' ->.
      rewrite Hv in Hv'. injection Hv' as ->.
      rewrite Vec3b_eqb_refl in Ev. discriminate. }
  apply Vec3b_eqb_eq in Ev as ->. injection H as <-.
  assert (Hin0 : inside img0 r c = true) by (rewrite <- Hins; exact Hin).
  assert (Ho : at_ img0 r c = Ok old).
  { destruct (at_inside img0 r c Hwf Hin0) as [v0 Hv0].
    destruct (HP r c v0 Hv0) as [Hsame|(-> & _)]; [congruence|exact Hv0]. }
  pose proof (HC (r, c) ltac:(left; reflexivity) Ho) as Hconn.
  assert (Hset : forall r' c',
            at_ (Mat_set img r c newVal) r' c' = Ok newVal <->
            (r', c') = (r, c) \/ at_ img r' c' = Ok newVal).
  { intros r' c'. destruct (decide ((r', c') = (r, c))) as [ [= -> ->] | Hne].
    - rewrite at_Mat_set_eq by assumption. tauto.
    - rewrite at_Mat_set_ne by assumption. split; [auto|].
      intros [?|?]; [contradiction|assumption]. }
  unfold flood_conn. cbn [fst snd].
  split; [exact Hr|]. split; [exact Hc|].
  split; [cbn [Mat_set data]; rewrite length_insert; exact Hl|].
  split; [|split; [|split]].
  - intros r' c' v Hv0.
    destruct (decide ((r', c') = (r, c))) as [ [= -> ->] | Hne].
    + right. rewrite at_Mat_set_eq by assumption.
      split; [congruence|]. split; [reflexivity|exact Hconn].
    + rewrite at_Mat_set_ne by assumption. apply HP. exact Hv0.
  - intros q Hq Hqo.
    assert (Hnb : adjacent (r, c) q -> connected img0 old seed q).
    { intros Hadj. exact (connected_step _ _ _ _ _ Hconn Hadj Hqo). }
    destruct Hq as [<-|[<-|[<-|[<-|Hq]]]];
      try (apply Hnb; unfold adjacent; cbn [fst snd]; tauto).
    apply HC; [right; exact Hq|exact Hqo].
  - intros p q Hp Hp' Hadj Hq. destruct p as [pr pc]. cbn [fst snd] in *.
    apply Hset in Hp' as [ [= -> ->] | Hp'].
    + right. unfold adjacent in Hadj. cbn [fst snd] in Hadj.
      destruct Hadj as [-> | [-> | [-> | ->]]]; simpl; tauto.
    + destruct (HD (pr, pc) q Hp Hp' Hadj Hq) as [Hq'|[<-|Hq']].
      * left. apply Hset. right. exact Hq'.
      * left. apply Hset. left. reflexivity.
      * right. simpl. tauto.
  - destruct HE as [HE|[<-|HE]].
    + left. apply Hset. right. exact HE.
    + left. apply Hset. left. reflexivity.
    + right. simpl. tauto.
Qed.

(** At the exit the painted pixels are the pixels connected to the seed. *)
Lemma flood_conn_exit (img : Mat) :
  flood_conn img0 old newVal seed (img, []) ->
  forall r c v, at_ img0 r c = Ok v ->
    (connected img0 old seed (r, c) /\ at_ img r c = Ok newVal) \/
    (~ connected img0 old seed (r, c) /\ at_ img r c = Ok v).
Proof.
  intros (Hr & Hc & Hl & HP & HC & HD & HE). cbn [fst snd] in *.
  assert (Hall : forall q, connected img0 old seed q ->
                           at_ img q.1 q.2 = Ok newVal).
  { intros q Hq. induction Hq as [|p q Hp IH Hadj Hqo].
    - destruct HE as [?|[]]. assumption.
    - destruct (HD p q (connected_old _ _ _ _ Hp) IH Hadj Hqo) as [?|[]].
      assumption. }
  intros r c v Hv.
  destruct (HP r c v Hv) as [Hsame|(-> & Hp & Hconn)]; [|left; auto].
  right. split; [|exact Hsame]. intros Hconn.
  pose proof (Hall _ Hconn) as Hp. cbn [fst snd] in Hp.
  pose proof (connected_old _ _ _ _ Hconn) as Ho. cbn [fst snd] in Ho.
  congruence.
Qed.

End FloodConnected.

(** cv::floodFill paints the pixels connected to the seed through pixels of
    the colour of the seed, and no other. *)
Lemma floodFill_connected (img img' : Mat) (seedPoint : Point)
    (newVal old : Vec3b) :
  Mat_wf img ->
  floodFill img seedPoint newVal = Ok img' ->
  at_ img (y seedPoint) (x seedPoint) = Ok old -> old <> newVal ->
  forall r c v, at_ img r c = Ok v ->
    (connected img old (y seedPoint, x seedPoint) (r, c) /\
     at_ img' r c = Ok newVal) \/
    (~ connected img old (y seedPoint, x seedPoint) (r, c) /\
     at_ img' r c = Ok v).
Proof.
  intros Hwf H Hold Hne. unfold floodFill in H.
  destruct (inside img (y seedPoint) (x seedPoint)); [|discriminate].
  rewrite Hold in H. cbn [mbind res_bind] in H.
  destruct (Vec3b_eqb old newVal) eqn:E.
  { apply Vec3b_eqb_eq in E. contradiction. }
  apply bind_Ok in H as ([img1 wl] & Hrun & [= <-]).
  apply (while_inv (flood_conn img old newVal (y seedPoint, x seedPoint)))
    in Hrun as [Hinv Hcond].
  - unfold flood_cond in Hcond. cbn [snd] in Hcond.
    destruct wl; [|discriminate].
    exact (flood_conn_exit img old newVal (y seedPoint, x seedPoint) Hne img1
             Hinv).
  - intros a b Ha _ Hb.
    eapply flood_body_keeps_conn; eauto.
  - apply flood_conn_start; assumption.
Qed.

(** X20.  When the pixel (64,32) is of a colour that is neither the contour
    colour nor the fill colour, the first statement of create_skeleton gives
    the fill colour to the pixels joined to (64,32) by a path of adjacent
    pixels of that colour, and leaves every other pixel as it was.  The
    interior pixels highlight_pixels will list are these and the pixels that
    had the fill colour before. *)
Theorem X20_seed_fill_paints_the_connected_pixels (img img1 : Mat)
    (log : list call) (seed : Vec3b) :
  Mat_wf img ->
  flood_from_seed img = Ok (img1, log) ->
  at_ img 64 32 = Ok seed ->
  seed <> outline_colour -> seed <> fill_colour ->
  (forall r c v, at_ img r c = Ok v ->
     (connected img seed (64, 32) (r, c) /\ at_ img1 r c = Ok fill_colour) \/
     (~ connected img seed (64, 32) (r, c) /\ at_ img1 r c = Ok v)) /\
  (forall p, In p (pixels_of img1 fill_colour) <->
     connected img seed (64, 32) (x p, y p) \/
     at_ img (x p) (y p) = Ok fill_colour).
Proof.
  intros Hwf H Hseed Hno Hnf. unfold flood_from_seed in H.
  rewrite Hseed in H. cbn [mbind res_bind] in H.
  destruct (Vec3b_eqb seed outline_colour) eqn:E.
  { apply Vec3b_eqb_eq in E. contradiction. }
  simpl negb in H. cbv iota in H.
  apply bind_Ok in H as (img' & Hf & [= <- <-]).
  pose proof (floodFill_connected img img' (mkPoint 32 64) fill_colour seed
                Hwf Hf Hseed Hnf) as Hpix.
  cbn [x y] in Hpix. split; [exact Hpix|].
  assert (Hin : inside img 64 32 = true) by (apply at_Ok in Hseed; tauto).
  destruct (floodFill_spec img (mkPoint 32 64) fill_colour Hwf Hin)
    as (img2 & Hf2 & Hwf' & Hr & Hc & _ & _).
  rewrite Hf in Hf2. injection Hf2 as <-.
  intros p. split.
  - intros Hp%pixels_of_In.
    assert (Hin' : inside img (x p) (y p) = true).
    { apply at_Ok in Hp as (Hi & _). unfold inside in *.
      rewrite Hr, Hc in Hi. exact Hi. }
    destruct (at_inside img _ _ Hwf Hin') as [v Hv].
    destruct (Hpix _ _ _ Hv) as [[Hconn _]|[_ Hsame]]; [left; exact Hconn|].
    right. congruence.
  - intros Hp.
    assert (Hfill : at_ img' (x p) (y p) = Ok fill_colour).
    { destruct Hp as [Hconn|Hfill].
      - pose proof (connected_old _ _ _ _ Hconn) as Ho. cbn [fst snd] in Ho.
        destruct (Hpix _ _ _ Ho) as [[_ ?]|[Hn _]]; [assumption|contradiction].
      - destruct (Hpix _ _ _ Hfill) as [[_ ?]|[_ ?]]; assumption. }
    apply pixels_of_complete in Hfill. rewrite Point_eta in Hfill. exact Hfill.
Qed.

(** ** The halfway node *)

Lemma quot_2_between (a : Z) :
  Z.abs (a ÷ 2) <= Z.abs (a - a ÷ 2) <= Z.abs (a ÷ 2) + 1 /\
  (0 <= a -> 0 <= a ÷ 2 <= a) /\ (a <= 0 -> a <= a ÷ 2 <= 0).
Proof.
  pose proof (Z.quot_rem' a 2) as E.
  destruct (Z.le_gt_cases 0 a) as [H|H].
  - pose proof (Z.rem_bound_pos_pos a 2 ltac:(lia) H). lia.
  - pose proof (Z.rem_bound_pos_neg a 2 ltac:(lia) ltac:(lia)). lia.
Qed.

Section Halfway.

Context {double : Type} (sqrt : Z -> double).

(** X21.  The halfway node calc_halfway_torso_dist returns lies between the
    torso and the waist in both coordinates, as far from the torso as from
    the waist or one pixel nearer to the torso: the division rounds toward
    the torso. *)
Theorem X21_halfway_node_lies_between (torso_feature waist_feature : Point) :
  let h := (calc_halfway_torso_dist double sqrt torso_feature waist_feature).1 in
  Z.min (x torso_feature) (x waist_feature) <= x h
    <= Z.max (x torso_feature) (x waist_feature) /\
  Z.min (y torso_feature) (y waist_feature) <= y h
    <= Z.max (y torso_feature) (y waist_feature) /\
  Z.abs (x h - x torso_feature) <= Z.abs (x waist_feature - x h)
    <= Z.abs (x h - x torso_feature) + 1 /\
  Z.abs (y h - y torso_feature) <= Z.abs (y waist_feature - y h)
    <= Z.abs (y h - y torso_feature) + 1.
Proof.
  unfold calc_halfway_torso_dist. cbv zeta. cbn [fst snd x y].
  pose proof (quot_2_between (x waist_feature - x torso_feature)) as (A1 & A2 & A3).
  pose proof (quot_2_between (y waist_feature - y torso_feature)) as (B1 & B2 & B3).
  set (qx := (x waist_feature - x torso_feature) ÷ 2) in *.
  set (qy := (y waist_feature - y torso_feature) ÷ 2) in *.
  replace (x torso_feature + qx - x torso_feature) with qx by lia.
  replace (y torso_feature + qy - y torso_feature) with qy by lia.
  replace (x waist_feature - (x torso_feature + qx))
    with (x waist_feature - x torso_feature - qx) by lia.
  replace (y waist_feature - (y torso_feature + qy))
    with (y waist_feature - y torso_feature - qy) by lia.
  split; [lia|]. split; [lia|]. split; lia.
Qed.

End Halfway.

(** ** The further properties at sample inputs *)

(** X2 at the model init leaves and the sample skeleton. *)
Lemma X2_witness :
  train_compare_ranges untrained sample_skeleton = Ok sample_boxes /\
  train_compare_ranges sample_boxes sample_skeleton = Ok sample_boxes.
Proof.
  assert (H : train_compare_ranges untrained sample_skeleton = Ok sample_boxes)
    by (vm_compute; reflexivity).
  split; [exact H|].
  exact (X2_train_compare_ranges_idempotent untrained sample_boxes
           sample_skeleton H).
Defined.

(** X3 at the sample skeleton and the skeleton of (20,70), in both orders. *)
Lemma X3_witness :
  train_compare_ranges untrained sample_skeleton = Ok sample_boxes /\
  train_compare_ranges sample_boxes low_skeleton = Ok both_boxes /\
  train_compare_ranges untrained low_skeleton
  = Ok (new_PeopleFinder low_skeleton low_skeleton "" false) /\
  train_compare_ranges (new_PeopleFinder low_skeleton low_skeleton "" false)
    sample_skeleton = Ok both_boxes /\
  both_boxes = both_boxes.
Proof.
  assert (Ha : train_compare_ranges untrained sample_skeleton = Ok sample_boxes)
    by (vm_compute; reflexivity).
  assert (Hb : train_compare_ranges sample_boxes low_skeleton = Ok both_boxes)
    by (vm_compute; reflexivity).
  assert (Hc : train_compare_ranges untrained low_skeleton
               = Ok (new_PeopleFinder low_skeleton low_skeleton "" false))
    by (vm_compute; reflexivity).
  assert (Hd : train_compare_ranges
                 (new_PeopleFinder low_skeleton low_skeleton "" false)
                 sample_skeleton = Ok both_boxes)
    by (vm_compute; reflexivity).
  repeat (split; [assumption|]).
  exact (X3_train_compare_ranges_commute untrained _ _ _ _ sample_skeleton
           low_skeleton Ha Hb Hc Hd).
Defined.

(** X4 at the two skeletons folded into the model init leaves: the landmark
    (20,70) lies in the box from (20,50) to (50,70). *)
Lemma X4_witness :
  train_all untrained [sample_skeleton; low_skeleton] = Ok both_boxes /\
  point_le (mkPoint 20 50) (mkPoint 20 70) /\
  point_le (mkPoint 20 70) (mkPoint 50 70) /\
  point_le (mkPoint 20 50) (mkPoint 50 70).
Proof.
  assert (H : train_all untrained [sample_skeleton; low_skeleton]
              = Ok both_boxes) by (vm_compute; reflexivity).
  split; [exact H|].
  apply (X4_trained_landmarks_inside_closed_box untrained both_boxes
           [sample_skeleton; low_skeleton] H low_skeleton 0%nat).
  - right. left. reflexivity.
  - lia.
  - reflexivity.
  - reflexivity.
  - reflexivity.
Defined.

(** X5 at the boxes [0,100) x [0,100) widened by the skeleton of (150,150):
    the skeleton of (120,120) scores 0 before and 11 after. *)
Lemma X5_witness :
  train_compare_ranges wide_boxes far_skeleton
  = Ok (boxes (mkPoint 0 0) (mkPoint 150 150)) /\
  (11 <= length mid_skeleton)%nat /\
  exists score score',
    feature_score wide_boxes mid_skeleton = Ok score /\
    feature_score (boxes (mkPoint 0 0) (mkPoint 150 150)) mid_skeleton
    = Ok score' /\
    score <= score'.
Proof.
  assert (H1 : train_compare_ranges wide_boxes far_skeleton
               = Ok (boxes (mkPoint 0 0) (mkPoint 150 150)))
    by (vm_compute; reflexivity).
  assert (H2 : (11 <= length mid_skeleton)%nat) by (vm_compute; lia).
  split; [exact H1|]. split; [exact H2|].
  destruct (X5_training_never_lowers_a_score wide_boxes _ far_skeleton
              mid_skeleton H1 H2)
    as (score & score' & Hs & Hs' & Hle & _).
  exists score, score'. auto.
Defined.

(** X7 at a vector without training images. *)
Lemma X7_witness :
  idx no_image 0 = Ok (mkMat 0 0 []) /\
  train unit (fun _ => tt) blind_elbow blind_hand blind_draw unit
    plain_contours wide_boxes no_image (mkMat 0 0 []) tt = Ok untrained /\
  init wide_boxes = Ok untrained /\
  judge_features untrained sample_skeleton = Ok "Noise".
Proof.
  assert (H1 : idx no_image 0 = Ok (mkMat 0 0 [])) by reflexivity.
  assert (H2 : rows (mkMat 0 0 []) = 0) by reflexivity.
  assert (H3 : train unit (fun _ => tt) blind_elbow blind_hand blind_draw unit
                 plain_contours wide_boxes no_image (mkMat 0 0 []) tt
               = Ok untrained) by (vm_compute; reflexivity).
  assert (H4 : (11 <= length sample_skeleton)%nat) by (vm_compute; lia).
  split; [exact H1|]. split; [exact H3|].
  destruct (X7_untrained_classifier_judges_noise (fun _ : Z => tt) blind_elbow
              blind_hand blind_draw plain_contours wide_boxes untrained
              no_image (mkMat 0 0 []) (mkMat 0 0 []) tt sample_skeleton
              H1 H2 H3 H4) as (Hinit & _ & _ & _ & Hnoise).
  split; [exact Hinit | exact Hnoise].
Defined.

(** X8 at the column silhouette, on the model init leaves and on the boxes
    [0,100) x [0,100) with the flag raised. *)
Lemma X8_witness :
  create_skeleton unit (fun _ => tt) blind_elbow blind_hand blind_draw
    untrained (column_image 30) = Ok (column_fit untrained) /\
  exists out2,
    create_skeleton unit (fun _ => tt) blind_elbow blind_hand blind_draw
      (set_flag wide_boxes true) (column_image 30) = Ok out2 /\
    f_nodes out2 = column_skeleton /\ f_image out2 = column_flooded 30 /\
    f_calls out2 = column_calls.
Proof.
  assert (H : create_skeleton unit (fun _ => tt) blind_elbow blind_hand
                blind_draw untrained (column_image 30)
              = Ok (column_fit untrained)) by (vm_compute; reflexivity).
  split; [exact H|].
  destruct (X8_create_skeleton_touches_only_the_flag (fun _ : Z => tt)
              blind_elbow blind_hand blind_draw untrained
              (set_flag wide_boxes true) (column_image 30)
              (column_fit untrained) H)
    as (_ & _ & _ & _ & _ & _ & out2 & H2).
  exists out2. exact H2.
Defined.

(** X9 at the vector of the column silhouette and a shape without rows. *)
Lemma X9_witness :
  test unit (fun _ => tt) blind_elbow blind_hand blind_draw untrained one_image
  = Ok (set_verdicts untrained ("Noise" :: replicate 19 EmptyString),
        [column_flooded 30; mkMat 0 0 []]) /\
  exists n : nat,
    (n <= 20)%nat /\
    (exists last, one_image !! n = Some last /\ rows last = 0) /\
    (forall i : nat, (n <= i < 20)%nat ->
       get_verdicts
         (set_verdicts untrained ("Noise" :: replicate 19 EmptyString)) !! i
       = Some EmptyString).
Proof.
  assert (H : test unit (fun _ => tt) blind_elbow blind_hand blind_draw
                untrained one_image
              = Ok (set_verdicts untrained ("Noise" :: replicate 19 EmptyString),
                    [column_flooded 30; mkMat 0 0 []]))
    by (vm_compute; reflexivity).
  split; [exact H|].
  destruct (X9_test_verdicts_aligned (fun _ : Z => tt) blind_elbow blind_hand
              blind_draw untrained _ one_image _ H)
    as (_ & _ & _ & _ & _ & _ & n & Hn & Hlast & _ & Hrest & _).
  exists n. split; [exact Hn|]. split; [exact Hlast | exact Hrest].
Defined.

(** X10 at the vector of the column silhouette: its skeleton is kept. *)
Lemma X10_witness :
  train unit (fun _ => tt) blind_elbow blind_hand blind_draw unit
    plain_contours untrained one_image (mkMat 0 0 []) tt = Ok column_boxes /\
  kept_skeletons unit (fun _ => tt) blind_elbow blind_hand blind_draw unit
    plain_contours untrained false one_image (mkMat 0 0 []) tt
  = Ok [column_skeleton] /\
  exists m,
    train_all untrained [column_skeleton] = Ok m /\
    min_range column_boxes = min_range m /\
    max_range column_boxes = max_range m.
Proof.
  assert (H : train unit (fun _ => tt) blind_elbow blind_hand blind_draw unit
                plain_contours untrained one_image (mkMat 0 0 []) tt
              = Ok column_boxes) by (vm_compute; reflexivity).
  assert (H0 : init untrained = Ok untrained) by (vm_compute; reflexivity).
  assert (Hk : kept_skeletons unit (fun _ => tt) blind_elbow blind_hand
                 blind_draw unit plain_contours untrained false one_image
                 (mkMat 0 0 []) tt = Ok [column_skeleton])
    by (vm_compute; reflexivity).
  split; [exact H|]. split; [exact Hk|].
  destruct (X10_train_folds_the_kept_skeletons (fun _ : Z => tt) blind_elbow
              blind_hand blind_draw plain_contours untrained column_boxes
              one_image (mkMat 0 0 []) tt H)
    as (self1 & kept & m & H1 & H2 & H3 & H4 & H5 & _).
  rewrite H0 in H1. injection H1 as <-.
  change (bad_skel_flag untrained) with false in H2.
  rewrite Hk in H2. injection H2 as <-.
  exists m. auto.
Defined.

(** X11 at the flooded column silhouette and the vectors of
    create_skeleton. *)
Lemma X11_witness :
  Mat_wf (column_flooded 30) /\
  highlight_pixels (column_flooded 30)
    (replicate (Z.to_nat 8192) (mkPoint 0 0))
    (replicate (Z.to_nat 4096) (mkPoint 0 0))
  = Ok (overwrite (pixels_of (column_flooded 30) fill_colour)
          (replicate (Z.to_nat 8192) (mkPoint 0 0)),
        overwrite (pixels_of (column_flooded 30) outline_colour)
          (replicate (Z.to_nat 4096) (mkPoint 0 0))).
Proof.
  assert (H : Mat_wf (column_flooded 30)).
  { unfold Mat_wf. vm_compute. repeat split; discriminate. }
  split; [exact H|].
  destruct (X11_highlight_pixels_lists_the_pixels (column_flooded 30)
              (replicate (Z.to_nat 8192) (mkPoint 0 0))
              (replicate (Z.to_nat 4096) (mkPoint 0 0)) H) as [Hrun _].
  apply Hrun. split; apply Nat.leb_le; vm_compute; reflexivity.
Defined.

(** X12 at the column silhouette. *)
Lemma X12_witness :
  Mat_wf (column_image 30) /\
  flood_from_seed (column_image 30) = Ok (column_flooded 30, [CallFloodFill]) /\
  pixels_of (column_flooded 30) outline_colour
  = pixels_of (column_image 30) outline_colour.
Proof.
  assert (H1 : Mat_wf (column_image 30)).
  { unfold Mat_wf. vm_compute. repeat split; discriminate. }
  assert (H2 : flood_from_seed (column_image 30)
               = Ok (column_flooded 30, [CallFloodFill]))
    by (vm_compute; reflexivity).
  split; [exact H1|]. split; [exact H2|].
  apply (X12_seed_fill_keeps_the_contour (column_image 30) (column_flooded 30)
           [CallFloodFill] H1 H2).
Defined.

(** X13 at the flooded column silhouette and the vectors of
    create_skeleton. *)
Lemma X13_witness :
  Mat_wf (column_flooded 30) /\
  silhouette_valid (column_flooded 30) = Ok true /\
  exists sp op,
    highlight_pixels (column_flooded 30)
      (replicate (Z.to_nat 8192) (mkPoint 0 0))
      (replicate (Z.to_nat 4096) (mkPoint 0 0)) = Ok (sp, op) /\
    (forall (k : nat) p, sp !! k = Some p ->
       (is_origin p = true <->
        (length (pixels_of (column_flooded 30) fill_colour) <= k)%nat)).
Proof.
  assert (H1 : Mat_wf (column_flooded 30)).
  { unfold Mat_wf. vm_compute. repeat split; discriminate. }
  assert (H2 : silhouette_valid (column_flooded 30) = Ok true)
    by (vm_compute; reflexivity).
  assert (H3 : rows (column_flooded 30) * cols (column_flooded 30)
               <= Z.of_nat (Z.to_nat 8192)) by (vm_compute; discriminate).
  assert (H4 : (length (pixels_of (column_flooded 30) outline_colour)
                <= length (replicate (Z.to_nat 4096) (mkPoint 0 0)))%nat)
    by (apply Nat.leb_le; vm_compute; reflexivity).
  split; [exact H1|]. split; [exact H2|].
  destruct (X13_origin_marks_the_end_of_the_interior (column_flooded 30)
              (Z.to_nat 8192) (replicate (Z.to_nat 4096) (mkPoint 0 0))
              H1 H2 H3 H4) as (sp & op & Hrun & _ & _ & Hend & _).
  exists sp, op. split; [exact Hrun | exact Hend].
Defined.

(** X14 at the stair list. *)
Lemma X14_witness :
  find_head_feature stair_pixels 5 0 = Ok (mkPoint 6 5, 0).
Proof.
  apply (X14_head_is_the_first_pixel (mkPoint 1 5)
           (mkPoint 1 6 :: flat_map row_pixels stair_band)
           (replicate 15 (mkPoint 0 0)) 5 0).
  - reflexivity.
  - simpl. lia.
  - lia.
  - repeat constructor; simpl; lia.
Defined.

(** X15 at the column silhouette: the head is 5 rows below the pixel
    (30,32). *)
Lemma X15_witness :
  Mat_wf (column_image 30) /\
  flood_from_seed (column_image 30) = Ok (column_flooded 30, [CallFloodFill]) /\
  silhouette_valid (column_flooded 30) = Ok true /\
  create_skeleton unit (fun _ => tt) blind_elbow blind_hand blind_draw
    untrained (column_image 30) = Ok (column_fit untrained) /\
  exists p0 rest,
    pixels_of (column_flooded 30) fill_colour = p0 :: rest /\
    column_skeleton !! 0%nat = Some (mkPoint (x p0 + 5) (y p0)).
Proof.
  assert (H1 : Mat_wf (column_image 30)).
  { unfold Mat_wf. vm_compute. repeat split; discriminate. }
  assert (H2 : rows (column_image 30) * cols (column_image 30) <= 8192)
    by (vm_compute; discriminate).
  assert (H3 : flood_from_seed (column_image 30)
               = Ok (column_flooded 30, [CallFloodFill]))
    by (vm_compute; reflexivity).
  assert (H4 : silhouette_valid (column_flooded 30) = Ok true)
    by (vm_compute; reflexivity).
  assert (H5 : create_skeleton unit (fun _ => tt) blind_elbow blind_hand
                 blind_draw untrained (column_image 30)
               = Ok (column_fit untrained)) by (vm_compute; reflexivity).
  repeat (split; [assumption|]).
  destruct (X15_head_of_the_skeleton (fun _ : Z => tt) blind_elbow blind_hand
              blind_draw untrained (column_image 30) (column_flooded 30)
              [CallFloodFill] (column_fit untrained) H1 H2 H3 H4 H5)
    as (p0 & rest & Hp & _ & _ & Hhead).
  exists p0, rest. split; [exact Hp | exact Hhead].
Defined.

(** X16 at the pixels of two legs: the foot nearest to the corner (127,1)
    is looked for among the pixels after (75,10). *)
Lemma X16_witness :
  exists r,
    find_foot_feature leg_pixels 5 (mkPoint 60 10) (mkPoint 127 1) 0 = Ok r /\
    ((r = mkPoint 1000 1000 /\
      forall q, In q ([mkPoint 80 3; mkPoint 100 2; mkPoint 120 5] ++ [origin]) ->
        100000000 <= dist_sq (mkPoint 127 1) q) \/
     (exists l1 l2,
        [mkPoint 80 3; mkPoint 100 2; mkPoint 120 5] ++ [origin]
        = l1 ++ r :: l2 /\
        dist_sq (mkPoint 127 1) r < 100000000 /\
        (forall q, In q l1 ->
           dist_sq (mkPoint 127 1) r < dist_sq (mkPoint 127 1) q) /\
        (forall q, In q l2 ->
           dist_sq (mkPoint 127 1) r <= dist_sq (mkPoint 127 1) q))).
Proof.
  apply (X16_foot_is_nearest_to_the_corner leg_pixels 5 (mkPoint 60 10)
           (mkPoint 127 1) 0 [] [mkPoint 74 10] (mkPoint 75 10)
           [mkPoint 80 3; mkPoint 100 2; mkPoint 120 5] []).
  - reflexivity.
  - reflexivity.
  - repeat constructor; simpl; lia.
  - simpl. lia.
  - reflexivity.
  - repeat constructor.
  - repeat constructor; simpl; lia.
Defined.


(** X18 at the raised-arm silhouette: the shoulders are the pixels 205 and
    209 of the run of six pixels that ends at index 210. *)
Lemma X18_witness :
  set_shoulder_positions arm_pixels 5 (mkPoint 17 31) 180 0
  = Ok (mkPoint 17 31, mkPoint 17 34, 1, 210) /\
  exists L,
    0 <= L /\ 1 = (if L ÷ 10 =? 0 then 1 else L ÷ 10) /\
    34 - 31 = L - 2 * 1.
Proof.
  assert (H : set_shoulder_positions arm_pixels 5 (mkPoint 17 31) 180 0
              = Ok (mkPoint 17 31, mkPoint 17 34, 1, 210))
    by (vm_compute; reflexivity).
  split; [exact H|].
  destruct (X18_shoulders_lie_on_a_run arm_pixels 5 (mkPoint 17 31) 180 0
              _ _ _ _ H) as (_ & _ & L & HL & Haw & Hgap & _).
  exists L. split; [exact HL|]. split; [exact Haw | exact Hgap].
Defined.

(** X19 at a run of three pixels in row 70: the waist is 5 rows above its
    middle pixel. *)
Lemma X19_witness :
  find_waist_feature run_pixels 5 (mkPoint 60 0) 0 0 false
  = Ok (mkPoint 65 11, 2, false) /\
  exists j, 0 <= j /\ idx run_pixels j = Ok (mkPoint (65 + 5) 11).
Proof.
  assert (H : find_waist_feature run_pixels 5 (mkPoint 60 0) 0 0 false
              = Ok (mkPoint 65 11, 2, false)) by (vm_compute; reflexivity).
  split; [exact H|].
  destruct (X19_waist_lies_above_a_run run_pixels 5 (mkPoint 60 0) 0 0 false
              _ _ _ H) as [Hj _].
  exact Hj.
Defined.

(** X20 at the column silhouette, whose pixel (64,32) is black. *)
Lemma X20_witness :
  Mat_wf (column_image 30) /\
  flood_from_seed (column_image 30) = Ok (column_flooded 30, [CallFloodFill]) /\
  at_ (column_image 30) 64 32 = Ok black /\
  (forall p, In p (pixels_of (column_flooded 30) fill_colour) <->
     connected (column_image 30) black (64, 32) (x p, y p) \/
     at_ (column_image 30) (x p) (y p) = Ok fill_colour).
Proof.
  assert (H1 : Mat_wf (column_image 30)).
  { unfold Mat_wf. vm_compute. repeat split; discriminate. }
  assert (H2 : flood_from_seed (column_image 30)
               = Ok (column_flooded 30, [CallFloodFill]))
    by (vm_compute; reflexivity).
  assert (H3 : at_ (column_image 30) 64 32 = Ok black) by reflexivity.
  assert (H4 : black <> outline_colour) by discriminate.
  assert (H5 : black <> fill_colour) by discriminate.
  repeat (split; [assumption|]).
  apply (X20_seed_fill_paints_the_connected_pixels (column_image 30)
           (column_flooded 30) [CallFloodFill] black H1 H2 H3 H4 H5).
Defined.

(** Beyond 46340 the products of the source wrap around: the pixel 65536
    rows from the corner counts as at distance 0 and is taken before the
    pixel (100,2), and so does the pixel 65536 rows from the goal. *)
Lemma find_foot_feature_wraps :
  find_foot_feature wide_leg_pixels 5 (mkPoint 60 10) (mkPoint 127 1) 0
  = Ok (mkPoint 65663 1).
Proof. vm_compute. reflexivity. Qed.

Lemma find_closest_pixel_wraps :
  find_closest_pixel wide_far_pixels (mkPoint 3 4) 10 0
  = Ok (mkPoint 65539 4).
Proof. vm_compute. reflexivity. Qed.
